(** * Loopor: a shallow embedding of the LV2 looper engine (loopor.cpp)

    The development follows [src/loopor-lv2/source/loopor.cpp].  The class
    [Looper] becomes a record, its methods become functions in an error
    monad whose failure cases are the out-of-range array accesses of the
    C++ code, and the per-block entry point [run] is a fold of the
    per-sample loop body over the input block.

    Conventions.
    - [size_t] is a 64-bit unsigned integer, modelled in [Z] with the
      wrap-around written out ([wrap]).
    - [float] is IEEE-754 binary32 and [double] binary64, both modelled by
      the Standard Library's [spec_float] with the matching precision.
    - The audio arena ([m_storage1], [m_storage2]) is a finite map from
      index to sample; a cell that was never written reads as [+0].
    - [powf] belongs to libm, not to this repository: it is a parameter.
    - The LV2 port plumbing and the log file are left out.  The engine
      ([run]) receives the button callbacks that fire in a block, in the
      order of [updateParameters]; the edge detection of [MomentaryButton]
      and the clock are modelled on top of it ([Plugin_run]). *)

From Stdlib Require Import ZArith Bool List Lia.
From Stdlib Require Import Floats.SpecFloat.
From stdpp Require Import base option list gmap.

Local Open Scope Z_scope.

(** ** Configuration constants *)

Definition NR_OF_DUBS : Z := 128.
Definition STORAGE_MEMORY_SECONDS : Z := 360.
Definition NR_OF_BLEND_SAMPLES : Z := 64.

(** ** Machine arithmetic *)

Definition SIZE_BITS : Z := 64.
Definition wrap (z : Z) : Z := z mod 2 ^ SIZE_BITS.

Module F32.
Definition prec : Z := 24.
Definition emax : Z := 128.
Definition t : Type := spec_float.
Definition zero : t := S754_zero false.
Definition one : t := Eval cbv in SFone prec emax.
Definition nan : t := S754_nan.
Definition mul : t -> t -> t := SFmul prec emax.
Definition add : t -> t -> t := SFadd prec emax.
Definition div : t -> t -> t := SFdiv prec emax.
Definition abs : t -> t := SFabs.
(** [geb a b] is the C comparison [a >= b]. *)
Definition geb (a b : t) : bool := SFleb b a.
Definition leb (a b : t) : bool := SFleb a b.
Definition ltb (a b : t) : bool := SFltb a b.
(** Conversion of an unsigned integer, round to nearest even. *)
Definition of_Z (z : Z) : t := binary_normalize prec emax z 0 false.
Definition is_nan (a : t) : bool :=
  match a with S754_nan => true | _ => false end.
(** libm's [fmaxf]: the larger operand, a NaN operand being ignored. *)
Definition fmaxf (a b : t) : t :=
  match a, b with
  | S754_nan, _ => b
  | _, S754_nan => a
  | _, _ => if SFleb a b then b else a
  end.
End F32.

Module F64.
Definition prec : Z := 53.
Definition emax : Z := 1024.
Definition t : Type := spec_float.
Definition mul : t -> t -> t := SFmul prec emax.
Definition of_Z (z : Z) : t := binary_normalize prec emax z 0 false.
(** Conversion to [size_t]: truncation toward zero.  The C++ conversion is
    undefined outside the range of [size_t]; the model wraps a finite
    value and sends infinities and NaN to 0. *)
Definition to_size_t (x : t) : Z :=
  match x with
  | S754_finite false m e =>
      wrap (if 0 <=? e then Zpos m * 2 ^ e else Zpos m / 2 ^ (- e))
  | _ => 0
  end.
End F64.

(** ** Data model *)

(** [State]: the state of the looper. *)
Inductive State :=
| LOOPER_STATE_INACTIVE
| LOOPER_STATE_WAITING_FOR_THRESHOLD
| LOOPER_STATE_RECORDING
| LOOPER_STATE_PLAYING.

#[global] Instance State_eq_dec : EqDecision State.
Proof. solve_decision. Defined.

Definition state_eqb (a b : State) : bool := bool_decide (a = b).

(** [class Dub]: where a dub lives in the arena and in the loop. *)
Record Dub := mkDub {
  m_storageOffset : Z;
  m_length : Z;
  m_startIndex : Z
}.

(** A default-initialised [Dub] (all members 0). *)
Definition Dub_default : Dub := mkDub 0 0 0.

(** The internal state of [class Looper].  [m_dubs] is the fixed array
    [Dub m_dubs[NR_OF_DUBS]]: an absent key is a slot that still holds
    [Dub_default]. *)
Record Looper := mkLooper {
  m_state : State;
  m_threshold : F32.t;
  m_dryAmount : F32.t;
  m_currentLoopIndex : Z;
  m_loopLength : Z;
  m_storageSize : Z;
  m_nrOfUsedSamples : Z;
  m_storage1 : gmap Z F32.t;
  m_storage2 : gmap Z F32.t;
  m_nrOfDubs : Z;
  m_maxUsedDubs : Z;
  m_dubs : gmap Z Dub
}.

Definition with_state (v : State) (l : Looper) : Looper :=
  mkLooper v (m_threshold l) (m_dryAmount l) (m_currentLoopIndex l)
    (m_loopLength l) (m_storageSize l) (m_nrOfUsedSamples l) (m_storage1 l)
    (m_storage2 l) (m_nrOfDubs l) (m_maxUsedDubs l) (m_dubs l).
Definition with_threshold (v : F32.t) (l : Looper) : Looper :=
  mkLooper (m_state l) v (m_dryAmount l) (m_currentLoopIndex l)
    (m_loopLength l) (m_storageSize l) (m_nrOfUsedSamples l) (m_storage1 l)
    (m_storage2 l) (m_nrOfDubs l) (m_maxUsedDubs l) (m_dubs l).
Definition with_dryAmount (v : F32.t) (l : Looper) : Looper :=
  mkLooper (m_state l) (m_threshold l) v (m_currentLoopIndex l)
    (m_loopLength l) (m_storageSize l) (m_nrOfUsedSamples l) (m_storage1 l)
    (m_storage2 l) (m_nrOfDubs l) (m_maxUsedDubs l) (m_dubs l).
Definition with_currentLoopIndex (v : Z) (l : Looper) : Looper :=
  mkLooper (m_state l) (m_threshold l) (m_dryAmount l) v
    (m_loopLength l) (m_storageSize l) (m_nrOfUsedSamples l) (m_storage1 l)
    (m_storage2 l) (m_nrOfDubs l) (m_maxUsedDubs l) (m_dubs l).
Definition with_loopLength (v : Z) (l : Looper) : Looper :=
  mkLooper (m_state l) (m_threshold l) (m_dryAmount l) (m_currentLoopIndex l)
    v (m_storageSize l) (m_nrOfUsedSamples l) (m_storage1 l)
    (m_storage2 l) (m_nrOfDubs l) (m_maxUsedDubs l) (m_dubs l).
Definition with_nrOfUsedSamples (v : Z) (l : Looper) : Looper :=
  mkLooper (m_state l) (m_threshold l) (m_dryAmount l) (m_currentLoopIndex l)
    (m_loopLength l) (m_storageSize l) v (m_storage1 l)
    (m_storage2 l) (m_nrOfDubs l) (m_maxUsedDubs l) (m_dubs l).
Definition with_storage1 (v : gmap Z F32.t) (l : Looper) : Looper :=
  mkLooper (m_state l) (m_threshold l) (m_dryAmount l) (m_currentLoopIndex l)
    (m_loopLength l) (m_storageSize l) (m_nrOfUsedSamples l) v
    (m_storage2 l) (m_nrOfDubs l) (m_maxUsedDubs l) (m_dubs l).
Definition with_storage2 (v : gmap Z F32.t) (l : Looper) : Looper :=
  mkLooper (m_state l) (m_threshold l) (m_dryAmount l) (m_currentLoopIndex l)
    (m_loopLength l) (m_storageSize l) (m_nrOfUsedSamples l) (m_storage1 l)
    v (m_nrOfDubs l) (m_maxUsedDubs l) (m_dubs l).
Definition with_nrOfDubs (v : Z) (l : Looper) : Looper :=
  mkLooper (m_state l) (m_threshold l) (m_dryAmount l) (m_currentLoopIndex l)
    (m_loopLength l) (m_storageSize l) (m_nrOfUsedSamples l) (m_storage1 l)
    (m_storage2 l) v (m_maxUsedDubs l) (m_dubs l).
Definition with_maxUsedDubs (v : Z) (l : Looper) : Looper :=
  mkLooper (m_state l) (m_threshold l) (m_dryAmount l) (m_currentLoopIndex l)
    (m_loopLength l) (m_storageSize l) (m_nrOfUsedSamples l) (m_storage1 l)
    (m_storage2 l) (m_nrOfDubs l) v (m_dubs l).
Definition with_dubs (v : gmap Z Dub) (l : Looper) : Looper :=
  mkLooper (m_state l) (m_threshold l) (m_dryAmount l) (m_currentLoopIndex l)
    (m_loopLength l) (m_storageSize l) (m_nrOfUsedSamples l) (m_storage1 l)
    (m_storage2 l) (m_nrOfDubs l) (m_maxUsedDubs l) v.

(** ** Faults: the undefined behaviour of the C++ code *)

Inductive Fault :=
| DubIndexOutOfRange (i : Z)
| StorageIndexOutOfRange (i : Z).

Inductive result (A : Type) :=
| Ok (a : A)
| Err (f : Fault).
Arguments Ok {A} a.
Arguments Err {A} f.

#[global] Instance result_ret : MRet result := @Ok.
#[global] Instance result_bind : MBind result :=
  λ A B k m, match m with Ok a => k a | Err f => Err f end.

Definition is_Ok {A} (r : result A) : Prop := ∃ a, r = Ok a.

(** ** Array accesses *)

(** The content of slot [i] of [m_dubs] and of cell [i] of an arena. *)
Definition slot (i : Z) (l : Looper) : Dub :=
  default Dub_default (m_dubs l !! i).
Definition cell (st : gmap Z F32.t) (i : Z) : F32.t :=
  default F32.zero (st !! i).

(** [m_dubs[i]]: forming the reference is in range only below [NR_OF_DUBS]. *)
Definition dub_at (l : Looper) (i : Z) : result Dub :=
  if (0 <=? i) && (i <? NR_OF_DUBS)
  then Ok (slot i l)
  else Err (DubIndexOutOfRange i).

Definition set_dub (i : Z) (d : Dub) (l : Looper) : Looper :=
  with_dubs (<[i := d]> (m_dubs l)) l.

(** [storage[i]] read. *)
Definition load (size : Z) (st : gmap Z F32.t) (i : Z) : result F32.t :=
  if (0 <=? i) && (i <? size)
  then Ok (cell st i)
  else Err (StorageIndexOutOfRange i).

(** [storage[i] = v]. *)
Definition store (size : Z) (st : gmap Z F32.t) (i : Z) (v : F32.t)
  : result (gmap Z F32.t) :=
  if (0 <=? i) && (i <? size)
  then Ok (<[i := v]> st)
  else Err (StorageIndexOutOfRange i).

(** [m_storage1[i] *= factor] and [m_storage2[i] *= factor]. *)
Definition scale1 (i : Z) (factor : F32.t) (l : Looper) : result Looper :=
  v ← load (m_storageSize l) (m_storage1 l) i;
  st ← store (m_storageSize l) (m_storage1 l) i (F32.mul v factor);
  Ok (with_storage1 st l).
Definition scale2 (i : Z) (factor : F32.t) (l : Looper) : result Looper :=
  v ← load (m_storageSize l) (m_storage2 l) i;
  st ← store (m_storageSize l) (m_storage2 l) i (F32.mul v factor);
  Ok (with_storage2 st l).

(** ** The constructor *)

(** [Looper::Looper(double sampleRate)]: the arena size is computed in
    [double] and converted to [size_t]. *)
Definition storageSize_of (sampleRate : F64.t) : Z :=
  F64.to_size_t
    (F64.mul (F64.mul sampleRate (F64.of_Z STORAGE_MEMORY_SECONDS)) (F64.of_Z 2)).

Definition Looper_new (sampleRate : F64.t) : Looper :=
  {| m_state := LOOPER_STATE_INACTIVE;
     m_threshold := F32.zero;
     m_dryAmount := F32.one;
     m_currentLoopIndex := 0;
     m_loopLength := 0;
     m_storageSize := storageSize_of sampleRate;
     m_nrOfUsedSamples := 0;
     m_storage1 := ∅;
     m_storage2 := ∅;
     m_nrOfDubs := 0;
     m_maxUsedDubs := 0;
     m_dubs := ∅ |}.

(** ** Commands *)

(** [Looper::reset]. *)
Definition reset (l : Looper) : Looper :=
  with_nrOfUsedSamples 0
    (with_loopLength 0
      (with_currentLoopIndex 0
        (with_state LOOPER_STATE_INACTIVE
          (with_nrOfUsedSamples 0
            (with_maxUsedDubs 0
              (with_nrOfDubs 0 l)))))).

(** [Looper::startRecording]. *)
Definition startRecording (l : Looper) : result Looper :=
  if NR_OF_DUBS <=? m_nrOfDubs l then Ok l
  else if m_storageSize l <=? m_nrOfUsedSamples l then Ok l
  else
    dub ← dub_at l (m_nrOfDubs l);
    let dub := mkDub (m_nrOfUsedSamples l) 0 (m_startIndex dub) in
    Ok (with_state LOOPER_STATE_WAITING_FOR_THRESHOLD
          (set_dub (m_nrOfDubs l) dub l)).

(** The fade loop of [finishRecording]: [fuel] counts the iterations left,
    [s] is the loop counter. *)
Fixpoint blend (length : Z) (fuel : nat) (s startIndex endIndex : Z)
    (l : Looper) : result Looper :=
  match fuel with
  | O => Ok l
  | S fuel =>
      let factor := F32.div (F32.of_Z s) (F32.of_Z length) in
      l ← scale1 startIndex factor l;
      l ← scale2 startIndex factor l;
      let startIndex := wrap (startIndex + 1) in
      l ← scale1 endIndex factor l;
      l ← scale2 endIndex factor l;
      let endIndex := wrap (endIndex - 1) in
      blend length fuel (wrap (s + 1)) startIndex endIndex l
  end.

(** [Looper::finishRecording]. *)
Definition finishRecording (l : Looper) : result Looper :=
  if state_eqb (m_state l) LOOPER_STATE_WAITING_FOR_THRESHOLD then
    if m_nrOfDubs l =? 0
    then Ok (with_state LOOPER_STATE_INACTIVE l)
    else Ok (with_state LOOPER_STATE_PLAYING l)
  else
    let l := with_state LOOPER_STATE_PLAYING l in
    dub ← dub_at l (m_nrOfDubs l);
    let l :=
      if m_nrOfDubs l =? 0
      then with_currentLoopIndex 0 (with_loopLength (m_length dub) l)
      else l in
    let length :=
      if NR_OF_BLEND_SAMPLES <? m_length dub
      then NR_OF_BLEND_SAMPLES else m_length dub in
    let startIndex := m_storageOffset dub in
    let endIndex := wrap (m_storageOffset dub + m_length dub - 1) in
    l ← blend length (Z.to_nat length) 0 startIndex endIndex l;
    let l := with_nrOfDubs (wrap (m_nrOfDubs l + 1)) l in
    Ok (with_maxUsedDubs (m_nrOfDubs l) l).

(** The part of [Looper::undo] after the optional finish. *)
Definition undo_core (l : Looper) : result Looper :=
  if m_nrOfDubs l =? 0 then Ok l
  else
    let l := with_nrOfDubs (wrap (m_nrOfDubs l - 1)) l in
    dub ← dub_at l (m_nrOfDubs l);
    let l := with_nrOfUsedSamples (m_storageOffset dub) l in
    if m_nrOfDubs l =? 0
    then Ok (with_currentLoopIndex 0 (with_loopLength 0 l))
    else Ok l.

(** [Looper::undo]. *)
Definition undo (l : Looper) : result Looper :=
  l ← (if state_eqb (m_state l) LOOPER_STATE_RECORDING
       then finishRecording l else Ok l);
  undo_core l.

(** [Looper::redo]. *)
Definition redo (l : Looper) : result Looper :=
  if state_eqb (m_state l) LOOPER_STATE_RECORDING then Ok l
  else if m_nrOfDubs l =? m_maxUsedDubs l then Ok l
  else
    dub ← dub_at l (m_nrOfDubs l);
    let l :=
      with_nrOfUsedSamples (wrap (m_storageOffset dub + m_length dub)) l in
    let l :=
      if m_nrOfDubs l =? 0
      then with_loopLength (m_length dub) (with_currentLoopIndex 0 l)
      else l in
    Ok (with_nrOfDubs (wrap (m_nrOfDubs l + 1)) l).

(** ** Button callbacks

    The lambdas installed by [connectPort], called with [pressed = true]
    (with [pressed = false] each of them returns at once). *)

Definition recording_or_waiting (l : Looper) : bool :=
  state_eqb (m_state l) LOOPER_STATE_RECORDING
  || state_eqb (m_state l) LOOPER_STATE_WAITING_FOR_THRESHOLD.

Definition onActivate (doubleClick : bool) (l : Looper) : result Looper :=
  if doubleClick then Ok (reset l)
  else if recording_or_waiting l then finishRecording l
  else startRecording l.

Definition onReset (doubleClick : bool) (l : Looper) : result Looper :=
  if doubleClick then Ok (reset l)
  else if recording_or_waiting l then finishRecording l
  else undo l.

Definition onUndo (l : Looper) : result Looper := undo l.

Definition onRedo (l : Looper) : result Looper := redo l.

Definition onDub (doubleClick : bool) (l : Looper) : result Looper :=
  if doubleClick then Ok (reset l)
  else
    l ← (if recording_or_waiting l then finishRecording l else Ok l);
    startRecording l.

(** The presses seen by one [run] call: [Some doubleClick] when the button
    callback fires with [pressed = true]. *)
Record Buttons := mkButtons {
  b_activate : option bool;
  b_reset : option bool;
  b_undo : bool;
  b_redo : bool;
  b_dub : option bool
}.

Definition no_buttons : Buttons := mkButtons None None false false None.

Definition when_pressed (b : option bool)
    (k : bool -> Looper -> result Looper) (l : Looper) : result Looper :=
  match b with Some dc => k dc l | None => Ok l end.

Definition when_set (b : bool) (k : Looper -> result Looper) (l : Looper)
  : result Looper :=
  if b then k l else Ok l.

Definition sample : Type := F32.t * F32.t.

Section Engine.

(** libm's [powf]. *)
Variable powf : F32.t -> F32.t -> F32.t.

(** [dbToFloat]. *)
Definition dbToFloat (db : F32.t) : F32.t :=
  if F32.leb db (SFopp (F32.of_Z 90)) then F32.zero
  else powf (F32.of_Z 10) (F32.mul db (F32.div (F32.of_Z 1) (F32.of_Z 20))).

(** [Looper::updateParameters]. *)
Definition updateParameters (thresholdParameter dryAmountParameter : F32.t)
    (b : Buttons) (l : Looper) : result Looper :=
  let l := with_threshold (dbToFloat thresholdParameter) l in
  let l := with_dryAmount dryAmountParameter l in
  l ← when_pressed (b_activate b) onActivate l;
  l ← when_pressed (b_reset b) onReset l;
  l ← when_set (b_undo b) onUndo l;
  l ← when_set (b_redo b) onRedo l;
  when_pressed (b_dub b) onDub l.

(** *** The body of the sample loop of [Looper::run] *)

(** Lines 328-334: has the threshold been reached? *)
Definition threshold_reached (in1 in2 : F32.t) (l : Looper) : bool :=
  state_eqb (m_state l) LOOPER_STATE_WAITING_FOR_THRESHOLD
  && (F32.geb (F32.abs in1) (m_threshold l)
      || F32.geb (F32.abs in2) (m_threshold l)).

Definition check_threshold (in1 in2 : F32.t) (l : Looper) : result Looper :=
  if threshold_reached in1 in2 l then
    dub ← dub_at l (m_nrOfDubs l);
    let dub :=
      mkDub (m_storageOffset dub) (m_length dub) (m_currentLoopIndex l) in
    Ok (with_state LOOPER_STATE_RECORDING (set_dub (m_nrOfDubs l) dub l))
  else Ok l.

(** Lines 336-344: record the sample. *)
Definition record (in1 in2 : F32.t) (l : Looper) : result Looper :=
  if state_eqb (m_state l) LOOPER_STATE_RECORDING then
    st1 ← store (m_storageSize l) (m_storage1 l) (m_nrOfUsedSamples l) in1;
    let l := with_storage1 st1 l in
    st2 ← store (m_storageSize l) (m_storage2 l) (m_nrOfUsedSamples l) in2;
    let l := with_storage2 st2 l in
    let l := with_nrOfUsedSamples (wrap (m_nrOfUsedSamples l + 1)) l in
    dub ← dub_at l (m_nrOfDubs l);
    let dub :=
      mkDub (m_storageOffset dub) (wrap (m_length dub + 1)) (m_startIndex dub) in
    Ok (set_dub (m_nrOfDubs l) dub l)
  else Ok l.

(** Lines 349-359: the playback loop over the active dubs; [fuel] counts
    the iterations left, [t] is the loop counter. *)
Fixpoint mix (fuel : nat) (t : Z) (l : Looper) (out : sample)
  : result sample :=
  match fuel with
  | O => Ok out
  | S fuel =>
      dub ← dub_at l t;
      if m_currentLoopIndex l <? m_startIndex dub
      then mix fuel (wrap (t + 1)) l out
      else if wrap (m_startIndex dub + m_length dub) <=? m_currentLoopIndex l
      then mix fuel (wrap (t + 1)) l out
      else
        let index :=
          wrap (m_storageOffset dub
                + wrap (m_currentLoopIndex l - m_startIndex dub)) in
        a ← load (m_storageSize l) (m_storage1 l) index;
        b ← load (m_storageSize l) (m_storage2 l) index;
        mix fuel (wrap (t + 1)) l (F32.add (fst out) a, F32.add (snd out) b)
  end.

(** Lines 347-363: the output sample. *)
Definition playback (in1 in2 : F32.t) (l : Looper) : result sample :=
  mix (Z.to_nat (m_nrOfDubs l)) 0 l
    (F32.mul (m_dryAmount l) in1, F32.mul (m_dryAmount l) in2).

(** Lines 365-393: advance the loop index and wrap at the end. *)
Definition advance (l : Looper) : result Looper :=
  let l :=
    if 0 <? m_nrOfDubs l
    then with_currentLoopIndex (wrap (m_currentLoopIndex l + 1)) l
    else l in
  if (m_loopLength l <? m_currentLoopIndex l)
     || (m_storageSize l <=? m_nrOfUsedSamples l)
  then
    let l := with_currentLoopIndex 0 l in
    if state_eqb (m_state l) LOOPER_STATE_RECORDING then
      l ← finishRecording l;
      if 1 <? m_nrOfDubs l then startRecording l else Ok l
    else Ok l
  else Ok l.

Definition run_sample (x : sample) (l : Looper) : result (Looper * sample) :=
  l ← check_threshold (fst x) (snd x) l;
  l ← record (fst x) (snd x) l;
  out ← playback (fst x) (snd x) l;
  l ← advance l;
  Ok (l, out).

Fixpoint run_samples (input : list sample) (l : Looper)
  : result (Looper * list sample) :=
  match input with
  | [] => Ok (l, [])
  | x :: input =>
      '(l, out) ← run_sample x l;
      '(l, outs) ← run_samples input l;
      Ok (l, out :: outs)
  end.

(** [Looper::run]: the block carries the two parameter ports, the presses
    and the input samples; it returns the new state and the output
    block. *)
Definition run (thresholdParameter dryAmountParameter : F32.t)
    (b : Buttons) (input : list sample) (l : Looper)
  : result (Looper * list sample) :=
  l ← updateParameters thresholdParameter dryAmountParameter b l;
  if state_eqb (m_state l) LOOPER_STATE_INACTIVE
  then Ok (l, map (λ x, (F32.mul (m_dryAmount l) (fst x),
                          F32.mul (m_dryAmount l) (snd x))) input)
  else run_samples input l.

End Engine.

(** ** Primitive operations and reachable states *)

(** What the engine does between two observations: one button callback or
    one iteration of the sample loop. *)
Inductive Op :=
| OpActivate (doubleClick : bool)
| OpReset (doubleClick : bool)
| OpUndo
| OpRedo
| OpDub (doubleClick : bool)
| OpSample (x : sample).

Definition apply_op (op : Op) (l : Looper) : result Looper :=
  match op with
  | OpActivate dc => onActivate dc l
  | OpReset dc => onReset dc l
  | OpUndo => onUndo l
  | OpRedo => onRedo l
  | OpDub dc => onDub dc l
  | OpSample x => '(l, _) ← run_sample x l; Ok l
  end.

(** The states the host can observe: those a freshly constructed engine
    reaches through [run] calls that stay within the arrays. *)
Inductive reachable (powf : F32.t -> F32.t -> F32.t) : Looper -> Prop :=
| reachable_new (sampleRate : F64.t) : reachable powf (Looper_new sampleRate)
| reachable_run (l l' : Looper) (thr dry : F32.t) (b : Buttons)
    (input out : list sample) :
    reachable powf l ->
    run powf thr dry b input l = Ok (l', out) ->
    reachable powf l'.

(** Everything in the state but the audio arena. *)
Definition control (l : Looper) :=
  (m_state l, m_threshold l, m_dryAmount l, m_currentLoopIndex l,
   m_loopLength l, m_storageSize l, m_nrOfUsedSamples l, m_nrOfDubs l,
   m_maxUsedDubs l, m_dubs l).

(** The ledger counters are in range and, once a dub is active, the loop
    length is the length of the first dub. *)
Definition loop_length_inv (l : Looper) : Prop :=
  0 <= m_nrOfDubs l <= NR_OF_DUBS
  ∧ (1 <= m_nrOfDubs l -> m_loopLength l = m_length (slot 0 l)).

(** The loop index lies between 0 and the loop length, both included, and
    no slot has a negative length. *)
Definition loop_index_inv (l : Looper) : Prop :=
  0 <= m_currentLoopIndex l <= m_loopLength l
  ∧ ∀ i, 0 <= m_length (slot i l).

(** The active count never exceeds the redo horizon. *)
Definition redo_horizon_inv (l : Looper) : Prop :=
  m_nrOfDubs l <= m_maxUsedDubs l.

(** [keeps_loop l l']: with a dub active in [l], the loop length is the
    same in [l'] and a dub is still active. *)
Definition keeps_loop (l l' : Looper) : Prop :=
  1 <= m_nrOfDubs l ->
  m_loopLength l' = m_loopLength l ∧ 1 <= m_nrOfDubs l'.

(** [keeps_or_clears l l']: the loop length is the same, or the last dub
    went away and the loop length is 0. *)
Definition keeps_or_clears (l l' : Looper) : Prop :=
  1 <= m_nrOfDubs l ->
  m_loopLength l' = m_loopLength l
  ∨ (m_nrOfDubs l' = 0 ∧ m_loopLength l' = 0).

(** The operations that run [undo]: the Undo press, and the single Reset
    press outside a take. *)
Definition calls_undo (op : Op) (l : Looper) : bool :=
  match op with
  | OpUndo => true
  | OpReset false => negb (recording_or_waiting l)
  | _ => false
  end.

(** The active dubs lie inside the arena: the condition under which the
    playback loop stays in range. *)
Definition dubs_in_arena (l : Looper) : Prop :=
  0 <= m_nrOfDubs l <= NR_OF_DUBS
  ∧ m_storageSize l <= 2 ^ SIZE_BITS
  ∧ ∀ t, 0 <= t < m_nrOfDubs l ->
      0 <= m_startIndex (slot t l)
      ∧ 0 <= m_length (slot t l)
      ∧ m_startIndex (slot t l) + m_length (slot t l) < 2 ^ SIZE_BITS
      ∧ 0 <= m_storageOffset (slot t l)
      ∧ m_storageOffset (slot t l) + m_length (slot t l) <= m_storageSize l.

(** The spec's [max(|in_left|, |in_right|)]. *)
Definition peak_spec (x : sample) : F32.t :=
  F32.fmaxf (F32.abs (fst x)) (F32.abs (snd x)).

(** A block whose peak stays strictly below the threshold. *)
Definition below_threshold (thr : F32.t) (input : list sample) : Prop :=
  Forall (λ x, F32.ltb (peak_spec x) thr = true) input.

(** A sample that is NaN on both channels. *)
Definition nan_sample (x : sample) : bool :=
  F32.is_nan (fst x) && F32.is_nan (snd x).

(** A block none of whose samples can meet the threshold: every peak is
    strictly below it, or the sample is NaN on both channels. *)
Definition below_or_nan (thr : F32.t) (input : list sample) : Prop :=
  Forall (λ x, F32.ltb (peak_spec x) thr = true ∨ nan_sample x = true) input.

(** The presses that reset the engine: a double click on Activate, Reset
    or Dub. *)
Definition double_click (op : Op) : bool :=
  match op with
  | OpActivate dc | OpReset dc | OpDub dc => dc
  | _ => false
  end.

(** ** Scenarios *)

(** A stand-in for [powf] in the scenarios: they keep the threshold port at
    -90 dB, where [dbToFloat] does not call it. *)
Definition powf_unused : F32.t -> F32.t -> F32.t := λ _ _, F32.nan.

Definition floor_dB : F32.t := SFopp (F32.of_Z 90).
Definition rate48k : F64.t := F64.of_Z 48000.

Definition press_activate : Buttons := mkButtons (Some false) None false false None.
Definition press_undo : Buttons := mkButtons None None true false None.
Definition press_redo : Buttons := mkButtons None None false true None.
Definition press_dub : Buttons := mkButtons None None false false (Some false).
Definition press_activate_undo : Buttons :=
  mkButtons (Some false) None true false None.
Definition press_activate_redo : Buttons :=
  mkButtons (Some false) None false true None.
Definition press_undo_redo : Buttons := mkButtons None None true true None.

Definition ones : sample := (F32.one, F32.one).
Definition nans : sample := (F32.nan, F32.nan).

Definition block : Type := Buttons * list sample.

(** Consecutive [run] calls with the parameter ports held fixed. *)
Fixpoint run_blocks (powf : F32.t -> F32.t -> F32.t) (thr dry : F32.t)
    (bs : list block) (l : Looper) : result (Looper * list (list sample)) :=
  match bs with
  | [] => Ok (l, [])
  | b :: bs =>
      '(l, out) ← run powf thr dry (fst b) (snd b) l;
      '(l, outs) ← run_blocks powf thr dry bs l;
      Ok (l, out :: outs)
  end.

(** [run] calls without a button press whose blocks cannot meet the
    threshold [thr]. *)
Definition quiet_calls (thr : F32.t) (bs : list block) : Prop :=
  Forall (λ b, fst b = no_buttons ∧ below_or_nan thr (snd b)) bs.

(** The engine at the floor threshold with the dry signal muted. *)
Definition play (bs : list block) : result (Looper * list (list sample)) :=
  run_blocks powf_unused floor_dB F32.zero bs (Looper_new rate48k).

Definition final {A} (r : result (Looper * A)) : option Looper :=
  match r with Ok (l, _) => Some l | Err _ => None end.

Definition fault {A} (r : result A) : option Fault :=
  match r with Ok _ => None | Err f => Some f end.

(** The state a scenario ends in (the fresh engine if it faults). *)
Definition state_after (bs : list block) : Looper :=
  default (Looper_new rate48k) (final (play bs)).

Definition recording_take : Looper :=
  state_after [(press_activate, [ones; ones])].
Definition finished_take : Looper :=
  state_after [(press_activate, [ones; ones]); (press_activate, [])].
Definition waiting_first : Looper := state_after [(press_activate, [])].

(** A first take of two samples, stopped, then two samples of playback. *)
Definition take_two_samples : list block :=
  [(press_activate, [ones; ones]); (press_activate, [ones; ones])].

(** A take of 128 samples of value 1.0, then stopped. *)
Definition take_128_samples : list block :=
  [(press_activate, repeat ones 128); (press_activate, [])].

Definition quarter : F32.t := F32.div F32.one (F32.of_Z 4).
Definition half : F32.t := F32.div F32.one (F32.of_Z 2).

(** A take; a second Start undone in the same block while it waits; one
    sample recorded; Stop. *)
Definition stale_slot_take : list block :=
  [(press_activate, [ones; ones]); (press_activate, []);
   (press_activate_undo, [ones]); (press_activate, [])].

(** A take of two samples, stopped and undone. *)
Definition take_then_undo : list block :=
  [(press_activate, [ones; ones]); (press_activate, []); (press_undo, [])].

(** 129 Dub presses, each followed by one sample. *)
Definition fill_ledger : list block := repeat (press_dub, [ones]) 129.

Definition full_ledger : Looper := state_after fill_ledger.


(** ** Further notions used by the properties of the engine *)

(** The counters of the ledger are ordered: active count, redo horizon,
    capacity. *)
Definition ledger_counters_inv (l : Looper) : Prop :=
  0 <= m_nrOfDubs l <= m_maxUsedDubs l ∧ m_maxUsedDubs l <= NR_OF_DUBS.

(** With no active dub there is no loop. *)
Definition empty_ledger_inv (l : Looper) : Prop :=
  m_nrOfDubs l = 0 -> m_loopLength l = 0 ∧ m_currentLoopIndex l = 0.

(** The window test of the playback loop (lines 352-355). *)
Definition in_window (idx : Z) (d : Dub) : bool :=
  (m_startIndex d <=? idx) && (idx <? m_startIndex d + m_length d).

(** The active dubs, in slot order. *)
Definition active_dubs (l : Looper) : list Dub :=
  map (λ t, slot t l) (seqZ 0 (m_nrOfDubs l)).

(** What one dub adds to the output at the current loop index. *)
Definition add_dub (l : Looper) (out : sample) (d : Dub) : sample :=
  let i := m_storageOffset d + (m_currentLoopIndex l - m_startIndex d) in
  (F32.add (fst out) (cell (m_storage1 l) i),
   F32.add (snd out) (cell (m_storage2 l) i)).

(** The dry signal plus, in slot order, the stored sample of every active
    dub whose window holds the loop index. *)
Definition playback_sum (in1 in2 : F32.t) (l : Looper) : sample :=
  foldl (add_dub l)
    (F32.mul (m_dryAmount l) in1, F32.mul (m_dryAmount l) in2)
    (List.filter (in_window (m_currentLoopIndex l)) (active_dubs l)).

(** The dry signal alone. *)
Definition dry_signal (dry : F32.t) (x : sample) : sample :=
  (F32.mul dry (fst x), F32.mul dry (snd x)).

(** The dub in slot [m_nrOfDubs]: the one being recorded, or the one Redo
    would bring back. *)
Definition next_slot (l : Looper) : Dub := slot (m_nrOfDubs l) l.

(** The dub in slot [m_nrOfDubs - 1]: the most recently activated one. *)
Definition top_slot (l : Looper) : Dub := slot (m_nrOfDubs l - 1) l.

(** The take in slot [m_nrOfDubs] lies inside the arena. *)
Definition take_in_arena (l : Looper) : Prop :=
  0 <= m_nrOfDubs l < NR_OF_DUBS
  ∧ m_storageSize l < 2 ^ SIZE_BITS
  ∧ 0 <= m_storageOffset (next_slot l)
  ∧ 0 <= m_length (next_slot l)
  ∧ m_storageOffset (next_slot l) + m_length (next_slot l) <= m_storageSize l.

(** The ramp factor of step [s] of a fade over [n] samples. *)
Definition fade_factor (s n : Z) : F32.t := F32.div (F32.of_Z s) (F32.of_Z n).

(** The number of samples faded at each end of a take of length [len]. *)
Definition fade_span (len : Z) : Z := Z.min len NR_OF_BLEND_SAMPLES.

(** The loop index after [k] recorded samples: it only moves once a dub is
    active. *)
Definition index_after (l : Looper) (k : Z) : Z :=
  if 0 <? m_nrOfDubs l then m_currentLoopIndex l + k else m_currentLoopIndex l.

(** Room for [k] more samples of the current take: in the arena, and before
    the end of the loop. *)
Definition room_to_record (l : Looper) (k : Z) : Prop :=
  m_state l = LOOPER_STATE_RECORDING
  ∧ dubs_in_arena l
  ∧ m_nrOfDubs l < NR_OF_DUBS
  ∧ 0 <= m_nrOfUsedSamples l
  ∧ m_nrOfUsedSamples l + k < m_storageSize l
  ∧ 0 <= m_length (next_slot l)
  ∧ m_length (next_slot l) + k < 2 ^ SIZE_BITS
  ∧ 0 <= m_currentLoopIndex l
  ∧ index_after l k <= m_loopLength l
  ∧ m_loopLength l < 2 ^ SIZE_BITS.

(** ** The buttons and the clock

    [class MomentaryButton] and the members of [Looper] left out above:
    the five buttons, [m_now] and [m_sampleRate]. *)

Definition f64_zero : F64.t := S754_zero false.
Definition f64_one : F64.t := Eval cbv in SFone F64.prec F64.emax.
Definition f64_add : F64.t -> F64.t -> F64.t := SFadd F64.prec F64.emax.
Definition f64_sub : F64.t -> F64.t -> F64.t := SFsub F64.prec F64.emax.
Definition f64_div : F64.t -> F64.t -> F64.t := SFdiv F64.prec F64.emax.
Definition f64_ltb (a b : F64.t) : bool := SFltb a b.

(** Conversion of a [double] to [uint32_t]: truncation toward zero (the
    model wraps a finite value and sends the rest to 0, as for [size_t]). *)
Definition f64_to_uint32 (x : F64.t) : Z :=
  match x with
  | S754_finite false m e =>
      (if 0 <=? e then Zpos m * 2 ^ e else Zpos m / 2 ^ (- e)) mod 2 ^ 32
  | _ => 0
  end.

Record MomentaryButton := mkMomentaryButton {
  m_lastState : bool;
  m_lastChangeTime : F64.t;
  m_lastClickTime : F64.t
}.

Definition MomentaryButton_new : MomentaryButton :=
  mkMomentaryButton false f64_zero f64_zero.

(** [std::function<void (bool, double, bool)>], acting on the engine:
    pressed, interval since the last change, double click. *)
Definition Callback : Type := bool -> F64.t -> bool -> Looper -> result Looper.

(** [*m_input > 0.0f]. *)
Definition port_high (v : F32.t) : bool := F32.ltb F32.zero v.

(** [MomentaryButton::run].  [input] is the value at the port the button is
    connected to, [None] when [m_input] is [NULL]. *)
Definition MomentaryButton_run (input : option F32.t) (callback : Callback)
    (now : F64.t) (bt : MomentaryButton) (l : Looper)
  : result (MomentaryButton * Looper) :=
  match input with
  | None => Ok (bt, l)
  | Some v =>
      let state := port_high v in
      if Bool.eqb state (m_lastState bt) then Ok (bt, l)
      else
        let doubleClick :=
          state && f64_ltb (f64_sub now (m_lastClickTime bt)) f64_one in
        let lastClickTime := if state then now else m_lastClickTime bt in
        l ← callback state (f64_sub now (m_lastChangeTime bt)) doubleClick l;
        Ok (mkMomentaryButton state now lastClickTime, l)
  end.

(** The lambdas of [connectPort], with their [pressed] test. *)
Definition activateCallback : Callback :=
  λ pressed _ doubleClick l,
    if negb pressed then Ok l else onActivate doubleClick l.
Definition resetCallback : Callback :=
  λ pressed _ doubleClick l,
    if negb pressed then Ok l else onReset doubleClick l.
Definition undoCallback : Callback :=
  λ pressed _ _ l, if negb pressed then Ok l else onUndo l.
Definition redoCallback : Callback :=
  λ pressed _ _ l, if negb pressed then Ok l else onRedo l.
Definition dubCallback : Callback :=
  λ pressed _ doubleClick l,
    if negb pressed then Ok l else onDub doubleClick l.

(** The whole object: the engine state, the buttons and the clock. *)
Record Plugin := mkPlugin {
  p_looper : Looper;
  m_activateButton : MomentaryButton;
  m_resetButton : MomentaryButton;
  m_undoButton : MomentaryButton;
  m_redoButton : MomentaryButton;
  m_dubButton : MomentaryButton;
  m_now : F64.t;
  m_sampleRate : Z
}.

(** [Looper::Looper] with all its members. *)
Definition Plugin_new (sampleRate : F64.t) : Plugin :=
  mkPlugin (Looper_new sampleRate) MomentaryButton_new MomentaryButton_new
    MomentaryButton_new MomentaryButton_new MomentaryButton_new f64_zero
    (f64_to_uint32 sampleRate).

(** What the host presents to one [run] call: the two parameter ports, the
    five button ports ([None] when not connected) and the input block. *)
Record Ports := mkPorts {
  port_threshold : F32.t;
  port_dryAmount : F32.t;
  port_activate : option F32.t;
  port_reset : option F32.t;
  port_undo : option F32.t;
  port_redo : option F32.t;
  port_dub : option F32.t;
  port_input : list sample
}.

(** The press a button reports to its callback, if any: [Some doubleClick]
    on a rising edge, nothing on a falling edge or without an edge. *)
Definition press_of (input : option F32.t) (now : F64.t)
    (bt : MomentaryButton) : option bool :=
  match input with
  | None => None
  | Some v =>
      if Bool.eqb (port_high v) (m_lastState bt) then None
      else if port_high v
           then Some (f64_ltb (f64_sub now (m_lastClickTime bt)) f64_one)
           else None
  end.

(** The presses of one [run] call. *)
Definition presses (ports : Ports) (p : Plugin) : Buttons :=
  mkButtons
    (press_of (port_activate ports) (m_now p) (m_activateButton p))
    (press_of (port_reset ports) (m_now p) (m_resetButton p))
    (bool_decide (is_Some (press_of (port_undo ports) (m_now p)
                             (m_undoButton p))))
    (bool_decide (is_Some (press_of (port_redo ports) (m_now p)
                             (m_redoButton p))))
    (press_of (port_dub ports) (m_now p) (m_dubButton p)).

(** Is the button port connected and high? *)
Definition held (input : option F32.t) : bool :=
  match input with Some v => port_high v | None => false end.

Section Plugin.

Variable powf : F32.t -> F32.t -> F32.t.

(** [Looper::updateParameters] with the buttons. *)
Definition Plugin_updateParameters (ports : Ports) (p : Plugin)
  : result Plugin :=
  let l := with_threshold (dbToFloat powf (port_threshold ports)) (p_looper p) in
  let l := with_dryAmount (port_dryAmount ports) l in
  '(ba, l) ← MomentaryButton_run (port_activate ports) activateCallback
              (m_now p) (m_activateButton p) l;
  '(br, l) ← MomentaryButton_run (port_reset ports) resetCallback
              (m_now p) (m_resetButton p) l;
  '(bu, l) ← MomentaryButton_run (port_undo ports) undoCallback
              (m_now p) (m_undoButton p) l;
  '(bd, l) ← MomentaryButton_run (port_redo ports) redoCallback
              (m_now p) (m_redoButton p) l;
  '(bb, l) ← MomentaryButton_run (port_dub ports) dubCallback
              (m_now p) (m_dubButton p) l;
  Ok (mkPlugin l ba br bu bd bb (m_now p) (m_sampleRate p)).

(** [Looper::run] with the buttons and the clock; [nrOfSamples] is the
    length of the input block. *)
Definition Plugin_run (ports : Ports) (p : Plugin)
  : result (Plugin * list sample) :=
  p ← Plugin_updateParameters ports p;
  let now :=
    f64_add (m_now p)
      (f64_div (F64.of_Z (Z.of_nat (length (port_input ports))))
         (F64.of_Z (m_sampleRate p))) in
  let p :=
    mkPlugin (p_looper p) (m_activateButton p) (m_resetButton p)
      (m_undoButton p) (m_redoButton p) (m_dubButton p) now
      (m_sampleRate p) in
  if state_eqb (m_state (p_looper p)) LOOPER_STATE_INACTIVE
  then Ok (p, map (dry_signal (m_dryAmount (p_looper p))) (port_input ports))
  else
    '(l, out) ← run_samples (port_input ports) (p_looper p);
    Ok (mkPlugin l (m_activateButton p) (m_resetButton p) (m_undoButton p)
          (m_redoButton p) (m_dubButton p) (m_now p) (m_sampleRate p), out).

End Plugin.

(** The engine's share of the result of [Plugin_run]. *)
Definition engine_view (r : result (Plugin * list sample))
  : result (Looper * list sample) :=
  match r with
  | Ok (p, out) => Ok (p_looper p, out)
  | Err f => Err f
  end.

(** The engine's share of the result of one button. *)
Definition result_snd {A B : Type} (r : result (A * B)) : result B :=
  match r with Ok (_, b) => Ok b | Err f => Err f end.

(** ** Further scenarios *)

(** A first take of two samples, stopped and undone. *)
Definition undone_take : Looper := state_after take_then_undo.


(** A take of 128 samples that is still being recorded. *)
Definition long_take : Looper :=
  state_after [(press_activate, repeat ones 128)].

(** An engine at a sample rate of 1 Hz: its arena holds 720 samples per
    channel. *)
Definition rate1 : F64.t := F64.of_Z 1.

Definition small_state_after (bs : list block) : Looper :=
  default (Looper_new rate1)
    (final (run_blocks powf_unused floor_dB F32.zero bs (Looper_new rate1))).

(** A take one sample short of the end of the small arena. *)
Definition nearly_full_take : Looper :=
  small_state_after [(press_activate, repeat ones 719)].

(** A take that has filled the small arena. *)
Definition exhausted_arena : Looper :=
  small_state_after [(press_activate, repeat ones 720)].

(** The host's ports with every button low, for one second of audio. *)
Definition idle_second : Ports :=
  mkPorts floor_dB F32.zero (Some F32.zero) (Some F32.zero) (Some F32.zero)
    (Some F32.zero) (Some F32.zero) (repeat ones (Z.to_nat 48000)).

(** The Activate button high, the others low, for two samples. *)
Definition activate_high : Ports :=
  mkPorts floor_dB F32.zero (Some F32.one) (Some F32.zero) (Some F32.zero)
    (Some F32.zero) (Some F32.zero) [ones; ones].

(** The plugin after consecutive [run] calls (a call that faults is
    skipped). *)
Definition plugin_after (calls : list Ports) : Plugin :=
  foldl (λ p ports,
           match Plugin_run powf_unused ports p with
           | Ok (p', _) => p'
           | Err _ => p
           end)
    (Plugin_new rate48k) calls.

(** The value a computation ends with, if it does not fault. *)
Definition value {A} (r : result A) : option A :=
  match r with Ok a => Some a | Err _ => None end.

(** Consecutive [run] calls of the whole object. *)
Fixpoint Plugin_runs (powf : F32.t -> F32.t -> F32.t) (calls : list Ports)
    (p : Plugin) : result Plugin :=
  match calls with
  | [] => Ok p
  | c :: calls => '(p, _) ← Plugin_run powf c p; Plugin_runs powf calls p
  end.

(** A button port: high or low. *)
Definition level (b : bool) : option F32.t :=
  Some (if b then F32.one else F32.zero).

(** One call with the threshold at -90 dB, the dry signal muted and the
    given buttons (Activate, Reset, Undo, Redo, Dub) high. *)
Definition call (a r u d b : bool) (input : list sample) : Ports :=
  mkPorts floor_dB F32.zero (level a) (level r) (level u) (level d)
    (level b) input.

(** One idle second; a first take of two samples started with Activate
    and stopped with Reset. *)
Definition first_take_calls : list Ports :=
  [idle_second;
   call true false false false false [ones; ones];
   call false true false false false []].

(** The same, then Undo, then a Start with Dub, then Redo: one button per
    call, each pressed once. *)
Definition redo_after_start_calls : list Ports :=
  first_take_calls
  ++ [call false false true false false [];
      call false false false false true [];
      call false false false true false []].

Definition press_reset : Buttons :=
  mkButtons None (Some false) false false None.

(** The engine waiting for an overdub, with the threshold at 0.5: a take
    of two samples started with Activate and stopped with Reset, then a
    Start with Dub. *)
Definition waiting_overdub : Looper :=
  with_threshold half
    (state_after [(press_activate, [ones; ones]); (press_reset, []);
                  (press_dub, [])]).

(** The same take, with Undo pressed while the overdub waits: the engine
    waits on slot 0, which still has the length of the undone take. *)
Definition waiting_after_undo : Looper :=
  with_threshold half
    (state_after [(press_activate, [ones; ones]); (press_reset, []);
                  (press_dub, []); (press_undo, [])]).

(** * Properties *)

(** ** The error monad *)

Lemma bind_Ok {A B} (m : result A) (k : A -> result B) (b : B) :
  m ≫= k = Ok b ↔ ∃ a, m = Ok a ∧ k a = Ok b.
Proof.
  destruct m as [a|f]; simpl.
  - split; [intros H; by exists a | by intros (a' & [= <-] & H)].
  - split; [discriminate | by intros (a' & [=] & _)].
Qed.

Lemma bind_Ok_l {A B} (m : result A) (k : A -> result B) (a : A) :
  m = Ok a -> m ≫= k = k a.
Proof. by intros ->. Qed.

Ltac inv_result :=
  repeat match goal with
  | H : Ok _ = Ok _ |- _ => injection H as H; subst
  | H : Err _ = Ok _ |- _ => discriminate H
  | H : (_ ≫= _) = Ok _ |- _ =>
      let a := fresh "r" in
      let Ha := fresh "Hr" in
      apply bind_Ok in H as (a & Ha & H)
  end.

Ltac unfold_setters :=
  unfold set_dub, with_state, with_threshold, with_dryAmount,
    with_currentLoopIndex, with_loopLength, with_nrOfUsedSamples,
    with_storage1, with_storage2, with_nrOfDubs, with_maxUsedDubs,
    with_dubs in *; simpl in *.

Lemma state_eqb_true (a b : State) : state_eqb a b = true ↔ a = b.
Proof. unfold state_eqb. by rewrite bool_decide_eq_true. Qed.

Lemma state_eqb_false (a b : State) : state_eqb a b = false ↔ a ≠ b.
Proof. unfold state_eqb. by rewrite bool_decide_eq_false. Qed.

Lemma wrap_small (z : Z) : 0 <= z < 2 ^ SIZE_BITS -> wrap z = z.
Proof. intros H. unfold wrap. by apply Z.mod_small. Qed.

Lemma wrap_range (z : Z) : 0 <= wrap z < 2 ^ SIZE_BITS.
Proof. unfold wrap. apply Z.mod_pos_bound. reflexivity. Qed.

(** ** Array accesses *)

Lemma dub_at_Ok (l : Looper) (i : Z) (d : Dub) :
  dub_at l i = Ok d ↔ (0 <= i < NR_OF_DUBS ∧ d = slot i l).
Proof.
  unfold dub_at.
  destruct (Z.leb_spec 0 i), (Z.ltb_spec i NR_OF_DUBS); simpl;
    split; try (intros [= <-]; split; [lia | done]);
    try discriminate; try (intros [? ->]; done); intros [? _]; lia.
Qed.

Lemma dub_at_in_range (l : Looper) (i : Z) :
  0 <= i < NR_OF_DUBS -> dub_at l i = Ok (slot i l).
Proof. intros H. by apply dub_at_Ok. Qed.

Lemma load_Ok (size : Z) (st : gmap Z F32.t) (i : Z) (v : F32.t) :
  load size st i = Ok v ↔ (0 <= i < size ∧ v = cell st i).
Proof.
  unfold load.
  destruct (Z.leb_spec 0 i), (Z.ltb_spec i size); simpl;
    split; try (intros [= <-]; split; [lia | done]);
    try discriminate; try (intros [? ->]; done); intros [? _]; lia.
Qed.

Lemma store_Ok (size : Z) (st st' : gmap Z F32.t) (i : Z) (v : F32.t) :
  store size st i v = Ok st' ↔ (0 <= i < size ∧ st' = <[i := v]> st).
Proof.
  unfold store.
  destruct (Z.leb_spec 0 i), (Z.ltb_spec i size); simpl;
    split; try (intros [= <-]; split; [lia | done]);
    try discriminate; try (intros [? ->]; done); intros [? _]; lia.
Qed.

Lemma slot_set_dub_eq (i : Z) (d : Dub) (l : Looper) :
  slot i (set_dub i d l) = d.
Proof. unfold slot, set_dub; simpl. by rewrite lookup_insert_eq. Qed.

Lemma slot_set_dub_ne (i j : Z) (d : Dub) (l : Looper) :
  i ≠ j -> slot j (set_dub i d l) = slot j l.
Proof. intros H. unfold slot, set_dub; simpl. by rewrite lookup_insert_ne. Qed.

(** ** The fade only touches the arena *)

Lemma scale1_control (i : Z) (f : F32.t) (l l' : Looper) :
  scale1 i f l = Ok l' -> control l' = control l.
Proof. unfold scale1. intros H. inv_result. reflexivity. Qed.

Lemma scale2_control (i : Z) (f : F32.t) (l l' : Looper) :
  scale2 i f l = Ok l' -> control l' = control l.
Proof. unfold scale2. intros H. inv_result. reflexivity. Qed.

Lemma blend_control (length : Z) (fuel : nat) :
  ∀ (s a b : Z) (l l' : Looper),
    blend length fuel s a b l = Ok l' -> control l' = control l.
Proof.
  induction fuel as [|fuel IH]; simpl; intros s a b l l' H.
  - by inv_result.
  - inv_result. apply IH in H. rewrite H.
    repeat match goal with
    | H : scale1 _ _ _ = Ok _ |- _ => apply scale1_control in H
    | H : scale2 _ _ _ = Ok _ |- _ => apply scale2_control in H
    end.
    congruence.
Qed.

Ltac control_fields H :=
  unfold control in H; simpl in H; injection H as ? ? ? ? ? ? ? ? ? ?.

(** ** [finishRecording] *)

Lemma finishRecording_waiting (l : Looper) :
  m_state l = LOOPER_STATE_WAITING_FOR_THRESHOLD ->
  finishRecording l =
    Ok (with_state (if m_nrOfDubs l =? 0 then LOOPER_STATE_INACTIVE
                    else LOOPER_STATE_PLAYING) l).
Proof.
  intros H. unfold finishRecording.
  rewrite (proj2 (state_eqb_true _ _) H). by destruct (m_nrOfDubs l =? 0).
Qed.

Lemma finishRecording_commit (l l' : Looper) :
  m_state l ≠ LOOPER_STATE_WAITING_FOR_THRESHOLD ->
  finishRecording l = Ok l' ->
  0 <= m_nrOfDubs l < NR_OF_DUBS
  ∧ m_state l' = LOOPER_STATE_PLAYING
  ∧ m_nrOfDubs l' = m_nrOfDubs l + 1
  ∧ m_maxUsedDubs l' = m_nrOfDubs l + 1
  ∧ m_dubs l' = m_dubs l
  ∧ m_nrOfUsedSamples l' = m_nrOfUsedSamples l
  ∧ m_storageSize l' = m_storageSize l
  ∧ m_threshold l' = m_threshold l
  ∧ m_dryAmount l' = m_dryAmount l
  ∧ (m_nrOfDubs l = 0 ->
       m_loopLength l' = m_length (slot 0 l) ∧ m_currentLoopIndex l' = 0)
  ∧ (m_nrOfDubs l ≠ 0 ->
       m_loopLength l' = m_loopLength l
       ∧ m_currentLoopIndex l' = m_currentLoopIndex l).
Proof.
  intros Hs H. unfold finishRecording in H.
  rewrite (proj2 (state_eqb_false _ _) Hs) in H.
  inv_result.
  apply dub_at_Ok in Hr as [Hn ->]. simpl in Hn.
  apply blend_control in Hr0. unfold_setters. unfold slot in *; simpl in *.
  destruct (Z.eqb_spec (m_nrOfDubs l) 0) as [E|E]; control_fields Hr0;
    simpl;
    match goal with H : m_nrOfDubs _ = m_nrOfDubs l |- _ => rewrite H end;
    (rewrite wrap_small; [|unfold NR_OF_DUBS, SIZE_BITS in *; lia]);
    repeat split; try done; try lia.
  by rewrite <- E.
Qed.

(** ** Undo and Start as single commands *)

(** C5.  [undo] first finishes the take when the state is RECORDING (the
    finished take stays below [m_maxUsedDubs], so it can be redone); with no
    active dub it then changes nothing; otherwise it decrements
    [m_nrOfDubs], rewinds [m_nrOfUsedSamples] to the storage offset of the
    deactivated dub and keeps [m_maxUsedDubs], the slots and the arena;
    when the count reaches 0 the loop length and the loop index are
    cleared, else they are kept. *)
Theorem C5_undo_behaviour (l l1 : Looper) :
  (if state_eqb (m_state l) LOOPER_STATE_RECORDING
   then finishRecording l else Ok l) = Ok l1 ->
  (m_state l = LOOPER_STATE_RECORDING ->
     m_nrOfDubs l1 = m_nrOfDubs l + 1
     ∧ m_maxUsedDubs l1 = m_nrOfDubs l1
     ∧ 1 <= m_nrOfDubs l1 <= NR_OF_DUBS)
  ∧ (m_nrOfDubs l1 = 0 -> undo l = Ok l1)
  ∧ (1 <= m_nrOfDubs l1 <= NR_OF_DUBS ->
      ∃ l', undo l = Ok l'
        ∧ m_nrOfDubs l' = m_nrOfDubs l1 - 1
        ∧ m_nrOfUsedSamples l' = m_storageOffset (slot (m_nrOfDubs l1 - 1) l1)
        ∧ m_maxUsedDubs l' = m_maxUsedDubs l1
        ∧ m_state l' = m_state l1
        ∧ m_dubs l' = m_dubs l1
        ∧ m_storage1 l' = m_storage1 l1
        ∧ m_storage2 l' = m_storage2 l1
        ∧ (m_nrOfDubs l1 = 1 ->
             m_loopLength l' = 0 ∧ m_currentLoopIndex l' = 0)
        ∧ (1 < m_nrOfDubs l1 ->
             m_loopLength l' = m_loopLength l1
             ∧ m_currentLoopIndex l' = m_currentLoopIndex l1)).
Proof.
  intros Hpre. split; [|split].
  - intros Hs. rewrite (proj2 (state_eqb_true _ _) Hs) in Hpre.
    apply finishRecording_commit in Hpre; [|by rewrite Hs].
    destruct Hpre as (Hn & _ & Hn1 & Hmax & _). lia.
  - intros H0. unfold undo. rewrite Hpre. simpl.
    unfold undo_core. by rewrite H0.
  - intros Hn. unfold undo. rewrite Hpre. simpl. unfold undo_core.
    destruct (Z.eqb_spec (m_nrOfDubs l1) 0) as [E|_]; [lia|].
    assert (wrap (m_nrOfDubs l1 - 1) = m_nrOfDubs l1 - 1) as Hw.
    { apply wrap_small. unfold NR_OF_DUBS, SIZE_BITS in *. lia. }
    simpl. rewrite Hw.
    rewrite (bind_Ok_l _ _ (slot (m_nrOfDubs l1 - 1) l1)).
    2:{ apply dub_at_Ok. simpl. split; [unfold NR_OF_DUBS in *; lia | done]. }
    simpl.
    destruct (Z.eqb_spec (m_nrOfDubs l1 - 1) 0) as [E|E];
      eexists; (split; [reflexivity|]); simpl; repeat split; try done; lia.
Qed.

(** C6.  With the ledger full or the arena exhausted, [startRecording]
    returns the state it was given: no field changes.  The Activate press
    and, outside a take, the Dub press are then without effect. *)
Theorem C6_start_rejected_at_capacity (l : Looper) :
  m_nrOfDubs l = NR_OF_DUBS ∨ m_nrOfUsedSamples l = m_storageSize l ->
  startRecording l = Ok l
  ∧ (recording_or_waiting l = false ->
       onActivate false l = Ok l ∧ onDub false l = Ok l).
Proof.
  intros H.
  assert (startRecording l = Ok l) as Hstart.
  { unfold startRecording. destruct H as [H|H].
    - rewrite H. reflexivity.
    - destruct (NR_OF_DUBS <=? m_nrOfDubs l); [done|].
      rewrite H, Z.leb_refl. reflexivity. }
  split; [done|].
  intros Hrw. unfold onActivate, onDub. rewrite Hrw. simpl. done.
Qed.

(** ** The loop length *)

Lemma keeps_loop_refl (l : Looper) : keeps_loop l l.
Proof. by intros H. Qed.

Lemma keeps_loop_trans (l1 l2 l3 : Looper) :
  keeps_loop l1 l2 -> keeps_loop l2 l3 -> keeps_loop l1 l3.
Proof.
  intros H12 H23 H. destruct (H12 H) as [E1 H2].
  destruct (H23 H2) as [E2 H3]. split; [congruence | done].
Qed.

Lemma keeps_then_clears (l1 l2 l3 : Looper) :
  keeps_loop l1 l2 -> keeps_or_clears l2 l3 -> keeps_or_clears l1 l3.
Proof.
  intros H12 H23 H. destruct (H12 H) as [E1 H2].
  destruct (H23 H2) as [E2|E2]; [left; congruence | by right].
Qed.

Lemma keeps_weaken (l l' : Looper) : keeps_loop l l' -> keeps_or_clears l l'.
Proof. intros H Hn. left. by apply H. Qed.

Lemma startRecording_effect (l l' : Looper) :
  startRecording l = Ok l' ->
  m_nrOfDubs l' = m_nrOfDubs l
  ∧ m_loopLength l' = m_loopLength l
  ∧ ∀ i, i ≠ m_nrOfDubs l -> slot i l' = slot i l.
Proof.
  unfold startRecording. intros H.
  destruct (NR_OF_DUBS <=? m_nrOfDubs l); [by inv_result|].
  destruct (m_storageSize l <=? m_nrOfUsedSamples l); [by inv_result|].
  inv_result. simpl. repeat split.
  intros i Hi. by apply slot_set_dub_ne.
Qed.

Lemma startRecording_keeps (l l' : Looper) :
  startRecording l = Ok l' -> keeps_loop l l'.
Proof.
  intros H Hn. apply startRecording_effect in H as (Hn' & HL & _).
  split; [done | lia].
Qed.

Lemma startRecording_inv (l l' : Looper) :
  startRecording l = Ok l' -> loop_length_inv l -> loop_length_inv l'.
Proof.
  intros H [Hr HL]. apply startRecording_effect in H as (Hn' & HL' & Hs).
  split; [lia|]. intros Hn. rewrite HL', Hs by lia. apply HL. lia.
Qed.

Lemma finishRecording_keeps (l l' : Looper) :
  finishRecording l = Ok l' -> keeps_loop l l'.
Proof.
  intros H Hn.
  destruct (decide (m_state l = LOOPER_STATE_WAITING_FOR_THRESHOLD)) as [E|E].
  - rewrite (finishRecording_waiting _ E) in H. inv_result. simpl. done.
  - apply (finishRecording_commit _ _ E) in H.
    destruct H as (_ & _ & Hn' & _ & _ & _ & _ & _ & _ & _ & HL).
    split; [apply HL; lia | lia].
Qed.

Lemma finishRecording_inv (l l' : Looper) :
  finishRecording l = Ok l' -> loop_length_inv l -> loop_length_inv l'.
Proof.
  intros H [Hr HL].
  destruct (decide (m_state l = LOOPER_STATE_WAITING_FOR_THRESHOLD)) as [E|E].
  - rewrite (finishRecording_waiting _ E) in H. inv_result.
    split; simpl; done.
  - apply (finishRecording_commit _ _ E) in H.
    destruct H as (Hn & _ & Hn' & _ & Hd & _ & _ & _ & _ & H0 & H1).
    split; [lia|]. intros _. unfold slot in *. rewrite Hd.
    destruct (decide (m_nrOfDubs l = 0)) as [E0|E0].
    + by apply H0.
    + destruct (H1 E0) as [-> _]. apply HL. lia.
Qed.

Lemma undo_core_effect (l l' : Looper) :
  undo_core l = Ok l' ->
  l' = l
  ∨ (0 <= wrap (m_nrOfDubs l - 1) < NR_OF_DUBS
     ∧ m_nrOfDubs l' = wrap (m_nrOfDubs l - 1)
     ∧ m_dubs l' = m_dubs l
     ∧ (m_nrOfDubs l' = 0 ∧ m_loopLength l' = 0
        ∨ m_nrOfDubs l' ≠ 0 ∧ m_loopLength l' = m_loopLength l)).
Proof.
  unfold undo_core. intros H.
  destruct (m_nrOfDubs l =? 0); [left; by inv_result|]. right.
  inv_result. apply dub_at_Ok in Hr as [Hn ->]. simpl in *.
  destruct (Z.eqb_spec (wrap (m_nrOfDubs l - 1)) 0) as [E|E];
    inv_result; simpl; repeat split; try lia; auto.
Qed.

Lemma undo_core_clears (l l' : Looper) :
  undo_core l = Ok l' -> keeps_or_clears l l'.
Proof.
  intros H Hn. apply undo_core_effect in H as [->|(_ & _ & _ & [H|H])].
  - by left.
  - by right.
  - left. apply H.
Qed.

Lemma undo_core_inv (l l' : Looper) :
  undo_core l = Ok l' -> loop_length_inv l -> loop_length_inv l'.
Proof.
  intros H [Hr HL].
  apply undo_core_effect in H as [->|(Hn & Hn' & Hd & H)]; [done|].
  split; [lia|]. intros H1. unfold slot in *. rewrite Hd.
  destruct H as [[H _]|[_ ->]]; [lia|].
  apply HL.
  destruct (decide (m_nrOfDubs l = 0)) as [E|E]; [|lia].
  rewrite E in Hn. revert Hn. vm_compute. intros [_ Hc]. discriminate Hc.
Qed.

Lemma redo_effect (l l' : Looper) :
  redo l = Ok l' ->
  l' = l
  ∨ (0 <= m_nrOfDubs l < NR_OF_DUBS
     ∧ m_nrOfDubs l' = m_nrOfDubs l + 1
     ∧ m_dubs l' = m_dubs l
     ∧ (m_nrOfDubs l = 0 ∧ m_loopLength l' = m_length (slot 0 l)
        ∨ m_nrOfDubs l ≠ 0 ∧ m_loopLength l' = m_loopLength l)).
Proof.
  unfold redo. intros H.
  destruct (state_eqb _ _); [left; by inv_result|].
  destruct (m_nrOfDubs l =? m_maxUsedDubs l); [left; by inv_result|]. right.
  inv_result. apply dub_at_Ok in Hr as [Hn ->].
  destruct (Z.eqb_spec (m_nrOfDubs l) 0) as [E|E]; unfold_setters;
    (rewrite wrap_small by (unfold NR_OF_DUBS, SIZE_BITS in *; lia));
    repeat split; try lia; auto.
  left. by rewrite E.
Qed.

Lemma redo_keeps (l l' : Looper) : redo l = Ok l' -> keeps_loop l l'.
Proof.
  intros H Hn. apply redo_effect in H as [->|(_ & Hn' & _ & [[H _]|[_ H]])];
    [done | lia | split; [done | lia]].
Qed.

Lemma redo_inv (l l' : Looper) :
  redo l = Ok l' -> loop_length_inv l -> loop_length_inv l'.
Proof.
  intros H [Hr HL].
  apply redo_effect in H as [->|(Hn & Hn' & Hd & H)]; [done|].
  split; [lia|]. intros _. unfold slot in *. rewrite Hd.
  destruct H as [[_ ->]|[E ->]]; [done|]. apply HL. lia.
Qed.

Lemma reset_inv (l : Looper) : loop_length_inv (reset l).
Proof. split; simpl; [done | lia]. Qed.

Lemma reset_clears (l : Looper) : keeps_or_clears l (reset l).
Proof. intros _. by right. Qed.

Lemma undo_clears (l l' : Looper) : undo l = Ok l' -> keeps_or_clears l l'.
Proof.
  unfold undo. intros H. inv_result.
  apply (keeps_then_clears _ r); [|by apply undo_core_clears].
  destruct (state_eqb _ _); [by apply finishRecording_keeps|].
  inv_result. apply keeps_loop_refl.
Qed.

Lemma undo_inv (l l' : Looper) :
  undo l = Ok l' -> loop_length_inv l -> loop_length_inv l'.
Proof.
  unfold undo. intros H Hi. inv_result.
  apply (undo_core_inv r); [done|].
  destruct (state_eqb _ _); [by apply (finishRecording_inv l)|].
  by inv_result.
Qed.

Lemma check_threshold_effect (in1 in2 : F32.t) (l l' : Looper) :
  check_threshold in1 in2 l = Ok l' ->
  m_nrOfDubs l' = m_nrOfDubs l
  ∧ m_loopLength l' = m_loopLength l
  ∧ ∀ i, m_length (slot i l') = m_length (slot i l).
Proof.
  unfold check_threshold. intros H.
  destruct (threshold_reached in1 in2 l); [|by inv_result].
  inv_result. apply dub_at_Ok in Hr as [Hn ->]. simpl. repeat split.
  intros i. unfold slot, with_state, set_dub, with_dubs; simpl.
  destruct (decide (m_nrOfDubs l = i)) as [<-|E].
  - by rewrite lookup_insert_eq.
  - by rewrite lookup_insert_ne.
Qed.

Lemma record_effect (in1 in2 : F32.t) (l l' : Looper) :
  record in1 in2 l = Ok l' ->
  m_nrOfDubs l' = m_nrOfDubs l
  ∧ m_loopLength l' = m_loopLength l
  ∧ ∀ i, i ≠ m_nrOfDubs l -> slot i l' = slot i l.
Proof.
  unfold record. intros H.
  destruct (state_eqb _ _); [|by inv_result].
  inv_result. simpl. repeat split.
  intros i Hi. unfold slot, set_dub, with_dubs; simpl.
  by rewrite lookup_insert_ne.
Qed.

Lemma advance_keeps (l l' : Looper) : advance l = Ok l' -> keeps_loop l l'.
Proof.
  unfold advance. intros H.
  set (l0 := if 0 <? m_nrOfDubs l
             then with_currentLoopIndex (wrap (m_currentLoopIndex l + 1)) l
             else l) in *.
  assert (keeps_loop l l0) as H0.
  { subst l0. destruct (0 <? m_nrOfDubs l); by intros ?. }
  apply (keeps_loop_trans _ l0); [done|].
  destruct (_ || _); [|inv_result; apply keeps_loop_refl].
  destruct (state_eqb _ _); [|inv_result; by intros ?].
  inv_result.
  apply (keeps_loop_trans _ r).
  - intros Hn. by apply (finishRecording_keeps _ _ Hr).
  - destruct (1 <? m_nrOfDubs r);
      [by apply startRecording_keeps | inv_result; apply keeps_loop_refl].
Qed.

Lemma advance_inv (l l' : Looper) :
  advance l = Ok l' -> loop_length_inv l -> loop_length_inv l'.
Proof.
  unfold advance. intros H Hi.
  set (l0 := if 0 <? m_nrOfDubs l
             then with_currentLoopIndex (wrap (m_currentLoopIndex l + 1)) l
             else l) in *.
  assert (loop_length_inv l0) as H0.
  { subst l0. destruct (0 <? m_nrOfDubs l); done. }
  destruct (_ || _); [|by inv_result].
  destruct (state_eqb _ _); [|by inv_result].
  inv_result.
  assert (loop_length_inv r) as H1
    by (by apply (finishRecording_inv _ _ Hr)).
  destruct (1 <? m_nrOfDubs r);
    [by apply (startRecording_inv r) | by inv_result].
Qed.

Lemma run_sample_keeps (x : sample) (l l' : Looper) (out : sample) :
  run_sample x l = Ok (l', out) -> keeps_loop l l'.
Proof.
  unfold run_sample. intros H. inv_result.
  apply check_threshold_effect in Hr as (Hn1 & HL1 & _).
  apply record_effect in Hr0 as (Hn2 & HL2 & _).
  apply advance_keeps in Hr2.
  intros Hn. destruct Hr2 as [HL3 Hn3]; [lia|]. split; [congruence | done].
Qed.

Lemma run_sample_inv (x : sample) (l l' : Looper) (out : sample) :
  run_sample x l = Ok (l', out) -> loop_length_inv l -> loop_length_inv l'.
Proof.
  unfold run_sample. intros H [Hr HL]. inv_result.
  apply (advance_inv r0); [done|].
  apply check_threshold_effect in Hr0 as (Hn1 & HL1 & Hs1).
  apply record_effect in Hr1 as (Hn2 & HL2 & Hs2).
  split; [lia|]. intros Hn.
  rewrite HL2, HL1, Hs2, Hs1 by lia. apply HL. lia.
Qed.

Lemma run_samples_inv (input : list sample) :
  ∀ (l l' : Looper) (out : list sample),
    run_samples input l = Ok (l', out) ->
    loop_length_inv l -> loop_length_inv l'.
Proof.
  induction input as [|x input IH]; simpl; intros l l' out H Hi.
  - by inv_result.
  - inv_result. destruct r as [l1 o1]. inv_result. destruct r as [l2 o2].
    inv_result. eapply IH; [done|]. by eapply run_sample_inv.
Qed.

(** ** Button callbacks *)

Lemma onActivate_inv (dc : bool) (l l' : Looper) :
  onActivate dc l = Ok l' -> loop_length_inv l -> loop_length_inv l'.
Proof.
  unfold onActivate. intros H Hi.
  destruct dc; [inv_result; apply reset_inv|].
  destruct (recording_or_waiting l);
    [by apply (finishRecording_inv l) | by apply (startRecording_inv l)].
Qed.

Lemma onReset_inv (dc : bool) (l l' : Looper) :
  onReset dc l = Ok l' -> loop_length_inv l -> loop_length_inv l'.
Proof.
  unfold onReset. intros H Hi.
  destruct dc; [inv_result; apply reset_inv|].
  destruct (recording_or_waiting l);
    [by apply (finishRecording_inv l) | by apply (undo_inv l)].
Qed.

Lemma onDub_inv (dc : bool) (l l' : Looper) :
  onDub dc l = Ok l' -> loop_length_inv l -> loop_length_inv l'.
Proof.
  unfold onDub. intros H Hi.
  destruct dc; [inv_result; apply reset_inv|].
  inv_result. apply (startRecording_inv r); [done|].
  destruct (recording_or_waiting l);
    [by apply (finishRecording_inv l) | by inv_result].
Qed.

Lemma apply_op_inv (op : Op) (l l' : Looper) :
  apply_op op l = Ok l' -> loop_length_inv l -> loop_length_inv l'.
Proof.
  destruct op as [dc|dc| | |dc|x]; simpl.
  - apply onActivate_inv.
  - apply onReset_inv.
  - apply undo_inv.
  - apply redo_inv.
  - apply onDub_inv.
  - intros H. inv_result. destruct r as [l1 o]. inv_result.
    by apply (run_sample_inv x l l' o).
Qed.

Lemma apply_op_clears (op : Op) (l l' : Looper) :
  apply_op op l = Ok l' -> keeps_or_clears l l'.
Proof.
  destruct op as [dc|dc| | |dc|x]; simpl.
  - unfold onActivate. intros H.
    destruct dc; [inv_result; apply reset_clears|]. apply keeps_weaken.
    destruct (recording_or_waiting l);
      [by apply finishRecording_keeps | by apply startRecording_keeps].
  - unfold onReset. intros H.
    destruct dc; [inv_result; apply reset_clears|].
    destruct (recording_or_waiting l);
      [apply keeps_weaken; by apply finishRecording_keeps
      | by apply undo_clears].
  - apply undo_clears.
  - intros H. apply keeps_weaken. by apply redo_keeps.
  - unfold onDub. intros H.
    destruct dc; [inv_result; apply reset_clears|]. apply keeps_weaken.
    inv_result. apply (keeps_loop_trans _ r);
      [|by apply startRecording_keeps].
    destruct (recording_or_waiting l);
      [by apply finishRecording_keeps | inv_result; apply keeps_loop_refl].
  - intros H. inv_result. destruct r as [l1 o]. inv_result.
    apply keeps_weaken. by apply (run_sample_keeps x l l' o).
Qed.

Lemma updateParameters_inv (powf : F32.t -> F32.t -> F32.t)
    (thr dry : F32.t) (b : Buttons) (l l' : Looper) :
  updateParameters powf thr dry b l = Ok l' ->
  loop_length_inv l -> loop_length_inv l'.
Proof.
  unfold updateParameters, when_pressed, when_set. intros H Hi.
  inv_result.
  assert (loop_length_inv r) as H1.
  { destruct (b_activate b); [by eapply onActivate_inv | by inv_result]. }
  assert (loop_length_inv r0) as H2.
  { destruct (b_reset b); [by eapply onReset_inv | by inv_result]. }
  assert (loop_length_inv r1) as H3.
  { destruct (b_undo b); [by eapply undo_inv | by inv_result]. }
  assert (loop_length_inv r2) as H4.
  { destruct (b_redo b); [by eapply redo_inv | by inv_result]. }
  destruct (b_dub b); [by eapply onDub_inv | by inv_result].
Qed.

Lemma run_inv (powf : F32.t -> F32.t -> F32.t) (thr dry : F32.t)
    (b : Buttons) (input out : list sample) (l l' : Looper) :
  run powf thr dry b input l = Ok (l', out) ->
  loop_length_inv l -> loop_length_inv l'.
Proof.
  unfold run. intros H Hi. inv_result.
  apply updateParameters_inv in Hr; [|done].
  destruct (state_eqb _ _); [by inv_result|].
  by eapply run_samples_inv.
Qed.

Lemma reachable_inv (powf : F32.t -> F32.t -> F32.t) (l : Looper) :
  reachable powf l -> loop_length_inv l.
Proof.
  induction 1 as [rate|l l' thr dry b input out _ IH H].
  - split; simpl; [done | lia].
  - by eapply run_inv.
Qed.

(** ** The loop index *)

Lemma finishRecording_fields (l l' : Looper) :
  finishRecording l = Ok l' ->
  m_dubs l' = m_dubs l
  ∧ (m_loopLength l' = m_loopLength l
     ∧ m_currentLoopIndex l' = m_currentLoopIndex l
     ∨ m_loopLength l' = m_length (slot 0 l) ∧ m_currentLoopIndex l' = 0).
Proof.
  intros H.
  destruct (decide (m_state l = LOOPER_STATE_WAITING_FOR_THRESHOLD)) as [E|E].
  - rewrite (finishRecording_waiting _ E) in H. inv_result. split; [done|].
    by left.
  - apply (finishRecording_commit _ _ E) in H.
    destruct H as (_ & _ & _ & _ & Hd & _ & _ & _ & _ & H0 & H1).
    split; [done|].
    destruct (decide (m_nrOfDubs l = 0)) as [E0|E0]; [right | left]; auto.
Qed.

Lemma finishRecording_index (l l' : Looper) :
  finishRecording l = Ok l' -> loop_index_inv l -> loop_index_inv l'.
Proof.
  intros H [Hi Hl]. apply finishRecording_fields in H as (Hd & H).
  assert (∀ i, slot i l' = slot i l) as Hs
    by (intros i; unfold slot; by rewrite Hd).
  split; [|intros i; rewrite Hs; apply Hl].
  destruct H as [[-> ->]|[-> ->]]; [done|]. split; [done | apply Hl].
Qed.

Lemma startRecording_index (l l' : Looper) :
  startRecording l = Ok l' -> loop_index_inv l -> loop_index_inv l'.
Proof.
  unfold startRecording. intros H [Hi Hl].
  destruct (NR_OF_DUBS <=? m_nrOfDubs l); [by inv_result|].
  destruct (m_storageSize l <=? m_nrOfUsedSamples l); [by inv_result|].
  inv_result. split; [done|]. intros i.
  destruct (decide (m_nrOfDubs l = i)) as [<-|E].
  - unfold slot, with_state, set_dub, with_dubs; simpl.
    by rewrite lookup_insert_eq.
  - unfold slot, with_state, set_dub, with_dubs; simpl.
    rewrite lookup_insert_ne by done. apply Hl.
Qed.

Lemma undo_core_index (l l' : Looper) :
  undo_core l = Ok l' -> loop_index_inv l -> loop_index_inv l'.
Proof.
  unfold undo_core. intros H [Hi Hl].
  destruct (m_nrOfDubs l =? 0); [by inv_result|].
  inv_result.
  destruct (_ =? 0) in H; inv_result; split; simpl; done.
Qed.

Lemma undo_index (l l' : Looper) :
  undo l = Ok l' -> loop_index_inv l -> loop_index_inv l'.
Proof.
  unfold undo. intros H Hi. inv_result.
  apply (undo_core_index r); [done|].
  destruct (state_eqb _ _); [by apply (finishRecording_index l)|].
  by inv_result.
Qed.

Lemma redo_index (l l' : Looper) :
  redo l = Ok l' -> loop_index_inv l -> loop_index_inv l'.
Proof.
  unfold redo. intros H [Hi Hl].
  destruct (state_eqb _ _); [by inv_result|].
  destruct (m_nrOfDubs l =? m_maxUsedDubs l); [by inv_result|].
  inv_result. apply dub_at_Ok in Hr as [_ ->].
  destruct (m_nrOfDubs l =? 0); split; simpl; done.
Qed.

Lemma reset_index (l : Looper) :
  loop_index_inv l -> loop_index_inv (reset l).
Proof. intros [_ Hl]. split; simpl; done. Qed.

Lemma check_threshold_index (in1 in2 : F32.t) (l l' : Looper) :
  check_threshold in1 in2 l = Ok l' -> loop_index_inv l -> loop_index_inv l'.
Proof.
  intros H [Hi Hl].
  assert (m_currentLoopIndex l' = m_currentLoopIndex l) as Hidx.
  { revert H. unfold check_threshold.
    destruct (threshold_reached _ _ _); intros H; by inv_result. }
  apply check_threshold_effect in H as (_ & HL & Hs).
  split; [by rewrite Hidx, HL|]. intros i. rewrite Hs. apply Hl.
Qed.

Lemma record_index (in1 in2 : F32.t) (l l' : Looper) :
  record in1 in2 l = Ok l' -> loop_index_inv l -> loop_index_inv l'.
Proof.
  unfold record. intros H [Hi Hl].
  destruct (state_eqb _ _); [|by inv_result].
  inv_result. split; [done|]. intros i.
  unfold slot, set_dub, with_dubs; simpl.
  destruct (decide (m_nrOfDubs l = i)) as [<-|E].
  - rewrite lookup_insert_eq. simpl. apply wrap_range.
  - rewrite lookup_insert_ne by done. apply Hl.
Qed.

Lemma loop_index_inv_set (z : Z) (l : Looper) :
  (∀ i, 0 <= m_length (slot i l)) ->
  0 <= z <= m_loopLength l ->
  loop_index_inv (with_currentLoopIndex z l).
Proof. intros Hl Hz. split; done. Qed.

Lemma advance_wrap_index (l l' : Looper) :
  (if state_eqb (m_state l) LOOPER_STATE_RECORDING
   then l1 ← finishRecording (with_currentLoopIndex 0 l);
        if 1 <? m_nrOfDubs l1 then startRecording l1 else Ok l1
   else Ok (with_currentLoopIndex 0 l)) = Ok l' ->
  (∀ i, 0 <= m_length (slot i l)) ->
  0 <= m_loopLength l ->
  loop_index_inv l'.
Proof.
  intros H Hl HL.
  assert (loop_index_inv (with_currentLoopIndex 0 l)) as H0
    by (apply loop_index_inv_set; [done | lia]).
  destruct (state_eqb _ _); [|by inv_result].
  apply bind_Ok in H as (l1 & Hf & H).
  assert (loop_index_inv l1) as H1 by (by apply (finishRecording_index _ _ Hf)).
  destruct (1 <? m_nrOfDubs l1);
    [by apply (startRecording_index l1) | by inv_result].
Qed.

Lemma advance_index (l l' : Looper) :
  advance l = Ok l' -> loop_index_inv l -> loop_index_inv l'.
Proof.
  unfold advance. intros H [Hi Hl].
  destruct (0 <? m_nrOfDubs l).
  - set (z := wrap (m_currentLoopIndex l + 1)) in *.
    pose proof (wrap_range (m_currentLoopIndex l + 1)) as Hz. fold z in Hz.
    destruct (Z.ltb_spec (m_loopLength (with_currentLoopIndex z l))
                (m_currentLoopIndex (with_currentLoopIndex z l)))
      as [Hlt|Hge]; simpl in H.
    + apply (advance_wrap_index l); [exact H | done | lia].
    + destruct (m_storageSize l <=? m_nrOfUsedSamples l).
      * apply (advance_wrap_index l); [exact H | done | lia].
      * inv_result. apply loop_index_inv_set; [done|]. simpl in Hge. lia.
  - destruct (_ || _).
    + apply (advance_wrap_index l); [exact H | done | lia].
    + by inv_result.
Qed.

Lemma run_sample_index (x : sample) (l l' : Looper) (out : sample) :
  run_sample x l = Ok (l', out) -> loop_index_inv l -> loop_index_inv l'.
Proof.
  unfold run_sample. intros H Hi. inv_result.
  apply (advance_index r0); [done|].
  apply (record_index _ _ _ _ Hr0).
  by apply (check_threshold_index _ _ _ _ Hr).
Qed.

Lemma run_samples_index (input : list sample) :
  ∀ (l l' : Looper) (out : list sample),
    run_samples input l = Ok (l', out) ->
    loop_index_inv l -> loop_index_inv l'.
Proof.
  induction input as [|x input IH]; simpl; intros l l' out H Hi.
  - by inv_result.
  - inv_result. destruct r as [l1 o1]. inv_result. destruct r as [l2 o2].
    inv_result. eapply IH; [done|]. by eapply run_sample_index.
Qed.

Lemma onActivate_index (dc : bool) (l l' : Looper) :
  onActivate dc l = Ok l' -> loop_index_inv l -> loop_index_inv l'.
Proof.
  unfold onActivate. intros H Hi.
  destruct dc; [inv_result; by apply reset_index|].
  destruct (recording_or_waiting l);
    [by apply (finishRecording_index l) | by apply (startRecording_index l)].
Qed.

Lemma onReset_index (dc : bool) (l l' : Looper) :
  onReset dc l = Ok l' -> loop_index_inv l -> loop_index_inv l'.
Proof.
  unfold onReset. intros H Hi.
  destruct dc; [inv_result; by apply reset_index|].
  destruct (recording_or_waiting l);
    [by apply (finishRecording_index l) | by apply (undo_index l)].
Qed.

Lemma onDub_index (dc : bool) (l l' : Looper) :
  onDub dc l = Ok l' -> loop_index_inv l -> loop_index_inv l'.
Proof.
  unfold onDub. intros H Hi.
  destruct dc; [inv_result; by apply reset_index|].
  inv_result. apply (startRecording_index r); [done|].
  destruct (recording_or_waiting l);
    [by apply (finishRecording_index l) | by inv_result].
Qed.

Lemma updateParameters_index (powf : F32.t -> F32.t -> F32.t)
    (thr dry : F32.t) (b : Buttons) (l l' : Looper) :
  updateParameters powf thr dry b l = Ok l' ->
  loop_index_inv l -> loop_index_inv l'.
Proof.
  unfold updateParameters, when_pressed, when_set. intros H Hi.
  inv_result.
  assert (loop_index_inv r) as H1.
  { destruct (b_activate b); [by eapply onActivate_index | by inv_result]. }
  assert (loop_index_inv r0) as H2.
  { destruct (b_reset b); [by eapply onReset_index | by inv_result]. }
  assert (loop_index_inv r1) as H3.
  { destruct (b_undo b); [by eapply undo_index | by inv_result]. }
  assert (loop_index_inv r2) as H4.
  { destruct (b_redo b); [by eapply redo_index | by inv_result]. }
  destruct (b_dub b); [by eapply onDub_index | by inv_result].
Qed.

(** In every reachable state the loop index lies between 0 and the loop
    length, both included. *)
Lemma reachable_loop_index (powf : F32.t -> F32.t -> F32.t) (l : Looper) :
  reachable powf l -> 0 <= m_currentLoopIndex l <= m_loopLength l.
Proof.
  intros H. cut (loop_index_inv l); [by intros [? _]|].
  induction H as [rate|l l' thr dry b input out _ IH H].
  - split; simpl; done.
  - unfold run in H. inv_result.
    apply updateParameters_index in Hr; [|done].
    destruct (state_eqb _ _); [by inv_result|].
    by eapply run_samples_index.
Qed.

(** ** Undo followed by Redo *)

(** What the round trip does to a state that is not recording: every field
    is as before, except that [m_nrOfUsedSamples] becomes the end of the
    reactivated dub and that, when the only dub went away and came back,
    the loop restarts at index 0 with the length stored in slot 0. *)
Lemma undo_redo_round_trip (l : Looper) :
  m_state l ≠ LOOPER_STATE_RECORDING ->
  1 <= m_nrOfDubs l <= NR_OF_DUBS ->
  m_nrOfDubs l <= m_maxUsedDubs l ->
  ∃ l', undo l ≫= redo = Ok l'
    ∧ m_state l' = m_state l
    ∧ m_nrOfDubs l' = m_nrOfDubs l
    ∧ m_maxUsedDubs l' = m_maxUsedDubs l
    ∧ m_dubs l' = m_dubs l
    ∧ m_storage1 l' = m_storage1 l
    ∧ m_storage2 l' = m_storage2 l
    ∧ m_storageSize l' = m_storageSize l
    ∧ m_threshold l' = m_threshold l
    ∧ m_dryAmount l' = m_dryAmount l
    ∧ m_nrOfUsedSamples l'
      = wrap (m_storageOffset (slot (m_nrOfDubs l - 1) l)
              + m_length (slot (m_nrOfDubs l - 1) l))
    ∧ (m_nrOfDubs l = 1 ->
         m_loopLength l' = m_length (slot 0 l) ∧ m_currentLoopIndex l' = 0)
    ∧ (1 < m_nrOfDubs l ->
         m_loopLength l' = m_loopLength l
         ∧ m_currentLoopIndex l' = m_currentLoopIndex l).
Proof.
  intros Hs Hn Hmax.
  assert (state_eqb (m_state l) LOOPER_STATE_RECORDING = false) as Hs'
    by (by apply state_eqb_false).
  unfold undo. rewrite Hs'. simpl. unfold undo_core.
  destruct (Z.eqb_spec (m_nrOfDubs l) 0) as [E|_]; [lia|].
  assert (wrap (m_nrOfDubs l - 1) = m_nrOfDubs l - 1) as Hw
    by (apply wrap_small; unfold NR_OF_DUBS, SIZE_BITS in *; lia).
  simpl. rewrite Hw.
  rewrite (bind_Ok_l _ _ (slot (m_nrOfDubs l - 1) l))
    by (apply dub_at_Ok; simpl; split; [unfold NR_OF_DUBS in *; lia | done]).
  simpl.
  assert (wrap (m_nrOfDubs l - 1 + 1) = m_nrOfDubs l) as Hw'
    by (rewrite Z.sub_add; apply wrap_small;
        unfold NR_OF_DUBS, SIZE_BITS in *; lia).
  destruct (Z.eqb_spec (m_nrOfDubs l - 1) 0) as [E|E]; simpl;
    unfold redo; simpl; rewrite Hs';
    (destruct (Z.eqb_spec (m_nrOfDubs l - 1) (m_maxUsedDubs l)) as [E'|_];
       [lia|]);
    (rewrite (bind_Ok_l _ _ (slot (m_nrOfDubs l - 1) l))
       by (apply dub_at_Ok; simpl; split;
           [unfold NR_OF_DUBS in *; lia | done]));
    simpl.
  - rewrite E. simpl. eexists. split; [reflexivity|]. simpl.
    rewrite <- E at 1. rewrite Hw'. rewrite <- E.
    repeat split; try done; lia.
  - destruct (Z.eqb_spec (m_nrOfDubs l - 1) 0) as [E'|_]; [lia|].
    eexists. split; [reflexivity|]. simpl. rewrite Hw'.
    repeat split; try done; lia.
Qed.

(** ** Redo once the history is collapsed *)

(** With [m_nrOfDubs = m_maxUsedDubs] Redo changes nothing, and every
    operation but an Undo keeps the two counters equal. *)
Lemma redo_noop_when_collapsed (l : Looper) :
  m_nrOfDubs l = m_maxUsedDubs l -> redo l = Ok l.
Proof.
  intros H. unfold redo. destruct (state_eqb _ _); [done|].
  by rewrite H, Z.eqb_refl.
Qed.

Lemma finishRecording_collapses (l l' : Looper) :
  m_state l = LOOPER_STATE_RECORDING ->
  finishRecording l = Ok l' ->
  m_nrOfDubs l' = m_maxUsedDubs l'.
Proof.
  intros Hs H. apply finishRecording_commit in H; [|by rewrite Hs].
  destruct H as (_ & _ & -> & -> & _). done.
Qed.

Lemma finishRecording_stays_collapsed (l l' : Looper) :
  m_nrOfDubs l = m_maxUsedDubs l ->
  finishRecording l = Ok l' ->
  m_nrOfDubs l' = m_maxUsedDubs l'.
Proof.
  intros Hc H.
  destruct (decide (m_state l = LOOPER_STATE_WAITING_FOR_THRESHOLD)) as [E|E].
  - rewrite (finishRecording_waiting _ E) in H. by inv_result.
  - apply (finishRecording_commit _ _ E) in H.
    destruct H as (_ & _ & -> & -> & _). done.
Qed.

Lemma startRecording_counters (l l' : Looper) :
  startRecording l = Ok l' ->
  m_nrOfDubs l' = m_nrOfDubs l ∧ m_maxUsedDubs l' = m_maxUsedDubs l.
Proof.
  unfold startRecording. intros H.
  destruct (NR_OF_DUBS <=? m_nrOfDubs l); [by inv_result|].
  destruct (m_storageSize l <=? m_nrOfUsedSamples l); [by inv_result|].
  by inv_result.
Qed.

Lemma run_sample_stays_collapsed (x : sample) (l l' : Looper) (out : sample) :
  m_nrOfDubs l = m_maxUsedDubs l ->
  run_sample x l = Ok (l', out) ->
  m_nrOfDubs l' = m_maxUsedDubs l'.
Proof.
  intros Hc H. unfold run_sample in H. inv_result.
  assert (m_nrOfDubs r = m_maxUsedDubs r) as H1.
  { revert Hr. unfold check_threshold.
    destruct (threshold_reached _ _ _); intros Hr; by inv_result. }
  assert (m_nrOfDubs r0 = m_maxUsedDubs r0) as H2.
  { revert Hr0. unfold record.
    destruct (state_eqb _ _); intros Hr0; by inv_result. }
  revert Hr2. unfold advance.
  set (l0 := if 0 <? m_nrOfDubs r0
             then with_currentLoopIndex (wrap (m_currentLoopIndex r0 + 1)) r0
             else r0).
  assert (m_nrOfDubs l0 = m_maxUsedDubs l0) as H3
    by (subst l0; by destruct (0 <? m_nrOfDubs r0)).
  destruct (_ || _); [|intros Hr2; by inv_result].
  destruct (state_eqb _ _); [|intros Hr2; by inv_result].
  intros Hr2. apply bind_Ok in Hr2 as (lf & Hf & Hst).
  apply finishRecording_stays_collapsed in Hf; [|done].
  destruct (1 <? m_nrOfDubs lf); [|by inv_result].
  apply startRecording_counters in Hst as [-> ->]. done.
Qed.

(** Once the redo history is collapsed, only an Undo brings it back. *)
Lemma collapsed_until_undo (op : Op) (l l' : Looper) :
  m_nrOfDubs l = m_maxUsedDubs l ->
  calls_undo op l = false ->
  apply_op op l = Ok l' ->
  m_nrOfDubs l' = m_maxUsedDubs l' ∧ redo l' = Ok l'.
Proof.
  intros Hc Hop H.
  assert (m_nrOfDubs l' = m_maxUsedDubs l') as Hc';
    [|split; [done | by apply redo_noop_when_collapsed]].
  destruct op as [dc|dc| | |dc|x]; simpl in *.
  - unfold onActivate in H. destruct dc; [by inv_result|].
    destruct (recording_or_waiting l).
    + by apply (finishRecording_stays_collapsed l).
    + apply startRecording_counters in H as [-> ->]. done.
  - unfold onReset in H. destruct dc; [by inv_result|].
    destruct (recording_or_waiting l); [|done].
    by apply (finishRecording_stays_collapsed l).
  - done.
  - unfold onRedo in H. rewrite (redo_noop_when_collapsed l Hc) in H.
    by inv_result.
  - unfold onDub in H. destruct dc; [by inv_result|]. inv_result.
    apply startRecording_counters in H as [-> ->].
    destruct (recording_or_waiting l); [|by inv_result].
    by apply (finishRecording_stays_collapsed l).
  - inv_result. destruct r as [l1 o]. inv_result.
    by apply (run_sample_stays_collapsed x l l' o).
Qed.

(** ** The redo horizon *)

Lemma finishRecording_horizon (l l' : Looper) :
  finishRecording l = Ok l' -> redo_horizon_inv l -> redo_horizon_inv l'.
Proof.
  unfold redo_horizon_inv. intros H Hi.
  destruct (decide (m_state l = LOOPER_STATE_WAITING_FOR_THRESHOLD)) as [E|E].
  - rewrite (finishRecording_waiting _ E) in H. by inv_result.
  - apply (finishRecording_commit _ _ E) in H.
    destruct H as (_ & _ & -> & -> & _). done.
Qed.

Lemma startRecording_horizon (l l' : Looper) :
  startRecording l = Ok l' -> redo_horizon_inv l -> redo_horizon_inv l'.
Proof.
  unfold redo_horizon_inv. intros H Hi.
  apply startRecording_counters in H as [-> ->]. done.
Qed.

Lemma undo_core_horizon (l l' : Looper) :
  undo_core l = Ok l' -> loop_length_inv l -> redo_horizon_inv l ->
  redo_horizon_inv l'.
Proof.
  unfold redo_horizon_inv, undo_core. intros H [Hn _] Hi.
  destruct (Z.eqb_spec (m_nrOfDubs l) 0); [by inv_result|].
  inv_result.
  assert (wrap (m_nrOfDubs l - 1) = m_nrOfDubs l - 1) as Hw
    by (apply wrap_small; unfold NR_OF_DUBS, SIZE_BITS in *; lia).
  destruct (_ =? 0) in H; inv_result; simpl; lia.
Qed.

Lemma undo_horizon (l l' : Looper) :
  undo l = Ok l' -> loop_length_inv l -> redo_horizon_inv l ->
  redo_horizon_inv l'.
Proof.
  unfold undo. intros H Hl Hi. inv_result.
  destruct (state_eqb _ _).
  - apply (undo_core_horizon r); [done | |].
    + by apply (finishRecording_inv l).
    + by apply (finishRecording_horizon l).
  - inv_result. by apply (undo_core_horizon r).
Qed.

Lemma redo_horizon (l l' : Looper) :
  redo l = Ok l' -> redo_horizon_inv l -> redo_horizon_inv l'.
Proof.
  unfold redo_horizon_inv. intros H Hi.
  pose proof (redo_effect _ _ H) as [->|(Hn & Hn' & _)]; [done|].
  revert H. unfold redo. destruct (state_eqb _ _); [intros; by inv_result|].
  destruct (Z.eqb_spec (m_nrOfDubs l) (m_maxUsedDubs l));
    [intros; by inv_result|].
  intros H. inv_result. revert Hn'. simpl.
  destruct (_ =? 0); simpl; lia.
Qed.

Lemma reset_horizon (l : Looper) : redo_horizon_inv (reset l).
Proof. unfold redo_horizon_inv. simpl. done. Qed.

Lemma run_sample_horizon (x : sample) (l l' : Looper) (out : sample) :
  run_sample x l = Ok (l', out) -> redo_horizon_inv l -> redo_horizon_inv l'.
Proof.
  unfold redo_horizon_inv. intros H Hi. unfold run_sample in H. inv_result.
  assert (redo_horizon_inv r) as H1.
  { revert Hr. unfold check_threshold.
    destruct (threshold_reached _ _ _); intros Hr; by inv_result. }
  assert (redo_horizon_inv r0) as H2.
  { revert Hr0. unfold record.
    destruct (state_eqb _ _); intros Hr0; by inv_result. }
  revert Hr2. unfold advance.
  set (l0 := if 0 <? m_nrOfDubs r0
             then with_currentLoopIndex (wrap (m_currentLoopIndex r0 + 1)) r0
             else r0).
  assert (redo_horizon_inv l0) as H3
    by (subst l0; by destruct (0 <? m_nrOfDubs r0)).
  destruct (_ || _); [|intros Hr2; by inv_result].
  destruct (state_eqb _ _); [|intros Hr2; by inv_result].
  intros Hr2. apply bind_Ok in Hr2 as (lf & Hf & Hst).
  apply finishRecording_horizon in Hf; [|done].
  destruct (1 <? m_nrOfDubs lf); [|by inv_result].
  by apply (startRecording_horizon lf).
Qed.

Lemma run_samples_horizon (input : list sample) :
  ∀ (l l' : Looper) (out : list sample),
    run_samples input l = Ok (l', out) ->
    redo_horizon_inv l -> redo_horizon_inv l'.
Proof.
  induction input as [|x input IH]; simpl; intros l l' out H Hi.
  - by inv_result.
  - inv_result. destruct r as [l1 o1]. inv_result. destruct r as [l2 o2].
    inv_result. eapply IH; [done|]. by eapply run_sample_horizon.
Qed.

Lemma onActivate_horizon (dc : bool) (l l' : Looper) :
  onActivate dc l = Ok l' -> redo_horizon_inv l -> redo_horizon_inv l'.
Proof.
  unfold onActivate. intros H Hi.
  destruct dc; [inv_result; apply reset_horizon|].
  destruct (recording_or_waiting l);
    [by apply (finishRecording_horizon l)
    | by apply (startRecording_horizon l)].
Qed.

Lemma onReset_horizon (dc : bool) (l l' : Looper) :
  onReset dc l = Ok l' -> loop_length_inv l -> redo_horizon_inv l ->
  redo_horizon_inv l'.
Proof.
  unfold onReset. intros H Hl Hi.
  destruct dc; [inv_result; apply reset_horizon|].
  destruct (recording_or_waiting l);
    [by apply (finishRecording_horizon l) | by apply (undo_horizon l)].
Qed.

Lemma onDub_horizon (dc : bool) (l l' : Looper) :
  onDub dc l = Ok l' -> redo_horizon_inv l -> redo_horizon_inv l'.
Proof.
  unfold onDub. intros H Hi.
  destruct dc; [inv_result; apply reset_horizon|].
  inv_result. apply (startRecording_horizon r); [done|].
  destruct (recording_or_waiting l);
    [by apply (finishRecording_horizon l) | by inv_result].
Qed.

Lemma updateParameters_horizon (powf : F32.t -> F32.t -> F32.t)
    (thr dry : F32.t) (b : Buttons) (l l' : Looper) :
  updateParameters powf thr dry b l = Ok l' ->
  loop_length_inv l -> redo_horizon_inv l -> redo_horizon_inv l'.
Proof.
  unfold updateParameters, when_pressed, when_set. intros H Hl Hi.
  inv_result.
  assert (loop_length_inv r ∧ redo_horizon_inv r) as [Hl1 H1].
  { destruct (b_activate b);
      [split; [by eapply onActivate_inv | by eapply onActivate_horizon]
      | by inv_result]. }
  assert (loop_length_inv r0 ∧ redo_horizon_inv r0) as [Hl2 H2].
  { destruct (b_reset b);
      [split; [by eapply onReset_inv | by eapply onReset_horizon]
      | by inv_result]. }
  assert (loop_length_inv r1 ∧ redo_horizon_inv r1) as [Hl3 H3].
  { destruct (b_undo b);
      [split; [by eapply undo_inv | by eapply undo_horizon]
      | by inv_result]. }
  assert (redo_horizon_inv r2) as H4.
  { destruct (b_redo b); [by eapply redo_horizon | by inv_result]. }
  destruct (b_dub b); [by eapply onDub_horizon | by inv_result].
Qed.

(** In every reachable state the active count is at most the redo
    horizon. *)
Lemma reachable_horizon (powf : F32.t -> F32.t -> F32.t) (l : Looper) :
  reachable powf l -> m_nrOfDubs l <= m_maxUsedDubs l.
Proof.
  intros H. change (redo_horizon_inv l).
  induction H as [rate|l l' thr dry b input out Hl IH H].
  - unfold redo_horizon_inv. simpl. done.
  - apply reachable_inv in Hl. unfold run in H. inv_result.
    apply updateParameters_horizon in Hr; [|done..].
    destruct (state_eqb _ _); [by inv_result|].
    by eapply run_samples_horizon.
Qed.

Lemma apply_op_keeps (op : Op) (l l' : Looper) :
  double_click op = false -> calls_undo op l = false ->
  apply_op op l = Ok l' -> keeps_loop l l'.
Proof.
  destruct op as [dc|dc| | |dc|x]; simpl; intros Hdc Hu.
  - subst dc. unfold onActivate.
    destruct (recording_or_waiting l);
      [apply finishRecording_keeps | apply startRecording_keeps].
  - subst dc. unfold onReset.
    destruct (recording_or_waiting l); [|done]. apply finishRecording_keeps.
  - done.
  - apply redo_keeps.
  - subst dc. unfold onDub. intros H. inv_result.
    apply (keeps_loop_trans _ r); [|by apply startRecording_keeps].
    destruct (recording_or_waiting l);
      [by apply finishRecording_keeps | inv_result; apply keeps_loop_refl].
  - intros H. inv_result. destruct r as [l1 o]. inv_result.
    by apply (run_sample_keeps x l l' o).
Qed.

(** In every reachable state with an active dub the loop length is the
    length of the dub in slot 0.  A button callback or a sample step that
    starts with an active dub leaves the loop length as it is, unless it
    removes the last active dub, which clears it; only a double click
    (reset) and the presses that run [undo] can do that.  Finishing the
    first take sets the loop length to the length of that take, and redoing
    the first dub sets it to the length stored in slot 0: when the only
    active dub of a reachable state is undone and redone at once, the loop
    length is what it was. *)
Theorem loop_length_is_first_dub (powf : F32.t -> F32.t -> F32.t) :
  (∀ l, reachable powf l -> 1 <= m_nrOfDubs l ->
        m_loopLength l = m_length (slot 0 l))
  ∧ (∀ op l l', 1 <= m_nrOfDubs l -> apply_op op l = Ok l' ->
        m_loopLength l' = m_loopLength l
        ∨ (m_nrOfDubs l' = 0 ∧ m_loopLength l' = 0))
  ∧ (∀ op l l', 1 <= m_nrOfDubs l -> apply_op op l = Ok l' ->
        double_click op = false -> calls_undo op l = false ->
        m_loopLength l' = m_loopLength l ∧ 1 <= m_nrOfDubs l')
  ∧ (∀ l l', m_state l = LOOPER_STATE_RECORDING -> m_nrOfDubs l = 0 ->
        finishRecording l = Ok l' ->
        m_nrOfDubs l' = 1 ∧ m_loopLength l' = m_length (slot 0 l)
        ∧ slot 0 l' = slot 0 l)
  ∧ (∀ l l', m_state l ≠ LOOPER_STATE_RECORDING -> m_nrOfDubs l = 0 ->
        m_maxUsedDubs l ≠ 0 -> redo l = Ok l' ->
        m_nrOfDubs l' = 1 ∧ m_loopLength l' = m_length (slot 0 l)
        ∧ slot 0 l' = slot 0 l)
  ∧ (∀ l, reachable powf l -> m_state l ≠ LOOPER_STATE_RECORDING ->
        m_nrOfDubs l = 1 ->
        ∃ l', undo l ≫= redo = Ok l'
          ∧ m_nrOfDubs l' = 1 ∧ m_loopLength l' = m_loopLength l).
Proof.
  split; [|split; [|split; [|split; [|split]]]].
  - intros l Hl. by apply (reachable_inv powf l).
  - intros op l l' Hn H. by apply (apply_op_clears op l l').
  - intros op l l' Hn H Hdc Hu. by apply (apply_op_keeps op l l').
  - intros l l' Hs H0 H.
    apply finishRecording_commit in H; [|by rewrite Hs].
    destruct H as (_ & _ & Hn & _ & Hd & _ & _ & _ & _ & HL & _).
    split; [lia|]. split; [by apply HL|]. unfold slot. by rewrite Hd.
  - intros l l' Hs H0 Hmax H.
    pose proof (redo_effect _ _ H) as [->|(_ & Hn & Hd & HL)].
    + exfalso. revert H. unfold redo.
      rewrite (proj2 (state_eqb_false _ _) Hs).
      destruct (Z.eqb_spec (m_nrOfDubs l) (m_maxUsedDubs l)); [congruence|].
      rewrite (dub_at_in_range l (m_nrOfDubs l)) by (by rewrite H0). simpl.
      intros [= H]. apply (f_equal m_nrOfDubs) in H. revert H.
      unfold_setters. rewrite H0.
      destruct (0 =? 0); simpl; vm_compute; discriminate.
    + split; [lia|]. split; [|unfold slot; by rewrite Hd].
      destruct HL as [[_ ->]|[E _]]; done.
  - intros l Hl Hs Hn.
    destruct (reachable_inv powf l Hl) as [_ HL].
    pose proof (reachable_horizon powf l Hl) as Hmax.
    destruct (undo_redo_round_trip l Hs) as (l' & H & _ & Hn' & Hrest);
      [rewrite Hn; unfold NR_OF_DUBS; lia | done |].
    exists l'. split; [done|]. split; [congruence|].
    destruct Hrest as (_ & _ & _ & _ & _ & _ & _ & _ & H1 & _).
    destruct (H1 Hn) as [-> _]. symmetry. apply HL. lia.
Qed.


(** ** Comparisons of binary32 values *)

Lemma SFltb_not_SFleb (a b : spec_float) :
  SFltb a b = true -> SFleb b a = false.
Proof.
  unfold SFltb, SFleb.
  destruct a as [[]|[]| |[] m1 e1], b as [[]|[]| |[] m2 e2]; simpl;
    try reflexivity; try discriminate;
    rewrite (Z.compare_antisym e1 e2);
    change (Pos.compare_cont Eq m2 m1) with (Pos.compare m2 m1);
    change (Pos.compare_cont Eq m1 m2) with (Pos.compare m1 m2);
    rewrite (Pos.compare_antisym m1 m2);
    destruct (e1 ?= e2); simpl; try reflexivity; try discriminate;
    destruct (m1 ?= m2)%positive; simpl; try reflexivity; discriminate.
Qed.

Lemma SFleb_finite_pos (m1 : positive) (e1 : Z) (m2 : positive) (e2 : Z) :
  SFleb (S754_finite false m1 e1) (S754_finite false m2 e2) = true
  ↔ e1 < e2 ∨ (e1 = e2 ∧ (m1 <= m2)%positive).
Proof.
  unfold SFleb; simpl.
  destruct (Z.compare_spec e1 e2) as [->|?|?].
  - change (Pos.compare_cont Eq m1 m2) with (Pos.compare m1 m2).
    destruct (Pos.compare_spec m1 m2); split; intros; try lia; try done.
  - split; [lia|done].
  - split; [done|lia].
Qed.

Lemma SFleb_fmaxf_abs (t a b : spec_float) :
  SFleb t (F32.fmaxf (SFabs a) (SFabs b))
  = SFleb t (SFabs a) || SFleb t (SFabs b).
Proof.
  unfold F32.fmaxf.
  destruct a as [sa|sa| |sa m1 e1], b as [sb|sb| |sb m2 e2]; simpl;
    try (destruct (SFleb t _); reflexivity);
    try (destruct t as [[]|[]| |[] m3 e3]; unfold SFleb; simpl;
         by rewrite ?orb_false_r, ?orb_true_r).
  destruct t as [[]|[]| |[] m3 e3];
    try (destruct (SFleb (S754_finite false m1 e1) (S754_finite false m2 e2));
         reflexivity).
  pose proof (SFleb_finite_pos m1 e1 m2 e2) as Hab.
  pose proof (SFleb_finite_pos m3 e3 m1 e1) as Hta.
  pose proof (SFleb_finite_pos m3 e3 m2 e2) as Htb.
  destruct (SFleb (S754_finite false m1 e1) (S754_finite false m2 e2));
  destruct (SFleb (S754_finite false m3 e3) (S754_finite false m1 e1));
  destruct (SFleb (S754_finite false m3 e3) (S754_finite false m2 e2));
  simpl; try reflexivity; exfalso.
  - assert (e3 < e2 ∨ e3 = e2 ∧ (m3 <= m2)%positive) as H by lia.
    apply Htb in H. discriminate.
  - assert (¬ (e1 < e2 ∨ e1 = e2 ∧ (m1 <= m2)%positive)) as H1
      by (intros H; apply Hab in H; discriminate).
    assert (e3 < e2 ∨ e3 = e2 ∧ (m3 <= m2)%positive) as H2 by (by apply Htb).
    assert (e3 < e1 ∨ e3 = e1 ∧ (m3 <= m1)%positive) as H by lia.
    apply Hta in H. discriminate.
Qed.

Lemma geb_peak (x : sample) (thr : F32.t) :
  F32.geb (peak_spec x) thr
  = F32.geb (F32.abs (fst x)) thr || F32.geb (F32.abs (snd x)) thr.
Proof. unfold F32.geb, peak_spec, F32.abs. apply SFleb_fmaxf_abs. Qed.

Lemma geb_abs_zero (a : F32.t) :
  F32.is_nan a = false -> F32.geb (F32.abs a) F32.zero = true.
Proof. by destruct a as [[]|[]| |[] m e]. Qed.

Lemma below_not_reached (x : sample) (thr : F32.t) :
  F32.ltb (peak_spec x) thr = true -> F32.geb (peak_spec x) thr = false.
Proof. apply SFltb_not_SFleb. Qed.

(** ** The sample loop while waiting for the threshold *)

Lemma threshold_reached_peak (x : sample) (l : Looper) :
  threshold_reached (fst x) (snd x) l
  = state_eqb (m_state l) LOOPER_STATE_WAITING_FOR_THRESHOLD
    && F32.geb (peak_spec x) (m_threshold l).
Proof. unfold threshold_reached. by rewrite geb_peak. Qed.

Lemma mix_in_range (l : Looper) :
  dubs_in_arena l ->
  ∀ (fuel : nat) (t : Z) (out : sample),
    0 <= t -> t + Z.of_nat fuel <= m_nrOfDubs l ->
    is_Ok (mix fuel t l out).
Proof.
  intros (Hn & Hsize & Hd).
  induction fuel as [|fuel IH]; intros t out Ht Hf; simpl.
  - by eexists.
  - rewrite (dub_at_in_range l t) by lia. simpl.
    destruct (Hd t) as (Hs & Hl & Hsl & Ho & Hol); [lia|].
    assert (wrap (t + 1) = t + 1) as ->
      by (apply wrap_small; unfold NR_OF_DUBS, SIZE_BITS in *; lia).
    destruct (Z.ltb_spec (m_currentLoopIndex l) (m_startIndex (slot t l)));
      [apply IH; lia|].
    rewrite (wrap_small (m_startIndex (slot t l) + m_length (slot t l)))
      by lia.
    destruct (Z.leb_spec (m_startIndex (slot t l) + m_length (slot t l))
                (m_currentLoopIndex l)); [apply IH; lia|].
    rewrite (wrap_small (m_currentLoopIndex l - m_startIndex (slot t l)))
      by lia.
    rewrite wrap_small by lia.
    set (i := m_storageOffset (slot t l)
              + (m_currentLoopIndex l - m_startIndex (slot t l))).
    rewrite (bind_Ok_l _ _ (cell (m_storage1 l) i))
      by (apply load_Ok; subst i; split; [lia | done]).
    rewrite (bind_Ok_l _ _ (cell (m_storage2 l) i))
      by (apply load_Ok; subst i; split; [lia | done]).
    apply IH; lia.
Qed.

Lemma playback_in_range (in1 in2 : F32.t) (l : Looper) :
  dubs_in_arena l -> is_Ok (playback in1 in2 l).
Proof.
  intros H. unfold playback. apply mix_in_range; [done | lia |].
  destruct H as (Hn & _). lia.
Qed.

Lemma advance_idle (l : Looper) :
  m_state l ≠ LOOPER_STATE_RECORDING ->
  ∃ z, advance l = Ok (with_currentLoopIndex z l).
Proof.
  intros Hs. unfold advance.
  assert (∀ z, state_eqb (m_state (with_currentLoopIndex z l))
                 LOOPER_STATE_RECORDING = false) as Hz
    by (intros z; by apply state_eqb_false).
  destruct l as [st thr dry idx len size used s1 s2 n mx dubs]; simpl in *.
  destruct (0 <? n); unfold_setters;
    destruct (_ || _); simpl;
    rewrite ?(proj2 (state_eqb_false _ _) Hs); by eexists.
Qed.

Lemma waiting_sample (x : sample) (l : Looper) :
  m_state l = LOOPER_STATE_WAITING_FOR_THRESHOLD ->
  F32.geb (peak_spec x) (m_threshold l) = false ->
  (∀ l' out, run_sample x l = Ok (l', out) ->
     ∃ z, l' = with_currentLoopIndex z l)
  ∧ (dubs_in_arena l -> is_Ok (run_sample x l)).
Proof.
  intros Hs Hp.
  assert (check_threshold (fst x) (snd x) l = Ok l) as Hc.
  { unfold check_threshold. by rewrite threshold_reached_peak, Hp, andb_false_r. }
  assert (record (fst x) (snd x) l = Ok l) as Hrec.
  { unfold record. by rewrite Hs. }
  destruct (advance_idle l) as [z Hz]; [by rewrite Hs|].
  unfold run_sample. rewrite Hc. simpl. rewrite Hrec. simpl. split.
  - intros l' out H. inv_result. rewrite Hz in Hr0. inv_result. by exists z.
  - intros Hd. destruct (playback_in_range (fst x) (snd x) l Hd) as [o ->].
    simpl. rewrite Hz. simpl. by eexists.
Qed.

Lemma dubs_in_arena_index (z : Z) (l : Looper) :
  dubs_in_arena l -> dubs_in_arena (with_currentLoopIndex z l).
Proof. by intros H. Qed.

Lemma waiting_block (input : list sample) :
  ∀ l : Looper,
    m_state l = LOOPER_STATE_WAITING_FOR_THRESHOLD ->
    below_threshold (m_threshold l) input ->
    (∀ l' out, run_samples input l = Ok (l', out) ->
       ∃ z, l' = with_currentLoopIndex z l)
    ∧ (dubs_in_arena l -> is_Ok (run_samples input l)).
Proof.
  induction input as [|x input IH]; intros l Hs Hb; simpl.
  - split; [|by eexists]. intros l' out [= <- <-].
    exists (m_currentLoopIndex l). by destruct l.
  - apply Forall_cons in Hb as [Hx Hb].
    apply below_not_reached in Hx.
    destruct (waiting_sample x l Hs Hx) as [Hstep Hok]. split.
    + intros l' out H. inv_result. destruct r as [l1 o1]. inv_result.
      destruct r as [l2 o2]. inv_result.
      destruct (Hstep _ _ Hr) as [z ->].
      destruct (IH (with_currentLoopIndex z l) Hs Hb) as [Hrest _].
      destruct (Hrest _ _ Hr0) as [z' ->]. by exists z'.
    + intros Hd. destruct (Hok Hd) as [[l1 o1] H1]. rewrite H1. simpl.
      destruct (Hstep _ _ H1) as [z ->].
      destruct (IH (with_currentLoopIndex z l) Hs Hb) as [_ Hrest].
      destruct (Hrest (dubs_in_arena_index z l Hd)) as [[l2 o2] ->].
      simpl. by eexists.
Qed.

Lemma record_recording (in1 in2 : F32.t) (l : Looper) :
  m_state l = LOOPER_STATE_RECORDING ->
  0 <= m_nrOfDubs l < NR_OF_DUBS ->
  0 <= m_nrOfUsedSamples l < m_storageSize l ->
  record in1 in2 l
  = Ok (set_dub (m_nrOfDubs l)
          (mkDub (m_storageOffset (slot (m_nrOfDubs l) l))
             (wrap (m_length (slot (m_nrOfDubs l) l) + 1))
             (m_startIndex (slot (m_nrOfDubs l) l)))
          (with_nrOfUsedSamples (wrap (m_nrOfUsedSamples l + 1))
             (with_storage2 (<[m_nrOfUsedSamples l := in2]> (m_storage2 l))
                (with_storage1
                   (<[m_nrOfUsedSamples l := in1]> (m_storage1 l)) l)))).
Proof.
  intros Hs Hn Hu. unfold record. rewrite Hs. simpl.
  rewrite (bind_Ok_l _ _ (<[m_nrOfUsedSamples l := in1]> (m_storage1 l)))
    by (by apply store_Ok).
  simpl.
  rewrite (bind_Ok_l _ _ (<[m_nrOfUsedSamples l := in2]> (m_storage2 l)))
    by (by apply store_Ok).
  simpl.
  rewrite (bind_Ok_l _ _ (slot (m_nrOfDubs l) l)); [done|].
  by apply dub_at_Ok.
Qed.

Lemma nan_not_reached (x : sample) (thr : F32.t) :
  nan_sample x = true -> F32.geb (peak_spec x) thr = false.
Proof.
  unfold nan_sample, peak_spec. destruct x as [a b]. simpl.
  destruct a; try discriminate. destruct b; try discriminate.
  intros _. by destruct thr.
Qed.

Lemma below_or_nan_below (thr : F32.t) (input : list sample) :
  below_threshold thr input -> below_or_nan thr input.
Proof.
  unfold below_threshold, below_or_nan. intros H.
  eapply Forall_impl; [exact H|]. intros x Hx. by left.
Qed.

Lemma quiet_block (input : list sample) :
  ∀ l : Looper,
    m_state l = LOOPER_STATE_WAITING_FOR_THRESHOLD ->
    below_or_nan (m_threshold l) input ->
    (∀ l' out, run_samples input l = Ok (l', out) ->
       ∃ z, l' = with_currentLoopIndex z l)
    ∧ (dubs_in_arena l -> is_Ok (run_samples input l)).
Proof.
  induction input as [|x input IH]; intros l Hs Hb; simpl.
  - split; [|by eexists]. intros l' out [= <- <-].
    exists (m_currentLoopIndex l). by destruct l.
  - apply Forall_cons in Hb as [Hx Hb].
    assert (F32.geb (peak_spec x) (m_threshold l) = false) as Hx'
      by (destruct Hx; [by apply below_not_reached | by apply nan_not_reached]).
    destruct (waiting_sample x l Hs Hx') as [Hstep Hok]. split.
    + intros l' out H. inv_result. destruct r as [l1 o1]. inv_result.
      destruct r as [l2 o2]. inv_result.
      destruct (Hstep _ _ Hr) as [z ->].
      destruct (IH (with_currentLoopIndex z l) Hs Hb) as [Hrest _].
      destruct (Hrest _ _ Hr0) as [z' ->]. by exists z'.
    + intros Hd. destruct (Hok Hd) as [[l1 o1] H1]. rewrite H1. simpl.
      destruct (Hstep _ _ H1) as [z ->].
      destruct (IH (with_currentLoopIndex z l) Hs Hb) as [_ Hrest].
      destruct (Hrest (dubs_in_arena_index z l Hd)) as [[l2 o2] ->].
      simpl. by eexists.
Qed.

(** [startRecording], when it accepts, arms the take: the engine waits
    with the reserved slot emptied at the end of the used samples. *)
Lemma startRecording_arms (l : Looper) :
  0 <= m_nrOfDubs l < NR_OF_DUBS ->
  m_nrOfUsedSamples l < m_storageSize l ->
  ∃ l1, startRecording l = Ok l1
    ∧ m_state l1 = LOOPER_STATE_WAITING_FOR_THRESHOLD
    ∧ m_nrOfDubs l1 = m_nrOfDubs l
    ∧ m_nrOfUsedSamples l1 = m_nrOfUsedSamples l
    ∧ m_length (next_slot l1) = 0
    ∧ m_storageOffset (next_slot l1) = m_nrOfUsedSamples l.
Proof.
  intros Hn Hu. unfold startRecording.
  destruct (Z.leb_spec NR_OF_DUBS (m_nrOfDubs l)); [lia|].
  destruct (Z.leb_spec (m_storageSize l) (m_nrOfUsedSamples l)); [lia|].
  rewrite (dub_at_in_range l (m_nrOfDubs l)) by lia. simpl.
  eexists. split; [reflexivity|].
  unfold next_slot.
  change (m_nrOfDubs (with_state _ (set_dub _ _ l))) with (m_nrOfDubs l).
  change (slot (m_nrOfDubs l) (with_state LOOPER_STATE_WAITING_FOR_THRESHOLD
            (set_dub (m_nrOfDubs l)
               (mkDub (m_nrOfUsedSamples l) 0
                  (m_startIndex (slot (m_nrOfDubs l) l))) l)))
    with (slot (m_nrOfDubs l)
            (set_dub (m_nrOfDubs l)
               (mkDub (m_nrOfUsedSamples l) 0
                  (m_startIndex (slot (m_nrOfDubs l) l))) l)).
  rewrite slot_set_dub_eq. by destruct l.
Qed.

Section Quiet.

Variable powf : F32.t -> F32.t -> F32.t.

(** One [run] call without a press, over a block that cannot meet the
    threshold, while the engine waits. *)
Lemma run_quiet (thr dry : F32.t) (input out : list sample) (l l' : Looper) :
  m_state l = LOOPER_STATE_WAITING_FOR_THRESHOLD ->
  below_or_nan (dbToFloat powf thr) input ->
  run powf thr dry no_buttons input l = Ok (l', out) ->
  m_state l' = LOOPER_STATE_WAITING_FOR_THRESHOLD
  ∧ m_nrOfUsedSamples l' = m_nrOfUsedSamples l
  ∧ m_nrOfDubs l' = m_nrOfDubs l
  ∧ m_dubs l' = m_dubs l.
Proof.
  intros Hs Hb. unfold run.
  assert (updateParameters powf thr dry no_buttons l
          = Ok (with_dryAmount dry (with_threshold (dbToFloat powf thr) l)))
    as -> by reflexivity.
  cbn [mbind result_bind].
  set (l0 := with_dryAmount dry (with_threshold (dbToFloat powf thr) l)).
  assert (m_state l0 = LOOPER_STATE_WAITING_FOR_THRESHOLD) as Hs0
    by (subst l0; by destruct l).
  assert (m_threshold l0 = dbToFloat powf thr) as Ht0
    by (subst l0; by destruct l).
  rewrite (proj2 (state_eqb_false _ _)) by (rewrite Hs0; discriminate).
  intros H.
  destruct (quiet_block input l0 Hs0) as [Hmove _]; [by rewrite Ht0|].
  destruct (Hmove _ _ H) as [z ->]. subst l0. by destruct l.
Qed.

Lemma run_blocks_quiet (thr dry : F32.t) (bs : list block) :
  ∀ (l l' : Looper) (outs : list (list sample)),
    m_state l = LOOPER_STATE_WAITING_FOR_THRESHOLD ->
    quiet_calls (dbToFloat powf thr) bs ->
    run_blocks powf thr dry bs l = Ok (l', outs) ->
    m_state l' = LOOPER_STATE_WAITING_FOR_THRESHOLD
    ∧ m_nrOfUsedSamples l' = m_nrOfUsedSamples l
    ∧ m_nrOfDubs l' = m_nrOfDubs l
    ∧ m_dubs l' = m_dubs l.
Proof.
  induction bs as [|b bs IH]; simpl; intros l l' outs Hs Hq H.
  - by inv_result.
  - apply Forall_cons in Hq as [[Hb Hx] Hq].
    apply bind_Ok in H as ([l1 o1] & H1 & H).
    apply bind_Ok in H as ([l2 o2] & H2 & H). inv_result.
    rewrite Hb in H1.
    destruct (run_quiet _ _ _ _ _ _ Hs Hx H1) as (Hs1 & Hu1 & Hn1 & Hd1).
    destruct (IH _ _ _ Hs1 Hq H2) as (Hs2 & Hu2 & Hn2 & Hd2).
    split; [done|]. split; [congruence|]. split; congruence.
Qed.

End Quiet.

(** The sample that meets the threshold: the loop index becomes the start
    index of the reserved slot, the state RECORDING, and the sample is
    recorded. *)
Lemma trigger_sample (x : sample) (l : Looper) :
  m_state l = LOOPER_STATE_WAITING_FOR_THRESHOLD ->
  F32.geb (peak_spec x) (m_threshold l) = true ->
  0 <= m_nrOfDubs l < NR_OF_DUBS ->
  0 <= m_nrOfUsedSamples l < m_storageSize l ->
  ∃ l1 l2,
    check_threshold (fst x) (snd x) l = Ok l1
    ∧ record (fst x) (snd x) l1 = Ok l2
    ∧ m_state l2 = LOOPER_STATE_RECORDING
    ∧ m_startIndex (slot (m_nrOfDubs l) l2) = m_currentLoopIndex l
    ∧ cell (m_storage1 l2) (m_nrOfUsedSamples l) = fst x
    ∧ cell (m_storage2 l2) (m_nrOfUsedSamples l) = snd x
    ∧ m_nrOfUsedSamples l2 = wrap (m_nrOfUsedSamples l + 1)
    ∧ m_length (slot (m_nrOfDubs l) l2)
      = wrap (m_length (slot (m_nrOfDubs l) l) + 1).
Proof.
  intros Hs Hp Hn Hu.
  assert (threshold_reached (fst x) (snd x) l = true) as Ht
    by (by rewrite threshold_reached_peak, Hp, Hs).
  unfold check_threshold. rewrite Ht.
  rewrite (dub_at_in_range l (m_nrOfDubs l) Hn). simpl.
  eexists. eexists. split; [reflexivity|].
  split; [by apply record_recording|].
  unfold slot, cell, set_dub; simpl.
  rewrite !lookup_insert_eq. simpl. done.
Qed.

Lemma floor_reached (x : sample) (l : Looper) :
  m_state l = LOOPER_STATE_WAITING_FOR_THRESHOLD ->
  m_threshold l = F32.zero ->
  F32.is_nan (fst x) = false ∨ F32.is_nan (snd x) = false ->
  threshold_reached (fst x) (snd x) l = true.
Proof.
  intros Hs Hz Hx. unfold threshold_reached. rewrite Hs, Hz.
  destruct Hx as [Hx|Hx]; rewrite (geb_abs_zero _ Hx); simpl;
    by rewrite ?orb_true_r.
Qed.

Lemma nan_block (input : list sample) (thr : F32.t) :
  Forall (λ x, nan_sample x = true) input -> below_or_nan thr input.
Proof.
  unfold below_or_nan. intros H.
  eapply Forall_impl; [exact H|]. intros x Hx. by right.
Qed.

(** C8.  [dbToFloat] yields 0 at or below -90 dB and
    [powf 10 (db * 0.05)] above.  While waiting, the test of the sample loop
    is the comparison of [max(|in_left|, |in_right|)] with the threshold.
    On a sample that meets or exceeds it the engine stores the loop index
    as the start index of the reserved slot, switches to RECORDING and
    records that very sample.  Over a block in which every peak stays
    strictly below the threshold, or is that of a sample that is NaN on both
    channels, the state stays WAITING_FOR_THRESHOLD and the used-sample
    count, the slots (so the length of the reserved slot) and the arena are
    unchanged, and the block is processed without fault when the active
    dubs lie inside the arena.  [startRecording], when it accepts, arms the
    take with the length of the reserved slot at 0 and the used-sample count
    as it is, and over any number of [run] calls without a press whose
    blocks are of that kind the engine keeps waiting with that length at 0
    and that count.  A sample that is NaN on both channels never meets the
    threshold.  With the threshold at 0 (the -90 dB floor) every sample that
    has a channel other than NaN meets it, and after any run of samples
    that are NaN on both channels the first such sample starts the recording
    and is recorded. *)
Theorem C8_threshold_gating (powf : F32.t -> F32.t -> F32.t) :
  (∀ db,
     (F32.leb db floor_dB = true -> dbToFloat powf db = F32.zero)
     ∧ (F32.leb db floor_dB = false ->
          dbToFloat powf db
          = powf (F32.of_Z 10)
              (F32.mul db (F32.div (F32.of_Z 1) (F32.of_Z 20)))))
  ∧ (∀ x l,
       threshold_reached (fst x) (snd x) l
       = state_eqb (m_state l) LOOPER_STATE_WAITING_FOR_THRESHOLD
         && F32.geb (peak_spec x) (m_threshold l))
  ∧ (∀ x l,
       m_state l = LOOPER_STATE_WAITING_FOR_THRESHOLD ->
       F32.geb (peak_spec x) (m_threshold l) = true ->
       0 <= m_nrOfDubs l < NR_OF_DUBS ->
       0 <= m_nrOfUsedSamples l < m_storageSize l ->
       ∃ l1 l2,
         check_threshold (fst x) (snd x) l = Ok l1
         ∧ record (fst x) (snd x) l1 = Ok l2
         ∧ m_state l2 = LOOPER_STATE_RECORDING
         ∧ m_startIndex (slot (m_nrOfDubs l) l2) = m_currentLoopIndex l
         ∧ cell (m_storage1 l2) (m_nrOfUsedSamples l) = fst x
         ∧ cell (m_storage2 l2) (m_nrOfUsedSamples l) = snd x
         ∧ m_nrOfUsedSamples l2 = wrap (m_nrOfUsedSamples l + 1)
         ∧ m_length (slot (m_nrOfDubs l) l2)
           = wrap (m_length (slot (m_nrOfDubs l) l) + 1))
  ∧ (∀ input l,
       m_state l = LOOPER_STATE_WAITING_FOR_THRESHOLD ->
       below_or_nan (m_threshold l) input ->
       (∀ l' out, run_samples input l = Ok (l', out) ->
          m_state l' = LOOPER_STATE_WAITING_FOR_THRESHOLD
          ∧ m_nrOfUsedSamples l' = m_nrOfUsedSamples l
          ∧ m_nrOfDubs l' = m_nrOfDubs l
          ∧ m_dubs l' = m_dubs l
          ∧ m_storage1 l' = m_storage1 l
          ∧ m_storage2 l' = m_storage2 l
          ∧ m_length (next_slot l') = m_length (next_slot l))
       ∧ (dubs_in_arena l -> is_Ok (run_samples input l)))
  ∧ (∀ thr dry bs l,
       0 <= m_nrOfDubs l < NR_OF_DUBS ->
       m_nrOfUsedSamples l < m_storageSize l ->
       quiet_calls (dbToFloat powf thr) bs ->
       ∃ l1, startRecording l = Ok l1
         ∧ m_state l1 = LOOPER_STATE_WAITING_FOR_THRESHOLD
         ∧ m_nrOfUsedSamples l1 = m_nrOfUsedSamples l
         ∧ m_length (next_slot l1) = 0
         ∧ ∀ l' outs, run_blocks powf thr dry bs l1 = Ok (l', outs) ->
             m_state l' = LOOPER_STATE_WAITING_FOR_THRESHOLD
             ∧ m_nrOfUsedSamples l' = m_nrOfUsedSamples l
             ∧ m_length (next_slot l') = 0)
  ∧ (∀ x l, nan_sample x = true ->
       threshold_reached (fst x) (snd x) l = false)
  ∧ (∀ x l,
       m_state l = LOOPER_STATE_WAITING_FOR_THRESHOLD ->
       m_threshold l = F32.zero ->
       F32.is_nan (fst x) = false ∨ F32.is_nan (snd x) = false ->
       threshold_reached (fst x) (snd x) l = true)
  ∧ (∀ pre x l l0 out,
       m_state l = LOOPER_STATE_WAITING_FOR_THRESHOLD ->
       m_threshold l = F32.zero ->
       Forall (λ y, nan_sample y = true) pre ->
       F32.is_nan (fst x) = false ∨ F32.is_nan (snd x) = false ->
       0 <= m_nrOfDubs l < NR_OF_DUBS ->
       0 <= m_nrOfUsedSamples l < m_storageSize l ->
       run_samples pre l = Ok (l0, out) ->
       ∃ l1 l2,
         check_threshold (fst x) (snd x) l0 = Ok l1
         ∧ record (fst x) (snd x) l1 = Ok l2
         ∧ m_state l2 = LOOPER_STATE_RECORDING
         ∧ cell (m_storage1 l2) (m_nrOfUsedSamples l) = fst x
         ∧ cell (m_storage2 l2) (m_nrOfUsedSamples l) = snd x
         ∧ m_nrOfUsedSamples l2 = wrap (m_nrOfUsedSamples l + 1)).
Proof.
  split; [|split; [|split; [|split; [|split; [|split; [|split]]]]]].
  - intros db. unfold dbToFloat. fold floor_dB.
    destruct (F32.leb db floor_dB); split; done.
  - apply threshold_reached_peak.
  - apply trigger_sample.
  - intros input l Hs Hb.
    destruct (quiet_block input l Hs Hb) as [Hres Hok].
    split; [|done]. intros l' out H.
    destruct (Hres _ _ H) as [z ->]. done.
  - intros thr dry bs l Hn Hu Hq.
    destruct (startRecording_arms l Hn Hu)
      as (l1 & H1 & Hs1 & Hn1 & Hu1 & Hl1 & _).
    exists l1. split; [done|]. split; [done|]. split; [done|].
    split; [done|]. intros l' outs H.
    destruct (run_blocks_quiet powf thr dry bs l1 l' outs Hs1 Hq H)
      as (Hs' & Hu' & Hn' & Hd').
    split; [done|]. split; [congruence|].
    unfold next_slot, slot in *. by rewrite Hd', Hn'.
  - intros x l Hx.
    by rewrite threshold_reached_peak, (nan_not_reached x _ Hx), andb_false_r.
  - apply floor_reached.
  - intros pre x l l0 out Hs Hz Hpre Hx Hn Hu H.
    destruct (quiet_block pre l Hs (nan_block pre _ Hpre)) as [Hres _].
    destruct (Hres _ _ H) as [z ->].
    destruct (trigger_sample x (with_currentLoopIndex z l))
      as (l1 & l2 & Hc & Hr & Hs2 & _ & Hc1 & Hc2 & Hu2 & _);
      [done| |done|done|].
    { pose proof (floor_reached x (with_currentLoopIndex z l) Hs Hz Hx) as Ht.
      rewrite threshold_reached_peak in Ht.
      by apply andb_true_iff in Ht as [_ Ht]. }
    exists l1, l2. done.
Qed.

(** * The engine on concrete blocks *)

(** C1.  A first take of two samples fixes the loop length at 2; two
    samples of playback later the loop index is 2, the loop length itself:
    the wrap test is [m_currentLoopIndex > m_loopLength]. *)
Lemma C1_loop_index_reaches_loop_length :
  (λ l, (m_nrOfDubs l, m_loopLength l, m_currentLoopIndex l))
    <$> final (play take_two_samples)
  = Some (1, 2, 2).
Proof. vm_compute. reflexivity. Qed.

(** C2.  A take of 128 samples of value 1.0: after the fade the first and
    the last stored sample are 0, stored sample 16 is 0.25 and stored
    sample 32 is 0.5: the ramp spans [NR_OF_BLEND_SAMPLES] = 64 samples. *)
Lemma C2_fade_spans_64_samples :
  (λ l, (m_length (slot 0 l),
         cell (m_storage1 l) 0, cell (m_storage1 l) 127,
         cell (m_storage1 l) 16, cell (m_storage1 l) 32))
    <$> final (play take_128_samples)
  = Some (128, F32.zero, F32.zero, quarter, half).
Proof. vm_compute. reflexivity. Qed.

(** C3.  Undo pressed while the second take still waits for the threshold
    leaves the engine waiting on slot 0 with its old length; after that take
    one dub is active and one sample is in use, and Undo followed by Redo
    comes back with three samples in use. *)
Lemma C3_undo_redo_changes_used_samples :
  (λ l, (m_state l, m_nrOfDubs l, m_nrOfUsedSamples l))
    <$> final (play stale_slot_take)
  = Some (LOOPER_STATE_PLAYING, 1, 1)
  ∧ (λ l, (m_state l, m_nrOfDubs l, m_nrOfUsedSamples l))
      <$> final (play (stale_slot_take ++ [(press_undo_redo, [])]))
    = Some (LOOPER_STATE_PLAYING, 1, 3).
Proof. split; vm_compute; reflexivity. Qed.

(** C4.  After a take and an Undo, a Start leaves the redo history in place
    ([m_maxUsedDubs] stays 1), and a Redo in the same block reactivates
    slot 0, which the Start has emptied: a dub of length 0 becomes
    active. *)
Lemma C4_redo_after_start_changes_state :
  (λ l, (m_state l, m_nrOfDubs l, m_maxUsedDubs l))
    <$> final (play (take_then_undo ++ [(press_activate, [])]))
  = Some (LOOPER_STATE_WAITING_FOR_THRESHOLD, 0, 1)
  ∧ (λ l, (m_state l, m_nrOfDubs l, m_maxUsedDubs l, m_length (slot 0 l)))
      <$> final (play (take_then_undo ++ [(press_activate_redo, [])]))
    = Some (LOOPER_STATE_WAITING_FOR_THRESHOLD, 1, 1, 0).
Proof. split; vm_compute; reflexivity. Qed.

(** C9.  At 44.1, 48 and 96 kHz the arena holds 720 seconds of samples per
    channel, twice [STORAGE_MEMORY_SECONDS]: 34560000 samples at 48 kHz,
    not 48000 * 360. *)
Lemma C9_capacity_is_doubled :
  m_storageSize (Looper_new rate48k) = 34560000
  ∧ m_storageSize (Looper_new rate48k) ≠ 48000 * STORAGE_MEMORY_SECONDS
  ∧ Forall (λ r, m_storageSize (Looper_new (F64.of_Z r))
                 = 2 * (r * STORAGE_MEMORY_SECONDS))
      [44100; 48000; 96000].
Proof.
  split; [vm_compute; reflexivity|].
  split; [vm_compute; discriminate|].
  repeat constructor.
Qed.

(** C10.  129 one-sample Dub blocks fill the ledger (128 active dubs).
    After an Undo, a Start reserves slot 127 and a Redo in the same block
    raises the count to 128 while the engine waits for the threshold; the
    next sample is then recorded through [m_dubs[128]]. *)
Lemma C10_slot_index_out_of_range :
  (λ l, (m_state l, m_nrOfDubs l)) <$> final (play fill_ledger)
  = Some (LOOPER_STATE_PLAYING, 128)
  ∧ fault (play (fill_ledger
                 ++ [(press_undo, []); (press_activate_redo, [ones])]))
    = Some (DubIndexOutOfRange 128).
Proof. split; vm_compute; reflexivity. Qed.

(** C8, the used samples, the reserved slot and NaN.  While the engine
    waits for an overdub with the threshold at 0.5, a block of one sample of
    0.25 has its peak strictly below the threshold and leaves the engine
    waiting with two samples in use, not 0.  When Undo was pressed during
    that wait, the same block leaves the engine waiting on a reserved slot
    of length 2, not 0.  With the threshold at the -90 dB floor, a first
    sample that is NaN on both channels does not start the recording: the
    engine still waits, with no sample used and an empty slot 0. *)
Lemma C8_used_samples_and_nan_counterexample :
  m_state waiting_overdub = LOOPER_STATE_WAITING_FOR_THRESHOLD
  ∧ m_threshold waiting_overdub = half
  ∧ F32.ltb (peak_spec (quarter, quarter)) half = true
  ∧ (λ l, (m_state l, m_nrOfUsedSamples l, m_length (next_slot l)))
      <$> final (run_samples [(quarter, quarter)] waiting_overdub)
    = Some (LOOPER_STATE_WAITING_FOR_THRESHOLD, 2, 0)
  ∧ m_state waiting_after_undo = LOOPER_STATE_WAITING_FOR_THRESHOLD
  ∧ m_threshold waiting_after_undo = half
  ∧ (λ l, (m_state l, m_nrOfUsedSamples l, m_length (next_slot l)))
      <$> final (run_samples [(quarter, quarter)] waiting_after_undo)
    = Some (LOOPER_STATE_WAITING_FOR_THRESHOLD, 0, 2)
  ∧ (λ l, (m_state l, m_nrOfUsedSamples l, m_length (slot 0 l)))
      <$> final (play [(press_activate, [nans])])
    = Some (LOOPER_STATE_WAITING_FOR_THRESHOLD, 0, 0).
Proof. repeat split; vm_compute; reflexivity. Qed.

(** C7.  A first take of two samples, started with Activate after an idle
    second and stopped with Reset, leaves one active dub and a loop of
    length 2.  Undo, a Start with Dub and Redo, one call each, bring the
    first dub back with the loop length at 0: the Start has emptied slot 0
    and [redo] still runs while the engine waits for the threshold. *)
Lemma C7_redo_after_start_empties_loop :
  (λ p, (m_nrOfDubs (p_looper p), m_loopLength (p_looper p),
         m_length (slot 0 (p_looper p))))
    <$> value (Plugin_runs powf_unused first_take_calls (Plugin_new rate48k))
  = Some (1, 2, 2)
  ∧ (λ p, (m_nrOfDubs (p_looper p), m_loopLength (p_looper p),
           m_length (slot 0 (p_looper p))))
      <$> value (Plugin_runs powf_unused redo_after_start_calls
                   (Plugin_new rate48k))
    = Some (1, 0, 0).
Proof. split; vm_compute; reflexivity. Qed.

(** * Instances of the general theorems on recorded scenarios *)

Lemma run_blocks_reachable (powf : F32.t -> F32.t -> F32.t)
    (thr dry : F32.t) (bs : list block) :
  ∀ (l l' : Looper) (outs : list (list sample)),
    reachable powf l ->
    run_blocks powf thr dry bs l = Ok (l', outs) ->
    reachable powf l'.
Proof.
  induction bs as [|b bs IH]; simpl; intros l l' outs Hl H.
  - by inv_result.
  - inv_result. destruct r as [l1 o1]. inv_result. destruct r as [l2 o2].
    inv_result. eapply IH; [|done]. by eapply reachable_run.
Qed.

Lemma play_reachable (bs : list block) (l : Looper) :
  final (play bs) = Some l -> reachable powf_unused l.
Proof.
  unfold final, play. intros H.
  destruct (run_blocks _ _ _ bs _) as [[l' outs]|f] eqn:E; [|done].
  injection H as ->.
  eapply run_blocks_reachable; [apply reachable_new | done].
Qed.

(** Undo pressed while the first take records two samples: the take is
    finished, then undone; the loop is cleared and the take can be redone. *)
Lemma C5_undo_witness :
  (if state_eqb (m_state recording_take) LOOPER_STATE_RECORDING
   then finishRecording recording_take else Ok recording_take)
  = Ok finished_take
  ∧ ∃ l', undo recording_take = Ok l'
      ∧ m_nrOfDubs l' = 0
      ∧ m_maxUsedDubs l' = 1
      ∧ m_nrOfUsedSamples l' = 0
      ∧ m_loopLength l' = 0
      ∧ m_currentLoopIndex l' = 0.
Proof.
  assert ((if state_eqb (m_state recording_take) LOOPER_STATE_RECORDING
           then finishRecording recording_take else Ok recording_take)
          = Ok finished_take) as Hpre by (vm_compute; reflexivity).
  split; [exact Hpre|].
  assert (m_nrOfDubs finished_take = 1) as Hn by (vm_compute; reflexivity).
  assert (1 <= m_nrOfDubs finished_take <= NR_OF_DUBS) as Hrange
    by (split; vm_compute; discriminate).
  pose proof (C5_undo_behaviour recording_take finished_take Hpre) as H.
  apply proj2 in H. apply proj2 in H. specialize (H Hrange).
  destruct H as (l' & Hu & Hn' & Hused & Hmax & _ & _ & _ & _ & Hclear & _).
  specialize (Hclear Hn). destruct Hclear as [HL Hidx].
  exists l'. split; [exact Hu|].
  split; [rewrite Hn'; vm_compute; reflexivity|].
  split; [rewrite Hmax; vm_compute; reflexivity|].
  split; [rewrite Hused; vm_compute; reflexivity|].
  split; [exact HL | exact Hidx].
Defined.

(** Start on a full ledger. *)
Lemma C6_start_rejected_witness :
  m_nrOfDubs full_ledger = NR_OF_DUBS
  ∧ startRecording full_ledger = Ok full_ledger
  ∧ onActivate false full_ledger = Ok full_ledger
  ∧ onDub false full_ledger = Ok full_ledger.
Proof.
  assert (m_nrOfDubs full_ledger = NR_OF_DUBS) as Hn
    by (vm_compute; reflexivity).
  split; [exact Hn|].
  destruct (C6_start_rejected_at_capacity full_ledger (or_introl Hn))
    as [Hstart Hpress].
  split; [exact Hstart|].
  apply Hpress. vm_compute. reflexivity.
Defined.

(** The loop length after a first take of two samples. *)
Lemma loop_length_witness :
  1 <= m_nrOfDubs finished_take
  ∧ m_loopLength finished_take = m_length (slot 0 finished_take).
Proof.
  assert (1 <= m_nrOfDubs finished_take) as Hn
    by (vm_compute; discriminate).
  split; [exact Hn|].
  apply (proj1 (loop_length_is_first_dub powf_unused)); [|exact Hn].
  apply (play_reachable
           [(press_activate, [ones; ones]); (press_activate, [])]).
  vm_compute. reflexivity.
Defined.

(** Waiting for the first take: at the floor a sample of 1.0 starts the
    recording; with the threshold at 0.5 a block of samples of 0.25 leaves
    the engine waiting; a second take armed after the first keeps waiting
    over a call of NaN samples, with two samples in use and an empty
    reserved slot. *)
Lemma C8_threshold_witness :
  m_state waiting_first = LOOPER_STATE_WAITING_FOR_THRESHOLD
  ∧ m_threshold waiting_first = F32.zero
  ∧ threshold_reached F32.one F32.one waiting_first = true
  ∧ below_threshold half [(quarter, quarter); (quarter, quarter)]
  ∧ dubs_in_arena (with_threshold half waiting_first)
  ∧ is_Ok (run_samples [(quarter, quarter); (quarter, quarter)]
             (with_threshold half waiting_first))
  ∧ quiet_calls (dbToFloat powf_unused floor_dB) [(no_buttons, [nans])]
  ∧ ∃ l1, startRecording finished_take = Ok l1
      ∧ m_state l1 = LOOPER_STATE_WAITING_FOR_THRESHOLD
      ∧ m_nrOfUsedSamples l1 = m_nrOfUsedSamples finished_take
      ∧ m_length (next_slot l1) = 0
      ∧ ∀ l' outs,
          run_blocks powf_unused floor_dB F32.zero [(no_buttons, [nans])] l1
          = Ok (l', outs) ->
          m_state l' = LOOPER_STATE_WAITING_FOR_THRESHOLD
          ∧ m_nrOfUsedSamples l' = m_nrOfUsedSamples finished_take
          ∧ m_length (next_slot l') = 0.
Proof.
  assert (m_state waiting_first = LOOPER_STATE_WAITING_FOR_THRESHOLD) as Hs
    by (vm_compute; reflexivity).
  assert (m_threshold waiting_first = F32.zero) as Hz
    by (vm_compute; reflexivity).
  assert (below_threshold half [(quarter, quarter); (quarter, quarter)])
    as Hb by (repeat constructor).
  assert (dubs_in_arena (with_threshold half waiting_first)) as Hd.
  { split; [vm_compute; split; discriminate|].
    split; [vm_compute; discriminate|].
    intros t Ht. exfalso. revert Ht.
    change (m_nrOfDubs (with_threshold half waiting_first)) with 0. lia. }
  assert (quiet_calls (dbToFloat powf_unused floor_dB)
            [(no_buttons, [nans])]) as Hq.
  { constructor; [|constructor]. split; [reflexivity|].
    constructor; [|constructor]. right. reflexivity. }
  assert (0 <= m_nrOfDubs finished_take < NR_OF_DUBS) as Hn
    by (vm_compute; split; [discriminate | reflexivity]).
  assert (m_nrOfUsedSamples finished_take < m_storageSize finished_take)
    as Hu by (vm_compute; reflexivity).
  pose proof (C8_threshold_gating powf_unused) as H.
  destruct H as (_ & _ & _ & Hblock & Harm & _ & Hfloor & _).
  split; [exact Hs|]. split; [exact Hz|].
  split; [apply (Hfloor ones waiting_first Hs Hz); left; reflexivity|].
  split; [exact Hb|]. split; [exact Hd|].
  split; [apply (Hblock _ (with_threshold half waiting_first) Hs
                   (below_or_nan_below _ _ Hb)); exact Hd|].
  split; [exact Hq|].
  exact (Harm floor_dB F32.zero [(no_buttons, [nans])] finished_take
           Hn Hu Hq).
Defined.


(** * Further properties of the engine *)

(** ** Invariants of the reachable states *)

(** A property kept by the commands and by the steps of the sample loop
    holds in every reachable state. *)
Section Invariant.

Variable P : Looper -> Prop.
Hypothesis P_new : ∀ rate, P (Looper_new rate).
Hypothesis P_threshold : ∀ v l, P l -> P (with_threshold v l).
Hypothesis P_dryAmount : ∀ v l, P l -> P (with_dryAmount v l).
Hypothesis P_reset : ∀ l, P l -> P (reset l).
Hypothesis P_start : ∀ l l', startRecording l = Ok l' -> P l -> P l'.
Hypothesis P_finish : ∀ l l', finishRecording l = Ok l' -> P l -> P l'.
Hypothesis P_undo_core : ∀ l l', undo_core l = Ok l' -> P l -> P l'.
Hypothesis P_redo : ∀ l l', redo l = Ok l' -> P l -> P l'.
Hypothesis P_check :
  ∀ in1 in2 l l', check_threshold in1 in2 l = Ok l' -> P l -> P l'.
Hypothesis P_record : ∀ in1 in2 l l', record in1 in2 l = Ok l' -> P l -> P l'.
Hypothesis P_step :
  ∀ l, 0 < m_nrOfDubs l -> P l ->
       P (with_currentLoopIndex (wrap (m_currentLoopIndex l + 1)) l).
Hypothesis P_wrap : ∀ l, P l -> P (with_currentLoopIndex 0 l).

Lemma undo_preserves (l l' : Looper) : undo l = Ok l' -> P l -> P l'.
Proof.
  unfold undo. intros H Hp. apply bind_Ok in H as (l1 & H1 & H).
  apply (P_undo_core l1); [done|].
  destruct (state_eqb _ _); [by apply (P_finish l) | by inv_result].
Qed.

Lemma advance_preserves (l l' : Looper) : advance l = Ok l' -> P l -> P l'.
Proof.
  unfold advance. intros H Hp.
  set (l0 := if 0 <? m_nrOfDubs l
             then with_currentLoopIndex (wrap (m_currentLoopIndex l + 1)) l
             else l) in *.
  assert (P l0) as H0.
  { subst l0. destruct (Z.ltb_spec 0 (m_nrOfDubs l)); [by apply P_step|done]. }
  destruct (_ || _); [|by inv_result].
  destruct (state_eqb _ _); [|inv_result; by apply P_wrap].
  apply bind_Ok in H as (lf & Hf & H).
  assert (P lf) as H1 by (apply (P_finish _ _ Hf); by apply P_wrap).
  destruct (1 <? m_nrOfDubs lf); [by apply (P_start lf) | by inv_result].
Qed.

Lemma run_sample_preserves (x : sample) (l l' : Looper) (out : sample) :
  run_sample x l = Ok (l', out) -> P l -> P l'.
Proof.
  unfold run_sample. intros H Hp.
  apply bind_Ok in H as (l1 & H1 & H). apply bind_Ok in H as (l2 & H2 & H).
  apply bind_Ok in H as (o & H3 & H). apply bind_Ok in H as (l3 & H4 & H).
  inv_result. apply (advance_preserves l2); [done|].
  apply (P_record _ _ _ _ H2). by apply (P_check _ _ _ _ H1).
Qed.

Lemma run_samples_preserves (input : list sample) :
  ∀ (l l' : Looper) (out : list sample),
    run_samples input l = Ok (l', out) -> P l -> P l'.
Proof.
  induction input as [|x input IH]; simpl; intros l l' out H Hp.
  - by inv_result.
  - apply bind_Ok in H as ([l1 o1] & H1 & H).
    apply bind_Ok in H as ([l2 o2] & H2 & H). inv_result.
    eapply IH; [done|]. by eapply run_sample_preserves.
Qed.

Lemma callbacks_preserve (dc : bool) (l l' : Looper) :
  (onActivate dc l = Ok l' ∨ onReset dc l = Ok l' ∨ onDub dc l = Ok l') ->
  P l -> P l'.
Proof.
  unfold onActivate, onReset, onDub. intros H Hp.
  destruct dc; [destruct H as [H|[H|H]]; inv_result; by apply P_reset|].
  destruct H as [H|[H|H]].
  - destruct (recording_or_waiting l);
      [by apply (P_finish l) | by apply (P_start l)].
  - destruct (recording_or_waiting l);
      [by apply (P_finish l) | by apply (undo_preserves l)].
  - apply bind_Ok in H as (l1 & H1 & H). apply (P_start l1); [done|].
    destruct (recording_or_waiting l);
      [by apply (P_finish l) | by inv_result].
Qed.

Lemma updateParameters_preserves (powf : F32.t -> F32.t -> F32.t)
    (thr dry : F32.t) (b : Buttons) (l l' : Looper) :
  updateParameters powf thr dry b l = Ok l' -> P l -> P l'.
Proof.
  unfold updateParameters, when_pressed, when_set, onUndo, onRedo.
  intros H Hp.
  apply bind_Ok in H as (l1 & H1 & H). apply bind_Ok in H as (l2 & H2 & H).
  apply bind_Ok in H as (l3 & H3 & H). apply bind_Ok in H as (l4 & H4 & H).
  assert (P l1) as Hp1.
  { destruct (b_activate b) as [dc|].
    - eapply (callbacks_preserve dc); [left; exact H1|].
      by apply P_dryAmount, P_threshold.
    - inv_result. by apply P_dryAmount, P_threshold. }
  assert (P l2) as Hp2.
  { destruct (b_reset b) as [dc|]; [|by inv_result].
    apply (callbacks_preserve dc l1 l2); [right; by left | done]. }
  assert (P l3) as Hp3.
  { destruct (b_undo b); [by apply (undo_preserves l2) | by inv_result]. }
  assert (P l4) as Hp4.
  { destruct (b_redo b); [by apply (P_redo l3) | by inv_result]. }
  destruct (b_dub b) as [dc|]; [|by inv_result].
  apply (callbacks_preserve dc l4 l'); [right; by right | done].
Qed.

Lemma run_preserves (powf : F32.t -> F32.t -> F32.t) (thr dry : F32.t)
    (b : Buttons) (input out : list sample) (l l' : Looper) :
  run powf thr dry b input l = Ok (l', out) -> P l -> P l'.
Proof.
  unfold run. intros H Hp. apply bind_Ok in H as (l1 & H1 & H).
  apply updateParameters_preserves in H1; [|done].
  destruct (state_eqb _ _); [by inv_result|].
  by eapply run_samples_preserves.
Qed.

Lemma reachable_preserves (powf : F32.t -> F32.t -> F32.t) (l : Looper) :
  reachable powf l -> P l.
Proof.
  induction 1 as [rate|l l' thr dry b input out _ IH H];
    [apply P_new | by eapply run_preserves].
Qed.

End Invariant.

Lemma finishRecording_counters (l l' : Looper) :
  finishRecording l = Ok l' ->
  (m_nrOfDubs l' = m_nrOfDubs l ∧ m_maxUsedDubs l' = m_maxUsedDubs l
   ∧ m_loopLength l' = m_loopLength l
   ∧ m_currentLoopIndex l' = m_currentLoopIndex l)
  ∨ (0 <= m_nrOfDubs l < NR_OF_DUBS
     ∧ m_nrOfDubs l' = m_nrOfDubs l + 1
     ∧ m_maxUsedDubs l' = m_nrOfDubs l + 1).
Proof.
  intros H.
  destruct (decide (m_state l = LOOPER_STATE_WAITING_FOR_THRESHOLD)) as [E|E].
  - rewrite (finishRecording_waiting _ E) in H. inv_result. by left.
  - apply (finishRecording_commit _ _ E) in H.
    destruct H as (Hn & _ & Hn' & Hm & _). by right.
Qed.

Lemma undo_core_counters (l l' : Looper) :
  undo_core l = Ok l' ->
  l' = l
  ∨ (m_nrOfDubs l ≠ 0
     ∧ 0 <= wrap (m_nrOfDubs l - 1) < NR_OF_DUBS
     ∧ m_nrOfDubs l' = wrap (m_nrOfDubs l - 1)
     ∧ m_maxUsedDubs l' = m_maxUsedDubs l
     ∧ (m_nrOfDubs l' = 0 ->
          m_loopLength l' = 0 ∧ m_currentLoopIndex l' = 0)).
Proof.
  unfold undo_core. intros H.
  destruct (Z.eqb_spec (m_nrOfDubs l) 0); [left; by inv_result|]. right.
  inv_result. apply dub_at_Ok in Hr as [Hn ->]. simpl in *.
  destruct (Z.eqb_spec (wrap (m_nrOfDubs l - 1)) 0) as [E|E];
    inv_result; simpl; repeat split; try lia; try done.
Qed.

Lemma redo_counters (l l' : Looper) :
  redo l = Ok l' ->
  l' = l
  ∨ (m_nrOfDubs l ≠ m_maxUsedDubs l
     ∧ 0 <= m_nrOfDubs l < NR_OF_DUBS
     ∧ m_nrOfDubs l' = m_nrOfDubs l + 1
     ∧ m_maxUsedDubs l' = m_maxUsedDubs l).
Proof.
  intros H. pose proof (redo_effect _ _ H) as [->|(Hn & Hn' & _)];
    [by left|].
  right. revert H. unfold redo.
  destruct (state_eqb _ _); [intros H; inv_result; lia|].
  destruct (Z.eqb_spec (m_nrOfDubs l) (m_maxUsedDubs l));
    [intros H; inv_result; lia|].
  intros H. inv_result. repeat split; try done; try lia.
  simpl. by destruct (_ =? 0).
Qed.

Lemma check_threshold_counters (in1 in2 : F32.t) (l l' : Looper) :
  check_threshold in1 in2 l = Ok l' ->
  m_nrOfDubs l' = m_nrOfDubs l ∧ m_maxUsedDubs l' = m_maxUsedDubs l
  ∧ m_loopLength l' = m_loopLength l
  ∧ m_currentLoopIndex l' = m_currentLoopIndex l.
Proof.
  unfold check_threshold.
  destruct (threshold_reached _ _ _); intros H; by inv_result.
Qed.

Lemma record_counters (in1 in2 : F32.t) (l l' : Looper) :
  record in1 in2 l = Ok l' ->
  m_nrOfDubs l' = m_nrOfDubs l ∧ m_maxUsedDubs l' = m_maxUsedDubs l
  ∧ m_loopLength l' = m_loopLength l
  ∧ m_currentLoopIndex l' = m_currentLoopIndex l.
Proof.
  unfold record. destruct (state_eqb _ _); intros H; by inv_result.
Qed.

Lemma startRecording_loop (l l' : Looper) :
  startRecording l = Ok l' ->
  m_loopLength l' = m_loopLength l
  ∧ m_currentLoopIndex l' = m_currentLoopIndex l.
Proof.
  unfold startRecording. intros H.
  destruct (NR_OF_DUBS <=? m_nrOfDubs l); [by inv_result|].
  destruct (m_storageSize l <=? m_nrOfUsedSamples l); [by inv_result|].
  by inv_result.
Qed.

(** The active count, the redo horizon and the capacity stay ordered. *)
Theorem ledger_counters_ordered (powf : F32.t -> F32.t -> F32.t) (l : Looper) :
  reachable powf l ->
  0 <= m_nrOfDubs l <= m_maxUsedDubs l ∧ m_maxUsedDubs l <= NR_OF_DUBS.
Proof.
  apply (reachable_preserves ledger_counters_inv); unfold ledger_counters_inv.
  - intros rate. simpl. unfold NR_OF_DUBS. lia.
  - done.
  - done.
  - intros l0 _. simpl. unfold NR_OF_DUBS. lia.
  - intros l0 l' H Hp. apply startRecording_counters in H as [-> ->]. done.
  - intros l0 l' H Hp.
    apply finishRecording_counters in H as [(-> & -> & _)|(Hn & -> & ->)];
      [done | lia].
  - intros l0 l' H Hp.
    apply undo_core_counters in H as [->|(Hn & Hr & -> & -> & _)]; [done|].
    rewrite wrap_small in * by (unfold NR_OF_DUBS, SIZE_BITS in *; lia). lia.
  - intros l0 l' H Hp.
    apply redo_counters in H as [->|(Hne & Hn & -> & ->)]; [done | lia].
  - intros in1 in2 l0 l' H Hp.
    apply check_threshold_counters in H as (-> & -> & _). done.
  - intros in1 in2 l0 l' H Hp.
    apply record_counters in H as (-> & -> & _). done.
  - done.
  - done.
Qed.

(** While no dub is active the loop length and the loop index are 0. *)
Theorem empty_ledger_has_no_loop (powf : F32.t -> F32.t -> F32.t) (l : Looper) :
  reachable powf l ->
  m_nrOfDubs l = 0 ->
  m_loopLength l = 0 ∧ m_currentLoopIndex l = 0.
Proof.
  apply (reachable_preserves empty_ledger_inv); unfold empty_ledger_inv.
  - done.
  - done.
  - done.
  - done.
  - intros l0 l' H Hp Hn.
    pose proof (startRecording_counters _ _ H) as [Hn' _].
    apply startRecording_loop in H as [-> ->]. apply Hp. congruence.
  - intros l0 l' H Hp Hn.
    apply finishRecording_counters in H
      as [(Hn' & _ & -> & ->)|(Hr & Hn' & _)]; [apply Hp; congruence | lia].
  - intros l0 l' H Hp Hn.
    apply undo_core_counters in H as [->|(_ & _ & _ & _ & H)]; auto.
  - intros l0 l' H Hp Hn.
    apply redo_counters in H as [->|(_ & Hr & Hn' & _)]; [auto | lia].
  - intros in1 in2 l0 l' H Hp Hn.
    apply check_threshold_counters in H as (Hn' & _ & -> & ->).
    apply Hp. congruence.
  - intros in1 in2 l0 l' H Hp Hn.
    apply record_counters in H as (Hn' & _ & -> & ->). apply Hp. congruence.
  - intros l0 Hpos _ Hn. simpl in Hn. lia.
  - intros l0 Hp Hn. simpl in *. split; [by apply Hp | done].
Qed.

(** ** Playback *)

Lemma mix_is_sum (l : Looper) :
  dubs_in_arena l ->
  ∀ (fuel : nat) (t : Z) (out : sample),
    0 <= t -> t + Z.of_nat fuel <= m_nrOfDubs l ->
    mix fuel t l out
    = Ok (foldl (add_dub l) out
            (List.filter (in_window (m_currentLoopIndex l))
               (map (λ t, slot t l) (seqZ t (Z.of_nat fuel))))).
Proof.
  intros (Hn & Hsize & Hd).
  induction fuel as [|fuel IH]; intros t out Ht Hf; [done|].
  rewrite Nat2Z.inj_succ, seqZ_cons by lia. simpl.
  rewrite (dub_at_in_range l t) by lia. simpl.
  destruct (Hd t) as (Hs & Hl & Hsl & Ho & Hol); [lia|].
  assert (wrap (t + 1) = t + 1) as ->
    by (apply wrap_small; unfold NR_OF_DUBS, SIZE_BITS in *; lia).
  replace (Z.succ t) with (t + 1) by lia.
  replace (Z.pred (Z.succ (Z.of_nat fuel))) with (Z.of_nat fuel) by lia.
  unfold in_window at 1.
  destruct (Z.ltb_spec (m_currentLoopIndex l) (m_startIndex (slot t l)))
    as [Hlt|Hge].
  { destruct (Z.leb_spec (m_startIndex (slot t l)) (m_currentLoopIndex l));
      [lia|]. simpl. apply IH; lia. }
  destruct (Z.leb_spec (m_startIndex (slot t l)) (m_currentLoopIndex l));
    [|lia]. simpl.
  rewrite (wrap_small (m_startIndex (slot t l) + m_length (slot t l))) by lia.
  destruct (Z.leb_spec (m_startIndex (slot t l) + m_length (slot t l))
              (m_currentLoopIndex l)) as [Hout|Hin].
  { destruct (Z.ltb_spec (m_currentLoopIndex l)
                (m_startIndex (slot t l) + m_length (slot t l))); [lia|].
    apply IH; lia. }
  destruct (Z.ltb_spec (m_currentLoopIndex l)
              (m_startIndex (slot t l) + m_length (slot t l))); [|lia].
  rewrite (wrap_small (m_currentLoopIndex l - m_startIndex (slot t l)))
    by lia.
  rewrite wrap_small by lia.
  set (i := m_storageOffset (slot t l)
            + (m_currentLoopIndex l - m_startIndex (slot t l))).
  rewrite (bind_Ok_l _ _ (cell (m_storage1 l) i))
    by (apply load_Ok; subst i; split; [lia | done]).
  rewrite (bind_Ok_l _ _ (cell (m_storage2 l) i))
    by (apply load_Ok; subst i; split; [lia | done]).
  simpl. rewrite IH by lia. reflexivity.
Qed.

(** The output sample is the dry signal plus, in slot order, the stored
    sample of each active dub whose window holds the loop index; a dub
    outside its window adds nothing. *)
Theorem playback_is_windowed_sum (in1 in2 : F32.t) (l : Looper) :
  dubs_in_arena l ->
  playback in1 in2 l = Ok (playback_sum in1 in2 l).
Proof.
  intros H. unfold playback, playback_sum, active_dubs.
  pose proof H as (Hn & _).
  rewrite (mix_is_sum l H); [|lia|lia]. by rewrite Z2Nat.id by lia.
Qed.

Lemma idle_sample (x : sample) (l : Looper) :
  m_state l = LOOPER_STATE_PLAYING ->
  (∀ l' out, run_sample x l = Ok (l', out) ->
     ∃ z, l' = with_currentLoopIndex z l)
  ∧ (dubs_in_arena l -> is_Ok (run_sample x l)).
Proof.
  intros Hs.
  assert (check_threshold (fst x) (snd x) l = Ok l) as Hc.
  { unfold check_threshold, threshold_reached. by rewrite Hs. }
  assert (record (fst x) (snd x) l = Ok l) as Hrec.
  { unfold record. by rewrite Hs. }
  destruct (advance_idle l) as [z Hz]; [by rewrite Hs|].
  unfold run_sample. rewrite Hc. simpl. rewrite Hrec. simpl. split.
  - intros l' out H. inv_result. rewrite Hz in Hr0. inv_result. by exists z.
  - intros Hd. destruct (playback_in_range (fst x) (snd x) l Hd) as [o ->].
    simpl. rewrite Hz. simpl. by eexists.
Qed.

(** While PLAYING the sample loop moves the loop index and nothing else:
    it records nothing, and it stays in range when the active dubs lie
    inside the arena. *)
Theorem playing_only_moves_index (input : list sample) :
  ∀ l : Looper,
    m_state l = LOOPER_STATE_PLAYING ->
    (∀ l' out, run_samples input l = Ok (l', out) ->
       ∃ z, l' = with_currentLoopIndex z l)
    ∧ (dubs_in_arena l -> is_Ok (run_samples input l)).
Proof.
  induction input as [|x input IH]; intros l Hs; simpl.
  - split; [|by eexists]. intros l' out [= <- <-].
    exists (m_currentLoopIndex l). by destruct l.
  - destruct (idle_sample x l Hs) as [Hstep Hok]. split.
    + intros l' out H. apply bind_Ok in H as ([l1 o1] & H1 & H).
      apply bind_Ok in H as ([l2 o2] & H2 & H). inv_result.
      destruct (Hstep _ _ H1) as [z ->].
      destruct (IH (with_currentLoopIndex z l) Hs) as [Hrest _].
      destruct (Hrest _ _ H2) as [z' ->]. by exists z'.
    + intros Hd. destruct (Hok Hd) as [[l1 o1] H1]. rewrite H1. simpl.
      destruct (Hstep _ _ H1) as [z ->].
      destruct (IH (with_currentLoopIndex z l) Hs) as [_ Hrest].
      destruct (Hrest (dubs_in_arena_index z l Hd)) as [[l2 o2] ->].
      simpl. by eexists.
Qed.

Lemma run_samples_length (input : list sample) :
  ∀ (l l' : Looper) (out : list sample),
    run_samples input l = Ok (l', out) -> length out = length input.
Proof.
  induction input as [|x input IH]; simpl; intros l l' out H.
  - by inv_result.
  - apply bind_Ok in H as ([l1 o1] & H1 & H).
    apply bind_Ok in H as ([l2 o2] & H2 & H). inv_result. simpl.
    f_equal. by eapply IH.
Qed.

(** A block that is processed yields one output sample per input sample,
    whatever the presses and the state. *)
Theorem run_output_length (powf : F32.t -> F32.t -> F32.t) (thr dry : F32.t)
    (b : Buttons) (input out : list sample) (l l' : Looper) :
  run powf thr dry b input l = Ok (l', out) ->
  length out = length input.
Proof.
  unfold run. intros H. apply bind_Ok in H as (l1 & H1 & H).
  destruct (state_eqb _ _).
  - inv_result. by rewrite length_map.
  - by eapply run_samples_length.
Qed.

(** With the arena exhausted, a sample step while PLAYING leaves the loop
    index at 0: playback does not advance. *)
Theorem full_arena_pins_index (x : sample) (l : Looper) :
  m_state l = LOOPER_STATE_PLAYING ->
  m_storageSize l <= m_nrOfUsedSamples l ->
  dubs_in_arena l ->
  run_sample x l
  = Ok (with_currentLoopIndex 0 l, playback_sum (fst x) (snd x) l).
Proof.
  intros Hs Hfull Hd.
  assert (check_threshold (fst x) (snd x) l = Ok l) as Hc.
  { unfold check_threshold, threshold_reached. by rewrite Hs. }
  assert (record (fst x) (snd x) l = Ok l) as Hrec.
  { unfold record. by rewrite Hs. }
  unfold run_sample. rewrite Hc. simpl. rewrite Hrec. simpl.
  assert (playback (fst x) (snd x) l
          = Ok (playback_sum (fst x) (snd x) l)) as ->.
  { unfold playback, playback_sum, active_dubs. pose proof Hd as (Hn & _).
    rewrite (mix_is_sum l Hd); [|lia|lia]. by rewrite Z2Nat.id by lia. }
  simpl.
  unfold advance.
  assert (∀ l0 : Looper, m_storageSize l0 = m_storageSize l ->
            m_nrOfUsedSamples l0 = m_nrOfUsedSamples l ->
            (m_storageSize l0 <=? m_nrOfUsedSamples l0) = true) as Hfull'
    by (intros l0 -> ->; by apply Z.leb_le).
  destruct (0 <? m_nrOfDubs l); rewrite Hfull' by done;
    rewrite orb_true_r; simpl; rewrite Hs; simpl; reflexivity.
Qed.

(** ** The fade *)

Lemma cell_insert (st : gmap Z F32.t) (i j : Z) (v : F32.t) :
  cell (<[i := v]> st) j = if decide (i = j) then v else cell st j.
Proof.
  unfold cell. destruct (decide (i = j)) as [->|E].
  - by rewrite lookup_insert_eq.
  - by rewrite lookup_insert_ne.
Qed.

Lemma scale1_in_range (i : Z) (f : F32.t) (l : Looper) :
  0 <= i < m_storageSize l ->
  scale1 i f l
  = Ok (with_storage1 (<[i := F32.mul (cell (m_storage1 l) i) f]>
                         (m_storage1 l)) l).
Proof.
  intros H. unfold scale1.
  rewrite (bind_Ok_l _ _ (cell (m_storage1 l) i)) by (by apply load_Ok).
  simpl. by rewrite (bind_Ok_l _ _ _ (proj2 (store_Ok _ _ _ _ _) (conj H eq_refl))).
Qed.

Lemma scale2_in_range (i : Z) (f : F32.t) (l : Looper) :
  0 <= i < m_storageSize l ->
  scale2 i f l
  = Ok (with_storage2 (<[i := F32.mul (cell (m_storage2 l) i) f]>
                         (m_storage2 l)) l).
Proof.
  intros H. unfold scale2.
  rewrite (bind_Ok_l _ _ (cell (m_storage2 l) i)) by (by apply load_Ok).
  simpl. by rewrite (bind_Ok_l _ _ _ (proj2 (store_Ok _ _ _ _ _) (conj H eq_refl))).
Qed.

(** One pass of the fade loop: [fuel] cells from [a] upward and [fuel]
    cells from [b] downward are scaled; when the two runs do not meet,
    step [j] scales each of its two cells once, by the factor of [s + j]. *)
Lemma blend_effect (length : Z) (fuel : nat) :
  ∀ (s a b : Z) (l : Looper),
    m_storageSize l < 2 ^ SIZE_BITS ->
    0 <= s -> s + Z.of_nat fuel < 2 ^ SIZE_BITS ->
    fuel = O ∨ (0 <= a ∧ a + Z.of_nat fuel <= m_storageSize l
                ∧ Z.of_nat fuel - 1 <= b ∧ b < m_storageSize l) ->
    ∃ l', blend length fuel s a b l = Ok l'
      ∧ control l' = control l
      ∧ (∀ i, ¬ (a <= i < a + Z.of_nat fuel) ->
              ¬ (b - Z.of_nat fuel < i <= b) ->
              cell (m_storage1 l') i = cell (m_storage1 l) i
              ∧ cell (m_storage2 l') i = cell (m_storage2 l) i)
      ∧ (a + Z.of_nat fuel <= b - Z.of_nat fuel + 1 ->
         ∀ j, 0 <= j < Z.of_nat fuel ->
           cell (m_storage1 l') (a + j)
           = F32.mul (cell (m_storage1 l) (a + j)) (fade_factor (s + j) length)
           ∧ cell (m_storage2 l') (a + j)
             = F32.mul (cell (m_storage2 l) (a + j))
                 (fade_factor (s + j) length)
           ∧ cell (m_storage1 l') (b - j)
             = F32.mul (cell (m_storage1 l) (b - j))
                 (fade_factor (s + j) length)
           ∧ cell (m_storage2 l') (b - j)
             = F32.mul (cell (m_storage2 l) (b - j))
                 (fade_factor (s + j) length)).
Proof.
  induction fuel as [|fuel IH]; intros s a b l Hsize Hs Hsf Hab.
  - exists l. simpl. split; [done|]. split; [done|]. split; [done|].
    intros _ k Hk. lia.
  - destruct Hab as [Hab|(Ha & Haf & Hb & Hbs)]; [discriminate|].
    rewrite Nat2Z.inj_succ in *. cbn [blend].
    fold (fade_factor s length). set (f := fade_factor s length).
    rewrite (scale1_in_range a f l) by lia. simpl.
    set (l1 := with_storage1 _ l).
    rewrite (scale2_in_range a f l1) by (simpl; lia). simpl.
    set (l2 := with_storage2 _ l1).
    rewrite (scale1_in_range b f l2) by (simpl; lia). simpl.
    set (l3 := with_storage1 _ l2).
    rewrite (scale2_in_range b f l3) by (simpl; lia). simpl.
    set (l4 := with_storage2 _ l3).
    assert (∀ i, i ≠ a -> i ≠ b ->
              cell (m_storage1 l4) i = cell (m_storage1 l) i
              ∧ cell (m_storage2 l4) i = cell (m_storage2 l) i) as F1.
    { intros i Hia Hib. subst l4 l3 l2 l1. simpl.
      rewrite !cell_insert.
      destruct (decide (b = i)); [congruence|].
      destruct (decide (a = i)); [congruence|]. done. }
    assert (a ≠ b ->
            cell (m_storage1 l4) a = F32.mul (cell (m_storage1 l) a) f
            ∧ cell (m_storage2 l4) a = F32.mul (cell (m_storage2 l) a) f
            ∧ cell (m_storage1 l4) b = F32.mul (cell (m_storage1 l) b) f
            ∧ cell (m_storage2 l4) b = F32.mul (cell (m_storage2 l) b) f)
      as F2.
    { intros Hne. subst l4 l3 l2 l1. simpl.
      rewrite !cell_insert.
      destruct (decide (b = a)); [congruence|].
      destruct (decide (a = a)); [|congruence].
      destruct (decide (b = b)); [|congruence].
      destruct (decide (a = b)); [congruence|]. done. }
    assert (wrap (s + 1) = s + 1) as -> by (apply wrap_small; lia).
    assert (wrap (a + 1) = a + 1) as -> by (apply wrap_small; lia).
    assert (fuel = O ∨ wrap (b - 1) = b - 1) as Hb'.
    { destruct fuel; [by left|]. right. apply wrap_small.
      rewrite Nat2Z.inj_succ in *. lia. }
    set (b' := wrap (b - 1)) in *.
    destruct (IH (s + 1) (a + 1) b' l4) as (l' & Hrun & Hctl & Hframe & Hval).
    { done. }
    { lia. }
    { lia. }
    { destruct Hb' as [->|Hb']; [by left|]. right. rewrite Hb'.
      simpl; lia. }
    exists l'. split; [exact Hrun|]. split; [by rewrite Hctl|]. split.
    + intros i Hia Hib.
      destruct (Hframe i) as [E1 E2].
      { lia. }
      { destruct Hb' as [->|Hb']; [simpl; lia | rewrite Hb'; lia]. }
      destruct (F1 i) as [E3 E4]; [lia | lia |]. split; congruence.
    + intros Hdis k Hk.
      destruct (decide (k = 0)) as [->|Hk0].
      * rewrite !Z.add_0_r, !Z.sub_0_r. fold f.
        destruct F2 as (Ea1 & Ea2 & Eb1 & Eb2); [lia|].
        destruct (Hframe a) as [E1 E2].
        { lia. }
        { destruct Hb' as [->|Hb']; [simpl; lia | rewrite Hb'; lia]. }
        destruct (Hframe b) as [E3 E4].
        { lia. }
        { destruct Hb' as [->|Hb']; [simpl; lia | rewrite Hb'; lia]. }
        repeat split; congruence.
      * assert (wrap (b - 1) = b - 1) as Hb''
          by (destruct Hb' as [->|Hb']; [simpl in Hk; lia | done]).
        subst b'. rewrite Hb'' in *.
        destruct (Hval ltac:(lia) (k - 1) ltac:(lia)) as (V1 & V2 & V3 & V4).
        replace (a + 1 + (k - 1)) with (a + k) in * by lia.
        replace (b - 1 - (k - 1)) with (b - k) in * by lia.
        replace (s + 1 + (k - 1)) with (s + k) in * by lia.
        destruct (F1 (a + k)) as [E1 E2]; [lia | lia |].
        destruct (F1 (b - k)) as [E3 E4]; [lia | lia |].
        repeat split; congruence.
Qed.

Lemma finishRecording_fade (l : Looper) :
  m_state l ≠ LOOPER_STATE_WAITING_FOR_THRESHOLD ->
  take_in_arena l ->
  ∃ l', finishRecording l = Ok l'
    ∧ (∀ i,
         ¬ (m_storageOffset (next_slot l) <= i
            < m_storageOffset (next_slot l)
              + fade_span (m_length (next_slot l))) ->
         ¬ (m_storageOffset (next_slot l) + m_length (next_slot l)
            - fade_span (m_length (next_slot l)) <= i
            < m_storageOffset (next_slot l) + m_length (next_slot l)) ->
         cell (m_storage1 l') i = cell (m_storage1 l) i
         ∧ cell (m_storage2 l') i = cell (m_storage2 l) i)
    ∧ (2 * fade_span (m_length (next_slot l)) <= m_length (next_slot l) ->
       ∀ j, 0 <= j < fade_span (m_length (next_slot l)) ->
         let f := fade_factor j (fade_span (m_length (next_slot l))) in
         let a := m_storageOffset (next_slot l) + j in
         let b := m_storageOffset (next_slot l) + m_length (next_slot l)
                  - 1 - j in
         cell (m_storage1 l') a = F32.mul (cell (m_storage1 l) a) f
         ∧ cell (m_storage2 l') a = F32.mul (cell (m_storage2 l) a) f
         ∧ cell (m_storage1 l') b = F32.mul (cell (m_storage1 l) b) f
         ∧ cell (m_storage2 l') b = F32.mul (cell (m_storage2 l) b) f).
Proof.
  intros Hs (Hn & Hsize & Hoff & Hlen & Hend).
  unfold next_slot in *.
  set (d := slot (m_nrOfDubs l) l) in *.
  set (k := fade_span (m_length d)).
  assert (0 <= k <= m_length d ∧ k <= NR_OF_BLEND_SAMPLES) as (Hk & Hk64)
    by (subst k; unfold fade_span, NR_OF_BLEND_SAMPLES; lia).
  unfold finishRecording. rewrite (proj2 (state_eqb_false _ _) Hs).
  rewrite (bind_Ok_l _ _ d) by (by apply dub_at_Ok).
  cbn beta zeta.
  assert ((if NR_OF_BLEND_SAMPLES <? m_length d
           then NR_OF_BLEND_SAMPLES else m_length d) = k) as ->.
  { subst k. unfold fade_span.
    destruct (Z.ltb_spec NR_OF_BLEND_SAMPLES (m_length d)); lia. }
  unfold NR_OF_BLEND_SAMPLES in Hk64.
  set (l0 := if m_nrOfDubs (with_state LOOPER_STATE_PLAYING l) =? 0
             then _ else _).
  assert (m_storageSize l0 = m_storageSize l
          ∧ m_storage1 l0 = m_storage1 l
          ∧ m_storage2 l0 = m_storage2 l) as (Es & E1 & E2)
    by (subst l0; by destruct (_ =? 0)).
  destruct (blend_effect k (Z.to_nat k) 0 (m_storageOffset d)
              (wrap (m_storageOffset d + m_length d - 1)) l0)
    as (l1 & Hrun & Hctl & Hframe & Hval).
  { by rewrite Es. }
  { done. }
  { rewrite Z2Nat.id by lia. unfold NR_OF_BLEND_SAMPLES, SIZE_BITS in *. lia. }
  { destruct (decide (m_length d = 0)) as [E0|E0].
    - left. replace k with 0 by lia. done.
    - right. rewrite Es, Z2Nat.id, wrap_small by lia. lia. }
  rewrite Hrun. cbn [mbind result_bind]. eexists. split; [reflexivity|].
  cbn [m_storage1 m_storage2 with_nrOfDubs with_maxUsedDubs].
  rewrite Z2Nat.id in * by lia. rewrite <- E1, <- E2. split.
  - intros i Ha Hb. apply Hframe; [done|].
    destruct (decide (m_length d = 0)) as [E0|E0]; [lia|].
    rewrite wrap_small by lia. lia.
  - intros Hdis j Hj. cbn zeta.
    assert (m_length d ≠ 0) as E0 by lia.
    rewrite wrap_small in Hval by lia.
    destruct (Hval ltac:(lia) j Hj) as (V1 & V2 & V3 & V4).
    replace (m_storageOffset d + m_length d - 1 - j)
      with (m_storageOffset d + m_length d - 1 - j) in * by lia.
    rewrite Z.add_0_l in *. done.
Qed.

(** Finishing a recorded take that lies inside the arena stays in range,
    commits the take and leaves every arena cell unchanged except the first
    and the last [min(length, 64)] cells of the take. *)
Theorem finish_fades_only_the_edges (l : Looper) :
  m_state l ≠ LOOPER_STATE_WAITING_FOR_THRESHOLD ->
  take_in_arena l ->
  ∃ l', finishRecording l = Ok l'
    ∧ m_state l' = LOOPER_STATE_PLAYING
    ∧ m_nrOfDubs l' = m_nrOfDubs l + 1
    ∧ m_dubs l' = m_dubs l
    ∧ ∀ i,
        ¬ (m_storageOffset (next_slot l) <= i
           < m_storageOffset (next_slot l)
             + fade_span (m_length (next_slot l))) ->
        ¬ (m_storageOffset (next_slot l) + m_length (next_slot l)
           - fade_span (m_length (next_slot l)) <= i
           < m_storageOffset (next_slot l) + m_length (next_slot l)) ->
        cell (m_storage1 l') i = cell (m_storage1 l) i
        ∧ cell (m_storage2 l') i = cell (m_storage2 l) i.
Proof.
  intros Hs Ht.
  destruct (finishRecording_fade l Hs Ht) as (l' & H & Hframe & _).
  exists l'. split; [done|].
  apply (finishRecording_commit _ _ Hs) in H.
  destruct H as (_ & Hst & Hn & _ & Hd & _). done.
Qed.

(** A take of at least 128 samples is faded over 64 samples at each end:
    sample [j] from either edge is multiplied once by [j / 64], so the two
    edge samples are multiplied by 0 and sample 32 by 0.5. *)
Theorem fade_ramp_of_long_take (l : Looper) :
  m_state l ≠ LOOPER_STATE_WAITING_FOR_THRESHOLD ->
  take_in_arena l ->
  128 <= m_length (next_slot l) ->
  ∃ l', finishRecording l = Ok l'
    ∧ (∀ j, 0 <= j < 64 ->
         let a := m_storageOffset (next_slot l) + j in
         let b := m_storageOffset (next_slot l) + m_length (next_slot l)
                  - 1 - j in
         cell (m_storage1 l') a
         = F32.mul (cell (m_storage1 l) a) (fade_factor j 64)
         ∧ cell (m_storage2 l') a
           = F32.mul (cell (m_storage2 l) a) (fade_factor j 64)
         ∧ cell (m_storage1 l') b
           = F32.mul (cell (m_storage1 l) b) (fade_factor j 64)
         ∧ cell (m_storage2 l') b
           = F32.mul (cell (m_storage2 l) b) (fade_factor j 64))
    ∧ fade_factor 0 64 = F32.zero
    ∧ fade_factor 32 64 = half.
Proof.
  intros Hs Ht Hlen.
  destruct (finishRecording_fade l Hs Ht) as (l' & H & _ & Hval).
  exists l'. split; [done|].
  assert (fade_span (m_length (next_slot l)) = 64) as E
    by (unfold fade_span, NR_OF_BLEND_SAMPLES; lia).
  rewrite E in Hval. split; [|split; vm_compute; reflexivity].
  intros j Hj. apply Hval; lia.
Qed.

(** ** Recording *)

Lemma advance_within_loop (l : Looper) :
  (if 0 <? m_nrOfDubs l then wrap (m_currentLoopIndex l + 1)
   else m_currentLoopIndex l) <= m_loopLength l ->
  m_nrOfUsedSamples l < m_storageSize l ->
  advance l
  = Ok (if 0 <? m_nrOfDubs l
        then with_currentLoopIndex (wrap (m_currentLoopIndex l + 1)) l
        else l).
Proof.
  intros Hloop Hroom. unfold advance.
  destruct l as [st thr dry idx len size used s1 s2 n mx dubs]; simpl in *.
  destruct (0 <? n); simpl;
    match goal with |- context [?a <? ?b] =>
      destruct (Z.ltb_spec a b); [lia|] end;
    (destruct (Z.leb_spec size used); [lia|]); reflexivity.
Qed.

Lemma recording_sample (x : sample) (l : Looper) :
  room_to_record l 1 ->
  ∃ l' out, run_sample x l = Ok (l', out)
    ∧ m_state l' = LOOPER_STATE_RECORDING
    ∧ m_nrOfDubs l' = m_nrOfDubs l
    ∧ m_maxUsedDubs l' = m_maxUsedDubs l
    ∧ m_loopLength l' = m_loopLength l
    ∧ m_storageSize l' = m_storageSize l
    ∧ m_nrOfUsedSamples l' = m_nrOfUsedSamples l + 1
    ∧ m_currentLoopIndex l' = index_after l 1
    ∧ m_dubs l'
      = <[m_nrOfDubs l := mkDub (m_storageOffset (next_slot l))
                            (m_length (next_slot l) + 1)
                            (m_startIndex (next_slot l))]> (m_dubs l)
    ∧ m_storage1 l' = <[m_nrOfUsedSamples l := fst x]> (m_storage1 l)
    ∧ m_storage2 l' = <[m_nrOfUsedSamples l := snd x]> (m_storage2 l).
Proof.
  intros (Hs & Hd & Hn & Hu & Hroom & Hlen & Hlen' & Hidx & Hloop & HL).
  pose proof Hd as (Hrange & Hsize & Hslots).
  unfold next_slot, index_after in *.
  assert (check_threshold (fst x) (snd x) l = Ok l) as Hc.
  { unfold check_threshold, threshold_reached. by rewrite Hs. }
  unfold run_sample. rewrite Hc. cbn [mbind result_bind].
  rewrite (record_recording (fst x) (snd x) l Hs) by lia.
  cbn [mbind result_bind].
  rewrite (wrap_small (m_nrOfUsedSamples l + 1)) by lia.
  rewrite (wrap_small (m_length _ + 1)) by lia.
  set (l1 := set_dub _ _ _).
  assert (dubs_in_arena l1) as Hd1.
  { split; [exact Hrange|]. split; [exact Hsize|]. intros t Ht.
    change (m_nrOfDubs l1) with (m_nrOfDubs l) in Ht.
    replace (slot t l1) with (slot t l); [by apply Hslots|].
    subst l1. unfold slot, set_dub; simpl.
    rewrite lookup_insert_ne by lia. done. }
  destruct (playback_in_range (fst x) (snd x) l1 Hd1) as [o ->].
  cbn [mbind result_bind].
  rewrite (advance_within_loop l1).
  2:{ change (m_nrOfDubs l1) with (m_nrOfDubs l).
      change (m_currentLoopIndex l1) with (m_currentLoopIndex l).
      change (m_loopLength l1) with (m_loopLength l).
      destruct (0 <? m_nrOfDubs l); [rewrite wrap_small; lia | lia]. }
  2:{ change (m_nrOfUsedSamples l1) with (m_nrOfUsedSamples l + 1).
      change (m_storageSize l1) with (m_storageSize l). lia. }
  cbn [mbind result_bind]. eexists _, _. split; [reflexivity|].
  change (m_nrOfDubs l1) with (m_nrOfDubs l).
  change (m_currentLoopIndex l1) with (m_currentLoopIndex l).
  destruct (0 <? m_nrOfDubs l).
  - rewrite wrap_small by lia. repeat split; done.
  - repeat split; done.
Qed.

Lemma room_to_record_one (l : Looper) (k : Z) :
  1 <= k -> room_to_record l k -> room_to_record l 1.
Proof.
  intros Hk (Hs & Hd & Hn & Hu & Hroom & Hlen & Hlen' & Hidx & Hloop & HL).
  split; [done|]. split; [done|]. split; [done|]. split; [done|].
  split; [lia|]. split; [done|]. split; [lia|]. split; [done|].
  split; [|done].
  revert Hloop. unfold index_after. destruct (0 <? m_nrOfDubs l); lia.
Qed.

Lemma room_to_record_next (l l' : Looper) (k : Z) :
  0 <= k -> room_to_record l (k + 1) ->
  m_state l' = LOOPER_STATE_RECORDING ->
  m_nrOfDubs l' = m_nrOfDubs l ->
  m_loopLength l' = m_loopLength l ->
  m_storageSize l' = m_storageSize l ->
  m_nrOfUsedSamples l' = m_nrOfUsedSamples l + 1 ->
  m_currentLoopIndex l' = index_after l 1 ->
  m_dubs l'
  = <[m_nrOfDubs l := mkDub (m_storageOffset (next_slot l))
                        (m_length (next_slot l) + 1)
                        (m_startIndex (next_slot l))]> (m_dubs l) ->
  room_to_record l' k.
Proof.
  intros Hk (Hs & Hd & Hn & Hu & Hroom & Hlen & Hlen' & Hidx & Hloop & HL)
    Hs' Hn' HL' Hsize' Hu' Hidx' Hdubs.
  destruct Hd as (Hrange & Hsize & Hslots).
  assert (next_slot l'
          = mkDub (m_storageOffset (next_slot l)) (m_length (next_slot l) + 1)
              (m_startIndex (next_slot l))) as Hnext.
  { unfold next_slot at 1, slot. rewrite Hn', Hdubs.
    by rewrite lookup_insert_eq. }
  assert (∀ t, t ≠ m_nrOfDubs l -> slot t l' = slot t l) as Hother.
  { intros t Ht. unfold slot. rewrite Hdubs. by rewrite lookup_insert_ne. }
  unfold room_to_record, dubs_in_arena, index_after in *.
  rewrite Hnext, Hs', Hn', HL', Hsize', Hu', Hidx'. simpl.
  split; [done|]. split.
  { split; [done|]. split; [done|].
    intros t Ht. rewrite Hother by lia. by apply Hslots. }
  split; [done|]. split; [lia|]. split; [lia|]. split; [lia|].
  split; [lia|]. split; [destruct (0 <? m_nrOfDubs l); lia|].
  split; [|done].
  revert Hloop. destruct (0 <? m_nrOfDubs l); lia.
Qed.

(** Recording a block that fits in the arena and ends before the loop does:
    the samples are appended to the arena in order, the take grows by the
    length of the block, and nothing else in the arena or the ledger
    changes. *)
Theorem recording_appends_block (xs : list sample) :
  ∀ l : Looper,
    room_to_record l (Z.of_nat (length xs)) ->
    ∃ l' out, run_samples xs l = Ok (l', out)
      ∧ m_state l' = LOOPER_STATE_RECORDING
      ∧ m_nrOfDubs l' = m_nrOfDubs l
      ∧ m_maxUsedDubs l' = m_maxUsedDubs l
      ∧ m_loopLength l' = m_loopLength l
      ∧ m_nrOfUsedSamples l' = m_nrOfUsedSamples l + Z.of_nat (length xs)
      ∧ m_currentLoopIndex l' = index_after l (Z.of_nat (length xs))
      ∧ m_length (next_slot l')
        = m_length (next_slot l) + Z.of_nat (length xs)
      ∧ m_storageOffset (next_slot l') = m_storageOffset (next_slot l)
      ∧ m_startIndex (next_slot l') = m_startIndex (next_slot l)
      ∧ (∀ t, t ≠ m_nrOfDubs l -> slot t l' = slot t l)
      ∧ (∀ (k : nat) (x : sample), xs !! k = Some x ->
           cell (m_storage1 l') (m_nrOfUsedSamples l + Z.of_nat k) = fst x
           ∧ cell (m_storage2 l') (m_nrOfUsedSamples l + Z.of_nat k) = snd x)
      ∧ (∀ j, ¬ (m_nrOfUsedSamples l <= j
                 < m_nrOfUsedSamples l + Z.of_nat (length xs)) ->
           cell (m_storage1 l') j = cell (m_storage1 l) j
           ∧ cell (m_storage2 l') j = cell (m_storage2 l) j).
Proof.
  induction xs as [|x xs IH]; intros l Hroom.
  - exists l, []. simpl. unfold index_after.
    rewrite !Z.add_0_r.
    assert ((if 0 <? m_nrOfDubs l then m_currentLoopIndex l
             else m_currentLoopIndex l) = m_currentLoopIndex l) as ->
      by (by destruct (0 <? m_nrOfDubs l)).
    destruct Hroom as (Hs & _).
    do 11 (split; [done|]). split; [|done].
    intros k x Hk. by rewrite lookup_nil in Hk.
  - rewrite length_cons, Nat2Z.inj_succ in *.
    replace (Z.succ (Z.of_nat (length xs))) with (Z.of_nat (length xs) + 1)
      in * by lia.
    destruct (recording_sample x l) as
      (l1 & o & Hrun & Hs1 & Hn1 & Hm1 & HL1 & Hsz1 & Hu1 & Hi1 & Hd1
       & Hst1 & Hst2).
    { apply (room_to_record_one l (Z.of_nat (length xs) + 1)); [lia|done]. }
    assert (room_to_record l1 (Z.of_nat (length xs))) as Hroom1
      by (apply (room_to_record_next l l1); try done; lia).
    destruct (IH l1 Hroom1) as
      (l' & out & Hrun' & Hs' & Hn' & Hm' & HL' & Hu' & Hi' & Hlen' & Hoff'
       & Hstart' & Hslots' & Hcells' & Hframe').
    assert (next_slot l1
            = mkDub (m_storageOffset (next_slot l))
                (m_length (next_slot l) + 1)
                (m_startIndex (next_slot l))) as Hnext.
    { unfold next_slot at 1, slot. rewrite Hn1, Hd1.
      by rewrite lookup_insert_eq. }
    exists l', (o :: out). cbn [run_samples]. rewrite Hrun.
    cbn [mbind result_bind]. rewrite Hrun'. cbn [mbind result_bind].
    split; [reflexivity|].
    rewrite Hs', Hn', Hm', HL', Hu', Hi', Hlen', Hoff', Hstart', Hnext.
    rewrite Hn1, Hm1, HL1, Hu1. simpl.
    do 4 (split; [done|]). split; [lia|]. split.
    { unfold index_after. rewrite Hn1, Hi1. unfold index_after.
      destruct (0 <? m_nrOfDubs l); lia. }
    split; [lia|]. do 2 (split; [done|]). split.
    { intros t Ht. rewrite Hslots' by congruence.
      unfold slot. rewrite Hd1. by rewrite lookup_insert_ne. }
    split.
    + intros k x0 Hk. destruct k as [|k]; simpl in Hk.
      * injection Hk as <-.
        destruct (Hframe' (m_nrOfUsedSamples l)) as [E1 E2]; [lia|].
        rewrite Z.add_0_r, E1, E2, Hst1, Hst2, !cell_insert.
        by rewrite !decide_True.
      * destruct (Hcells' k x0 Hk) as [E1 E2]. rewrite <- E1, <- E2.
        rewrite Hu1.
        replace (m_nrOfUsedSamples l + Z.of_nat (S k))
          with (m_nrOfUsedSamples l + 1 + Z.of_nat k) by lia. done.
    + intros j Hj. destruct (Hframe' j) as [E1 E2]; [lia|].
      rewrite E1, E2, Hst1, Hst2, !cell_insert.
      by rewrite !decide_False by lia.
Qed.

(** ** Commands that cancel each other *)

Lemma Looper_eq (l l' : Looper) :
  control l' = control l ->
  m_storage1 l' = m_storage1 l ->
  m_storage2 l' = m_storage2 l ->
  l' = l.
Proof.
  destruct l, l'. unfold control. simpl. intros [= -> -> -> -> -> -> -> -> -> ->] -> ->.
  reflexivity.
Qed.

(** Undo followed by Redo gives back the very same state when the used
    samples end where the top dub ends (and, for the only dub, the loop
    stands at its start): no field of the engine differs. *)
Theorem undo_then_redo_is_identity (l : Looper) :
  m_state l ≠ LOOPER_STATE_RECORDING ->
  1 <= m_nrOfDubs l <= NR_OF_DUBS ->
  m_nrOfDubs l <= m_maxUsedDubs l ->
  m_nrOfUsedSamples l
  = wrap (m_storageOffset (top_slot l) + m_length (top_slot l)) ->
  (m_nrOfDubs l = 1 ->
     m_loopLength l = m_length (slot 0 l) ∧ m_currentLoopIndex l = 0) ->
  undo l ≫= redo = Ok l.
Proof.
  intros Hs Hn Hmax Hused Hone.
  destruct (undo_redo_round_trip l Hs Hn Hmax)
    as (l' & H & E1 & E2 & E3 & E4 & E5 & E6 & E7 & E8 & E9 & E10 & E11 & E12).
  rewrite H. f_equal. apply Looper_eq; [|done..].
  unfold control. unfold top_slot in Hused.
  rewrite E1, E2, E3, E4, E7, E8, E9, E10, <- Hused.
  destruct (decide (m_nrOfDubs l = 1)) as [E|E].
  - destruct (E11 E) as [-> ->]. destruct (Hone E) as [-> ->]. done.
  - destruct E12 as [-> ->]; [lia | done].
Qed.

(** Redo followed by Undo gives back the very same state when the used
    samples end where the redone dub starts (and, with no dub active, there
    is no loop). *)
Theorem redo_then_undo_is_identity (l : Looper) :
  m_state l ≠ LOOPER_STATE_RECORDING ->
  0 <= m_nrOfDubs l < NR_OF_DUBS ->
  m_nrOfDubs l ≠ m_maxUsedDubs l ->
  m_nrOfUsedSamples l = m_storageOffset (next_slot l) ->
  (m_nrOfDubs l = 0 -> m_loopLength l = 0 ∧ m_currentLoopIndex l = 0) ->
  redo l ≫= undo = Ok l.
Proof.
  intros Hs Hn Hmax Hused Hzero.
  assert (state_eqb (m_state l) LOOPER_STATE_RECORDING = false) as Hs'
    by (by apply state_eqb_false).
  unfold redo. rewrite Hs'.
  destruct (Z.eqb_spec (m_nrOfDubs l) (m_maxUsedDubs l)) as [Heq|_]; [done|].
  rewrite (dub_at_in_range l _ Hn). cbn [mbind result_bind].
  unfold undo, undo_core.
  assert (wrap (m_nrOfDubs l + 1) = m_nrOfDubs l + 1) as Hw
    by (apply wrap_small; unfold NR_OF_DUBS, SIZE_BITS in *; lia).
  assert (wrap (m_nrOfDubs l + 1 - 1) = m_nrOfDubs l) as Hw'
    by (rewrite Z.add_simpl_r; apply wrap_small;
        unfold NR_OF_DUBS, SIZE_BITS in *; lia).
  unfold next_slot in Hused.
  destruct l as [st thr dry idx len size used s1 s2 nd mx dubs].
  unfold slot in *. simpl in *. subst used.
  destruct (Z.eqb_spec nd 0) as [E|E]; simpl; rewrite Hs'; simpl;
    rewrite Hw; (destruct (Z.eqb_spec (nd + 1) 0); [lia|]); simpl;
    rewrite Hw'; unfold dub_at; simpl;
    (destruct (Z.leb_spec 0 nd); [|lia]);
    (destruct (Z.ltb_spec nd NR_OF_DUBS); [|lia]); simpl; unfold slot; simpl.
  - subst nd. simpl. destruct (Hzero eq_refl) as [-> ->]. reflexivity.
  - destruct (Z.eqb_spec nd 0); [lia|]. reflexivity.
Qed.

(** After a reset neither Undo nor Redo does anything, a second reset
    changes nothing, and the arena and the slots still hold what they
    did. *)
Theorem reset_clears_history (l : Looper) :
  undo (reset l) = Ok (reset l)
  ∧ redo (reset l) = Ok (reset l)
  ∧ reset (reset l) = reset l
  ∧ m_dubs (reset l) = m_dubs l
  ∧ m_storage1 (reset l) = m_storage1 l
  ∧ m_storage2 (reset l) = m_storage2 l.
Proof. by destruct l. Qed.

(** A take stopped before the threshold was reached records nothing: the
    counters, the loop and the arena are as before the Start, and only the
    reserved slot keeps its new offset and zero length. *)
Theorem abandoned_take_records_nothing (l : Looper) :
  0 <= m_nrOfDubs l < NR_OF_DUBS ->
  m_nrOfUsedSamples l < m_storageSize l ->
  ∃ l', startRecording l ≫= finishRecording = Ok l'
    ∧ m_state l' = (if m_nrOfDubs l =? 0 then LOOPER_STATE_INACTIVE
                    else LOOPER_STATE_PLAYING)
    ∧ m_nrOfDubs l' = m_nrOfDubs l
    ∧ m_maxUsedDubs l' = m_maxUsedDubs l
    ∧ m_nrOfUsedSamples l' = m_nrOfUsedSamples l
    ∧ m_loopLength l' = m_loopLength l
    ∧ m_currentLoopIndex l' = m_currentLoopIndex l
    ∧ m_storage1 l' = m_storage1 l
    ∧ m_storage2 l' = m_storage2 l
    ∧ next_slot l'
      = mkDub (m_nrOfUsedSamples l) 0 (m_startIndex (next_slot l))
    ∧ ∀ t, t ≠ m_nrOfDubs l -> slot t l' = slot t l.
Proof.
  intros Hn Hu. unfold startRecording.
  destruct (Z.leb_spec NR_OF_DUBS (m_nrOfDubs l)); [lia|].
  destruct (Z.leb_spec (m_storageSize l) (m_nrOfUsedSamples l)); [lia|].
  rewrite (dub_at_in_range l _ Hn). cbn [mbind result_bind].
  rewrite finishRecording_waiting by done.
  eexists. split; [reflexivity|]. unfold next_slot.
  do 8 (split; [done|]). split.
  - unfold slot, with_state, set_dub, with_dubs. simpl.
    by rewrite lookup_insert_eq.
  - intros t Ht. unfold slot, with_state, set_dub, with_dubs. simpl.
    by rewrite lookup_insert_ne.
Qed.

(** ** The end of the loop and the end of the arena *)

Lemma advance_wraps (l : Looper) :
  m_state l = LOOPER_STATE_RECORDING ->
  (m_loopLength l
   < (if 0 <? m_nrOfDubs l then wrap (m_currentLoopIndex l + 1)
      else m_currentLoopIndex l)
   ∨ m_storageSize l <= m_nrOfUsedSamples l) ->
  advance l
  = finishRecording (with_currentLoopIndex 0 l)
    ≫= λ l1, if 1 <? m_nrOfDubs l1 then startRecording l1 else Ok l1.
Proof.
  intros Hs Hwrap. unfold advance.
  destruct l as [st thr dry idx len size used s1 s2 nd mx dubs]; simpl in *.
  subst st.
  destruct (0 <? nd); simpl;
    match goal with |- context [?a <? ?b] =>
      destruct (Z.ltb_spec a b) end;
    destruct (Z.leb_spec size used); simpl; try reflexivity; lia.
Qed.

(** What a sample step does when it records the sample that ends the loop
    or fills the arena: the sample is stored, the take is finished with the
    loop index back at 0, and a new take is started when more than one dub
    is then active. *)
Lemma recording_sample_at_end (x : sample) (l : Looper) :
  m_state l = LOOPER_STATE_RECORDING ->
  dubs_in_arena l ->
  m_nrOfDubs l < NR_OF_DUBS ->
  0 <= m_nrOfUsedSamples l < m_storageSize l ->
  m_storageSize l < 2 ^ SIZE_BITS ->
  0 <= m_storageOffset (next_slot l) ->
  0 <= m_length (next_slot l) ->
  m_storageOffset (next_slot l) + m_length (next_slot l) + 1
  <= m_storageSize l ->
  (0 < m_nrOfDubs l ∧ m_loopLength l < wrap (m_currentLoopIndex l + 1)
   ∨ m_nrOfUsedSamples l + 1 = m_storageSize l) ->
  ∃ l1 l2 out,
    run_sample x l
    = (if 1 <? m_nrOfDubs l2 then startRecording l2 else Ok l2)
      ≫= (λ l3, Ok (l3, out))
    ∧ finishRecording l1 = Ok l2
    ∧ m_state l2 = LOOPER_STATE_PLAYING
    ∧ m_nrOfDubs l2 = m_nrOfDubs l + 1
    ∧ m_maxUsedDubs l2 = m_nrOfDubs l + 1
    ∧ m_nrOfUsedSamples l2 = m_nrOfUsedSamples l + 1
    ∧ m_storageSize l2 = m_storageSize l
    ∧ m_loopLength l2
      = (if m_nrOfDubs l =? 0 then m_length (next_slot l) + 1
         else m_loopLength l)
    ∧ m_currentLoopIndex l2 = 0
    ∧ m_dubs l2
      = <[m_nrOfDubs l := mkDub (m_storageOffset (next_slot l))
                            (m_length (next_slot l) + 1)
                            (m_startIndex (next_slot l))]> (m_dubs l).
Proof.
  intros Hs Hd Hn Hu Hsize Hoff Hlen Hend Hwrap.
  pose proof Hd as (Hrange & _ & Hslots).
  unfold next_slot in *.
  assert (check_threshold (fst x) (snd x) l = Ok l) as Hc.
  { unfold check_threshold, threshold_reached. by rewrite Hs. }
  unfold run_sample. rewrite Hc. cbn [mbind result_bind].
  rewrite (record_recording (fst x) (snd x) l Hs) by lia.
  cbn [mbind result_bind].
  rewrite (wrap_small (m_nrOfUsedSamples l + 1)) by lia.
  rewrite (wrap_small (m_length _ + 1)) by lia.
  set (l1 := set_dub _ _ _).
  assert (dubs_in_arena l1) as Hd1.
  { split; [exact Hrange|]. split; [apply Hd|]. intros t Ht.
    change (m_nrOfDubs l1) with (m_nrOfDubs l) in Ht.
    replace (slot t l1) with (slot t l); [by apply Hslots|].
    subst l1. unfold slot, set_dub; simpl.
    rewrite lookup_insert_ne by lia. done. }
  destruct (playback_in_range (fst x) (snd x) l1 Hd1) as [o ->].
  cbn [mbind result_bind].
  rewrite (advance_wraps l1); [|done|].
  2:{ change (m_nrOfDubs l1) with (m_nrOfDubs l).
      change (m_currentLoopIndex l1) with (m_currentLoopIndex l).
      change (m_loopLength l1) with (m_loopLength l).
      change (m_nrOfUsedSamples l1) with (m_nrOfUsedSamples l + 1).
      change (m_storageSize l1) with (m_storageSize l).
      destruct Hwrap as [[Hpos Hw]|Hfull]; [left | right; lia].
      destruct (Z.ltb_spec 0 (m_nrOfDubs l)); [done | lia]. }
  set (l1' := with_currentLoopIndex 0 l1).
  assert (next_slot l1'
          = mkDub (m_storageOffset (slot (m_nrOfDubs l) l))
              (m_length (slot (m_nrOfDubs l) l) + 1)
              (m_startIndex (slot (m_nrOfDubs l) l))) as Hnext.
  { subst l1' l1. unfold next_slot, slot, set_dub; simpl.
    by rewrite lookup_insert_eq. }
  assert (m_state l1' ≠ LOOPER_STATE_WAITING_FOR_THRESHOLD) as Hs1
    by (change (m_state l1') with (m_state l); by rewrite Hs).
  destruct (finishRecording_fade l1' Hs1) as (l2 & Hfin & _).
  { unfold take_in_arena. rewrite Hnext. simpl.
    change (m_nrOfDubs l1') with (m_nrOfDubs l).
    change (m_storageSize l1') with (m_storageSize l). lia. }
  exists l1', l2, o. rewrite Hfin. cbn [mbind result_bind].
  split; [reflexivity|]. split; [done|].
  apply (finishRecording_commit _ _ Hs1) in Hfin.
  destruct Hfin as (_ & Hst & Hn2 & Hm2 & Hd2 & Hu2 & Hsz2 & _ & _ & H0 & H1).
  split; [done|]. split; [done|]. split; [done|]. split; [done|].
  split; [done|]. split.
  { change (m_nrOfDubs l1') with (m_nrOfDubs l) in *.
    destruct (Z.eqb_spec (m_nrOfDubs l) 0) as [E|E].
    - destruct (H0 E) as [-> _].
      change (slot 0 l1') with (slot 0 l1). unfold next_slot in Hnext.
      change (m_nrOfDubs l1') with (m_nrOfDubs l) in Hnext.
      change (slot (m_nrOfDubs l) l1') with (slot (m_nrOfDubs l) l1) in Hnext.
      rewrite E in Hnext. rewrite Hnext. simpl. by rewrite E.
    - by destruct (H1 E) as [-> _]. }
  split.
  { change (m_nrOfDubs l1') with (m_nrOfDubs l) in *.
    destruct (Z.eqb_spec (m_nrOfDubs l) 0) as [E|E].
    - by destruct (H0 E) as [_ ->].
    - by destruct (H1 E) as [_ ->]. }
  rewrite Hd2. reflexivity.
Qed.


(** Recording the sample that fills the arena finishes the take: the
    engine is PLAYING with the take committed and the loop index at 0, and
    a further Start is rejected. *)
Theorem arena_exhaustion_finishes_take (x : sample) (l : Looper) :
  m_state l = LOOPER_STATE_RECORDING ->
  dubs_in_arena l ->
  m_nrOfDubs l < NR_OF_DUBS ->
  0 <= m_nrOfUsedSamples l ->
  m_nrOfUsedSamples l + 1 = m_storageSize l ->
  m_storageSize l < 2 ^ SIZE_BITS ->
  0 <= m_storageOffset (next_slot l) ->
  0 <= m_length (next_slot l) ->
  m_storageOffset (next_slot l) + m_length (next_slot l) + 1
  <= m_storageSize l ->
  ∃ l' out, run_sample x l = Ok (l', out)
    ∧ m_state l' = LOOPER_STATE_PLAYING
    ∧ m_nrOfDubs l' = m_nrOfDubs l + 1
    ∧ m_maxUsedDubs l' = m_nrOfDubs l + 1
    ∧ m_nrOfUsedSamples l' = m_storageSize l'
    ∧ m_currentLoopIndex l' = 0
    ∧ startRecording l' = Ok l'.
Proof.
  intros Hs Hd Hn Hu Hfull Hsize Hoff Hlen Hend.
  destruct (recording_sample_at_end x l Hs Hd Hn ltac:(lia) Hsize
              Hoff Hlen Hend (or_intror Hfull)) as
    (l1 & l2 & o & Hrun & _ & Hst & Hn2 & Hm2 & Hu2 & Hsz2 & HL2 & Hi2 & Hd2).
  assert (startRecording l2 = Ok l2) as Hrej.
  { unfold startRecording. destruct (NR_OF_DUBS <=? m_nrOfDubs l2); [done|].
    destruct (Z.leb_spec (m_storageSize l2) (m_nrOfUsedSamples l2));
      [done | lia]. }
  exists l2, o. rewrite Hrun.
  destruct (1 <? m_nrOfDubs l2); rewrite ?Hrej; cbn [mbind result_bind];
    (split; [reflexivity|]); repeat split; try done; lia.
Qed.

(** * The buttons *)

Lemma f64_sub_zero (x : F64.t) : f64_sub x f64_zero = x.
Proof. by destruct x as [[]| [] | |]. Qed.

Lemma MomentaryButton_run_fires input (cb : Callback) k now bt l :
  (∀ i dc l0, cb true i dc l0 = k dc l0) →
  (∀ i dc l0, cb false i dc l0 = Ok l0) →
  result_snd (MomentaryButton_run input cb now bt l)
  = when_pressed (press_of input now bt) k l.
Proof.
  intros Hon Hoff. unfold MomentaryButton_run, press_of.
  destruct input as [v|]; [|done].
  destruct (Bool.eqb (port_high v) (m_lastState bt)); [done|].
  destruct (port_high v); simpl.
  - rewrite Hon. by destruct (k _ l).
  - by rewrite Hoff.
Qed.

Lemma MomentaryButton_run_state input cb now bt l bt' l' :
  MomentaryButton_run input cb now bt l = Ok (bt', l') →
  match input with
  | Some v => m_lastState bt' = port_high v
  | None => bt' = bt
  end.
Proof.
  unfold MomentaryButton_run. destruct input as [v|]; [|congruence].
  destruct (Bool.eqb (port_high v) (m_lastState bt)) eqn:E.
  - intros [= <- _]. symmetry. by apply Bool.eqb_prop.
  - destruct (cb _ _ _ l); [|done]. by intros [= <- _].
Qed.

Lemma press_of_settled input cb now bt l bt' l' input' now' :
  MomentaryButton_run input cb now bt l = Ok (bt', l') →
  port_high <$> input' = port_high <$> input →
  press_of input' now' bt' = None.
Proof.
  intros Hrun Hsame. apply MomentaryButton_run_state in Hrun.
  unfold press_of. destruct input' as [v'|]; [|done].
  destruct input as [v|]; [|done].
  injection Hsame as Hv. by rewrite Hrun, Hv, Bool.eqb_reflx.
Qed.

Lemma press_of_low input now bt : held input = false → press_of input now bt = None.
Proof.
  unfold held, press_of. destruct input as [v|]; [|done].
  intros ->. by destruct (Bool.eqb _ _).
Qed.

Lemma when_set_is_Some (o : option bool) k l :
  when_set (bool_decide (is_Some o)) k l = when_pressed o (λ _, k) l.
Proof. by destruct o. Qed.

Section PluginFacts.

Variable powf : F32.t -> F32.t -> F32.t.

(** The engine's share of [Plugin_updateParameters] is [updateParameters]
    at the presses the buttons report. *)
Lemma Plugin_updateParameters_engine ports p :
  match Plugin_updateParameters powf ports p with
  | Ok p' => Ok (p_looper p')
  | Err f => Err f
  end
  = updateParameters powf (port_threshold ports) (port_dryAmount ports)
      (presses ports p) (p_looper p).
Proof.
  unfold Plugin_updateParameters, updateParameters, presses.
  cbn [b_activate b_reset b_undo b_redo b_dub].
  rewrite <- (MomentaryButton_run_fires (port_activate ports) activateCallback
                onActivate (m_now p) (m_activateButton p)) by done.
  set (l0 := with_dryAmount _ _).
  destruct (MomentaryButton_run (port_activate ports) _ _ _ l0)
    as [[ba l1]|]; [simpl|done].
  rewrite <- (MomentaryButton_run_fires (port_reset ports) resetCallback
                onReset (m_now p) (m_resetButton p)) by done.
  destruct (MomentaryButton_run (port_reset ports) _ _ _ l1)
    as [[br l2]|]; [simpl|done].
  rewrite when_set_is_Some.
  rewrite <- (MomentaryButton_run_fires (port_undo ports) undoCallback
                (λ _, onUndo) (m_now p) (m_undoButton p)) by done.
  destruct (MomentaryButton_run (port_undo ports) _ _ _ l2)
    as [[bu l3]|]; [simpl|done].
  rewrite when_set_is_Some.
  rewrite <- (MomentaryButton_run_fires (port_redo ports) redoCallback
                (λ _, onRedo) (m_now p) (m_redoButton p)) by done.
  destruct (MomentaryButton_run (port_redo ports) _ _ _ l3)
    as [[bd l4]|]; [simpl|done].
  rewrite <- (MomentaryButton_run_fires (port_dub ports) dubCallback
                onDub (m_now p) (m_dubButton p)) by done.
  by destruct (MomentaryButton_run (port_dub ports) _ _ _ l4)
    as [[bb l5]|].
Qed.

Lemma Plugin_run_engine ports p :
  engine_view (Plugin_run powf ports p)
  = run powf (port_threshold ports) (port_dryAmount ports)
      (presses ports p) (port_input ports) (p_looper p).
Proof.
  unfold Plugin_run, run.
  rewrite <- Plugin_updateParameters_engine.
  destruct (Plugin_updateParameters powf ports p) as [p1|]; [simpl|done].
  destruct (state_eqb _ _); [done|].
  by destruct (run_samples _ _) as [[]|].
Qed.

(** The buttons after [Plugin_run] are those [Plugin_updateParameters]
    leaves. *)
Lemma Plugin_run_buttons ports p p' out :
  Plugin_run powf ports p = Ok (p', out) →
  ∃ p1, Plugin_updateParameters powf ports p = Ok p1
        ∧ m_activateButton p' = m_activateButton p1
        ∧ m_resetButton p' = m_resetButton p1
        ∧ m_undoButton p' = m_undoButton p1
        ∧ m_redoButton p' = m_redoButton p1
        ∧ m_dubButton p' = m_dubButton p1.
Proof.
  unfold Plugin_run.
  destruct (Plugin_updateParameters powf ports p) as [p1|]; [simpl|done].
  intros H. exists p1. split; [done|].
  destruct (state_eqb _ _).
  - by injection H as <- _.
  - destruct (run_samples _ _) as [[]|]; [|done]. by injection H as <- _.
Qed.

Lemma Plugin_updateParameters_settled ports p p1 ports' now' :
  Plugin_updateParameters powf ports p = Ok p1 →
  port_high <$> port_activate ports' = port_high <$> port_activate ports →
  port_high <$> port_reset ports' = port_high <$> port_reset ports →
  port_high <$> port_undo ports' = port_high <$> port_undo ports →
  port_high <$> port_redo ports' = port_high <$> port_redo ports →
  port_high <$> port_dub ports' = port_high <$> port_dub ports →
  press_of (port_activate ports') now' (m_activateButton p1) = None
  ∧ press_of (port_reset ports') now' (m_resetButton p1) = None
  ∧ press_of (port_undo ports') now' (m_undoButton p1) = None
  ∧ press_of (port_redo ports') now' (m_redoButton p1) = None
  ∧ press_of (port_dub ports') now' (m_dubButton p1) = None.
Proof.
  unfold Plugin_updateParameters. set (l0 := with_dryAmount _ _).
  destruct (MomentaryButton_run (port_activate ports) _ _ _ l0)
    as [[ba l1]|] eqn:Ea; [simpl|done].
  destruct (MomentaryButton_run (port_reset ports) _ _ _ l1)
    as [[br l2]|] eqn:Er; [simpl|done].
  destruct (MomentaryButton_run (port_undo ports) _ _ _ l2)
    as [[bu l3]|] eqn:Eu; [simpl|done].
  destruct (MomentaryButton_run (port_redo ports) _ _ _ l3)
    as [[bd l4]|] eqn:Ed; [simpl|done].
  destruct (MomentaryButton_run (port_dub ports) _ _ _ l4)
    as [[bb l5]|] eqn:Eb; [simpl|done].
  intros [= <-] Ha Hr Hu Hd Hb. simpl.
  repeat split; eauto using press_of_settled.
Qed.

(** The engine's share of one [run] call of the whole object, with its
    buttons, callbacks and clock, is [run] at the presses the buttons
    report; a button whose port is low or not connected reports none. *)
Theorem plugin_run_is_engine_run ports p :
  engine_view (Plugin_run powf ports p)
  = run powf (port_threshold ports) (port_dryAmount ports)
      (presses ports p) (port_input ports) (p_looper p)
  ∧ (held (port_activate ports) = false → b_activate (presses ports p) = None)
  ∧ (held (port_reset ports) = false → b_reset (presses ports p) = None)
  ∧ (held (port_undo ports) = false → b_undo (presses ports p) = false)
  ∧ (held (port_redo ports) = false → b_redo (presses ports p) = false)
  ∧ (held (port_dub ports) = false → b_dub (presses ports p) = None).
Proof.
  split; [apply Plugin_run_engine|].
  unfold presses; simpl.
  repeat split; intros H; by rewrite press_of_low.
Qed.

(** A button fires on an edge only: when every button port reads as in the
    call before (held, or left alone), the next call fires no callback and
    only stores the two parameters. *)
Theorem held_buttons_fire_once ports p p' out ports' :
  Plugin_run powf ports p = Ok (p', out) →
  port_high <$> port_activate ports' = port_high <$> port_activate ports →
  port_high <$> port_reset ports' = port_high <$> port_reset ports →
  port_high <$> port_undo ports' = port_high <$> port_undo ports →
  port_high <$> port_redo ports' = port_high <$> port_redo ports →
  port_high <$> port_dub ports' = port_high <$> port_dub ports →
  ∃ p'', Plugin_updateParameters powf ports' p' = Ok p''
    ∧ p_looper p''
      = with_dryAmount (port_dryAmount ports')
          (with_threshold (dbToFloat powf (port_threshold ports'))
             (p_looper p')).
Proof.
  intros Hrun Ha Hr Hu Hd Hb.
  destruct (Plugin_run_buttons _ _ _ _ Hrun)
    as (p1 & Hp1 & Ba & Br & Bu & Bd & Bb).
  destruct (Plugin_updateParameters_settled _ _ _ ports' (m_now p')
              Hp1 Ha Hr Hu Hd Hb) as (Pa & Pr & Pu & Pd & Pb).
  pose proof (Plugin_updateParameters_engine ports' p') as Heng.
  unfold presses in Heng. rewrite Ba, Br, Bu, Bd, Bb in Heng.
  rewrite Pa, Pr, Pu, Pd, Pb in Heng.
  destruct (Plugin_updateParameters powf ports' p') as [p''|]; [|done].
  exists p''. split; [done|]. by injection Heng.
Qed.

Lemma updateParameters_double_click thr dry l :
  updateParameters powf thr dry
    (mkButtons (Some true) None false false None) l
  = Ok (reset (with_dryAmount dry (with_threshold (dbToFloat powf thr) l))).
Proof. reflexivity. Qed.

Lemma reset_inactive l :
  state_eqb (m_state (reset l)) LOOPER_STATE_INACTIVE = true.
Proof. by destruct l. Qed.

Lemma reset_dryAmount l : m_dryAmount (reset l) = m_dryAmount l.
Proof. by destruct l. Qed.

Lemma run_activate_double_click thr dry input l :
  run powf thr dry (mkButtons (Some true) None false false None) input l
  = Ok (reset (with_dryAmount dry (with_threshold (dbToFloat powf thr) l)),
        map (dry_signal dry) input).
Proof.
  unfold run. rewrite updateParameters_double_click.
  cbn [mbind result_bind]. rewrite reset_inactive, reset_dryAmount.
  destruct l. reflexivity.
Qed.

(** [m_lastClickTime] starts at 0, so the first Activate press counts as
    a double click while the clock is below one second: the engine is reset
    instead of starting a take, and the block is passed through dry. *)
Theorem early_activate_is_a_double_click ports p :
  m_lastState (m_activateButton p) = false →
  m_lastClickTime (m_activateButton p) = f64_zero →
  f64_ltb (m_now p) f64_one = true →
  held (port_activate ports) = true →
  held (port_reset ports) = false →
  held (port_undo ports) = false →
  held (port_redo ports) = false →
  held (port_dub ports) = false →
  engine_view (Plugin_run powf ports p)
  = Ok (reset (with_dryAmount (port_dryAmount ports)
                 (with_threshold (dbToFloat powf (port_threshold ports))
                    (p_looper p))),
        map (dry_signal (port_dryAmount ports)) (port_input ports)).
Proof.
  intros Hlast Hclick Hnow Ha Hr Hu Hd Hb.
  rewrite Plugin_run_engine. unfold presses.
  rewrite (press_of_low _ _ _ Hr), (press_of_low _ _ _ Hu),
    (press_of_low _ _ _ Hd), (press_of_low _ _ _ Hb).
  assert (press_of (port_activate ports) (m_now p) (m_activateButton p)
          = Some true) as ->.
  { unfold press_of, held in *. destruct (port_activate ports) as [v|]; [|done].
    by rewrite Ha, Hlast, Hclick, f64_sub_zero, Hnow. }
  apply run_activate_double_click.
Qed.

End PluginFacts.

(** * Instances of the further properties *)

(** The counters of the full ledger. *)
Lemma ledger_counters_witness :
  0 <= m_nrOfDubs full_ledger <= m_maxUsedDubs full_ledger
  ∧ m_maxUsedDubs full_ledger <= NR_OF_DUBS.
Proof.
  apply (ledger_counters_ordered powf_unused).
  apply (play_reachable fill_ledger). vm_compute. reflexivity.
Defined.

(** After the only take is undone there is no loop. *)
Lemma empty_ledger_witness :
  m_nrOfDubs undone_take = 0
  ∧ m_loopLength undone_take = 0
  ∧ m_currentLoopIndex undone_take = 0.
Proof.
  assert (m_nrOfDubs undone_take = 0) as Hn by (vm_compute; reflexivity).
  split; [exact Hn|].
  apply (empty_ledger_has_no_loop powf_unused); [|exact Hn].
  apply (play_reachable take_then_undo). vm_compute. reflexivity.
Defined.

(** The loop index after a take of two samples and two samples of
    playback. *)
Lemma loop_index_witness :
  0 <= m_currentLoopIndex (state_after take_two_samples)
    <= m_loopLength (state_after take_two_samples).
Proof.
  apply (reachable_loop_index powf_unused).
  apply (play_reachable take_two_samples). vm_compute. reflexivity.
Defined.

(** A sample played after a finished take leaves the history collapsed. *)
Lemma collapsed_witness :
  m_nrOfDubs finished_take = m_maxUsedDubs finished_take
  ∧ ∃ l', apply_op (OpSample ones) finished_take = Ok l'
      ∧ m_nrOfDubs l' = m_maxUsedDubs l'
      ∧ redo l' = Ok l'.
Proof.
  assert (m_nrOfDubs finished_take = m_maxUsedDubs finished_take) as Hc
    by (vm_compute; reflexivity).
  split; [exact Hc|].
  assert (is_Ok (apply_op (OpSample ones) finished_take)) as [l' H]
    by (vm_compute; eexists; reflexivity).
  exists l'. split; [exact H|].
  exact (collapsed_until_undo (OpSample ones) finished_take l' Hc eq_refl H).
Defined.

Lemma finished_take_in_arena : dubs_in_arena finished_take.
Proof.
  split; [vm_compute; split; discriminate|].
  split; [vm_compute; discriminate|].
  intros t Ht.
  assert (m_nrOfDubs finished_take = 1) as Hn by (vm_compute; reflexivity).
  rewrite Hn in Ht. assert (t = 0) as -> by lia.
  vm_compute. repeat split; discriminate.
Qed.

Lemma recording_take_in_arena : dubs_in_arena recording_take.
Proof.
  split; [vm_compute; split; discriminate|].
  split; [vm_compute; discriminate|].
  intros t Ht.
  assert (m_nrOfDubs recording_take = 0) as Hn by (vm_compute; reflexivity).
  rewrite Hn in Ht. lia.
Qed.

(** The sample played at the start of a finished take. *)
Lemma playback_witness :
  playback F32.one F32.one finished_take
  = Ok (playback_sum F32.one F32.one finished_take).
Proof.
  exact (playback_is_windowed_sum F32.one F32.one finished_take
           finished_take_in_arena).
Defined.

(** Two samples of playback after a finished take. *)
Lemma playing_witness :
  m_state finished_take = LOOPER_STATE_PLAYING
  ∧ ∃ l' out z,
      run_samples [ones; ones] finished_take = Ok (l', out)
      ∧ l' = with_currentLoopIndex z finished_take.
Proof.
  assert (m_state finished_take = LOOPER_STATE_PLAYING) as Hs
    by (vm_compute; reflexivity).
  split; [exact Hs|].
  pose proof (playing_only_moves_index [ones; ones] finished_take Hs) as H.
  destruct H as [Hmove Hok].
  destruct (Hok finished_take_in_arena) as [[l' out] H].
  destruct (Hmove l' out H) as [z Hz].
  exists l', out, z. split; [exact H | exact Hz].
Defined.

(** The first block of a first take. *)
Lemma run_output_length_witness :
  ∃ l' out,
    run powf_unused floor_dB F32.zero press_activate [ones; ones]
      (Looper_new rate48k) = Ok (l', out)
    ∧ length out = 2%nat.
Proof.
  assert (is_Ok (run powf_unused floor_dB F32.zero press_activate
                   [ones; ones] (Looper_new rate48k))) as [[l' out] H]
    by (vm_compute; eexists; reflexivity).
  exists l', out. split; [exact H|].
  exact (run_output_length powf_unused floor_dB F32.zero press_activate
           [ones; ones] out (Looper_new rate48k) l' H).
Defined.

Lemma exhausted_arena_in_arena : dubs_in_arena exhausted_arena.
Proof.
  split; [vm_compute; split; discriminate|].
  split; [vm_compute; discriminate|].
  intros t Ht.
  assert (m_nrOfDubs exhausted_arena = 1) as Hn by (vm_compute; reflexivity).
  rewrite Hn in Ht. assert (t = 0) as -> by lia.
  vm_compute. repeat split; discriminate.
Qed.

(** Playback after a take that has filled the small arena. *)
Lemma full_arena_witness :
  m_state exhausted_arena = LOOPER_STATE_PLAYING
  ∧ m_nrOfUsedSamples exhausted_arena = m_storageSize exhausted_arena
  ∧ run_sample ones exhausted_arena
    = Ok (with_currentLoopIndex 0 exhausted_arena,
          playback_sum F32.one F32.one exhausted_arena).
Proof.
  assert (m_state exhausted_arena = LOOPER_STATE_PLAYING) as Hs
    by (vm_compute; reflexivity).
  assert (m_nrOfUsedSamples exhausted_arena = m_storageSize exhausted_arena)
    as Hfull by (vm_compute; reflexivity).
  split; [exact Hs|]. split; [exact Hfull|].
  apply (full_arena_pins_index ones exhausted_arena Hs);
    [rewrite Hfull; lia | exact exhausted_arena_in_arena].
Defined.

Lemma recording_take_take_in_arena : take_in_arena recording_take.
Proof.
  split; [vm_compute; split; [discriminate | reflexivity]|].
  split; [vm_compute; reflexivity|].
  vm_compute. repeat split; discriminate.
Qed.

(** Finishing a take of two samples: a cell beyond the take is untouched. *)
Lemma finish_fade_frame_witness :
  ∃ l', finishRecording recording_take = Ok l'
    ∧ m_state l' = LOOPER_STATE_PLAYING
    ∧ m_dubs l' = m_dubs recording_take
    ∧ cell (m_storage1 l') 2 = cell (m_storage1 recording_take) 2.
Proof.
  assert (m_state recording_take ≠ LOOPER_STATE_WAITING_FOR_THRESHOLD) as Hs
    by (vm_compute; discriminate).
  pose proof (finish_fades_only_the_edges recording_take Hs
                recording_take_take_in_arena) as H.
  destruct H as (l' & Hf & Hp & _ & Hd & Hcells).
  exists l'. split; [exact Hf|]. split; [exact Hp|]. split; [exact Hd|].
  apply (Hcells 2).
  - vm_compute. intros [_ H]. discriminate H.
  - vm_compute. intros [_ H]. discriminate H.
Defined.

Lemma long_take_in_arena : take_in_arena long_take.
Proof.
  split; [vm_compute; split; [discriminate | reflexivity]|].
  split; [vm_compute; reflexivity|].
  vm_compute. repeat split; discriminate.
Qed.

(** Finishing a take of 128 samples: sample 32 is halved. *)
Lemma fade_ramp_witness :
  128 <= m_length (next_slot long_take)
  ∧ ∃ l', finishRecording long_take = Ok l'
      ∧ cell (m_storage1 l') (m_storageOffset (next_slot long_take) + 32)
        = F32.mul
            (cell (m_storage1 long_take)
               (m_storageOffset (next_slot long_take) + 32))
            half.
Proof.
  assert (m_state long_take ≠ LOOPER_STATE_WAITING_FOR_THRESHOLD) as Hs
    by (vm_compute; discriminate).
  assert (128 <= m_length (next_slot long_take)) as Hlen
    by (vm_compute; discriminate).
  split; [exact Hlen|].
  pose proof (fade_ramp_of_long_take long_take Hs long_take_in_arena Hlen)
    as H.
  destruct H as (l' & Hf & Hramp & _ & Hhalf).
  exists l'. split; [exact Hf|].
  rewrite <- Hhalf. apply (Hramp 32). lia.
Defined.

(** Two more samples of a first take. *)
Lemma recording_witness :
  ∃ l' out,
    run_samples [ones; ones] recording_take = Ok (l', out)
    ∧ m_state l' = LOOPER_STATE_RECORDING
    ∧ m_nrOfUsedSamples l' = 4
    ∧ m_length (next_slot l') = 4.
Proof.
  assert (room_to_record recording_take 2) as Hroom.
  { split; [vm_compute; reflexivity|].
    split; [exact recording_take_in_arena|].
    vm_compute. repeat split; discriminate || reflexivity. }
  pose proof (recording_appends_block [ones; ones] recording_take Hroom) as H.
  destruct H as (l' & out & Hrun & Hs & _ & _ & _ & Hu & _ & Hl & _).
  exists l', out. split; [exact Hrun|]. split; [exact Hs|].
  split; [rewrite Hu | rewrite Hl]; vm_compute; reflexivity.
Defined.

(** Undo, then Redo, after a finished first take. *)
Lemma undo_redo_witness : undo finished_take ≫= redo = Ok finished_take.
Proof.
  apply (undo_then_redo_is_identity finished_take).
  - vm_compute. discriminate.
  - vm_compute. split; discriminate.
  - vm_compute. discriminate.
  - vm_compute. reflexivity.
  - intros _. vm_compute. split; reflexivity.
Defined.

(** Redo, then Undo, after the only take was undone. *)
Lemma redo_undo_witness : redo undone_take ≫= undo = Ok undone_take.
Proof.
  apply (redo_then_undo_is_identity undone_take).
  - vm_compute. discriminate.
  - vm_compute. split; [discriminate | reflexivity].
  - vm_compute. discriminate.
  - vm_compute. reflexivity.
  - intros _. vm_compute. split; reflexivity.
Defined.

(** A second take started and stopped before any sample arrives. *)
Lemma abandoned_take_witness :
  ∃ l', startRecording finished_take ≫= finishRecording = Ok l'
    ∧ m_state l' = LOOPER_STATE_PLAYING
    ∧ m_nrOfDubs l' = m_nrOfDubs finished_take
    ∧ m_nrOfUsedSamples l' = m_nrOfUsedSamples finished_take
    ∧ m_storage1 l' = m_storage1 finished_take.
Proof.
  assert (0 <= m_nrOfDubs finished_take < NR_OF_DUBS) as Hn
    by (vm_compute; split; [discriminate | reflexivity]).
  assert (m_nrOfUsedSamples finished_take < m_storageSize finished_take)
    as Hroom by (vm_compute; reflexivity).
  pose proof (abandoned_take_records_nothing finished_take Hn Hroom) as H.
  destruct H as (l' & Hrun & Hs & Hd & _ & Hu & _ & _ & Hst & _).
  exists l'. split; [exact Hrun|].
  split; [rewrite Hs; vm_compute; reflexivity|].
  split; [exact Hd|]. split; [exact Hu | exact Hst].
Defined.



Lemma nearly_full_in_arena : dubs_in_arena nearly_full_take.
Proof.
  split; [vm_compute; split; discriminate|].
  split; [vm_compute; discriminate|].
  intros t Ht.
  assert (m_nrOfDubs nearly_full_take = 0) as Hn by (vm_compute; reflexivity).
  rewrite Hn in Ht. lia.
Qed.

(** The sample that fills the small arena. *)
Lemma arena_exhaustion_witness :
  m_state nearly_full_take = LOOPER_STATE_RECORDING
  ∧ m_nrOfUsedSamples nearly_full_take + 1 = m_storageSize nearly_full_take
  ∧ ∃ l' out, run_sample ones nearly_full_take = Ok (l', out)
      ∧ m_state l' = LOOPER_STATE_PLAYING
      ∧ m_nrOfDubs l' = 1
      ∧ m_currentLoopIndex l' = 0
      ∧ startRecording l' = Ok l'.
Proof.
  assert (m_state nearly_full_take = LOOPER_STATE_RECORDING) as Hs
    by (vm_compute; reflexivity).
  assert (m_nrOfUsedSamples nearly_full_take + 1
          = m_storageSize nearly_full_take) as Hfull
    by (vm_compute; reflexivity).
  split; [exact Hs|]. split; [exact Hfull|].
  pose proof (arena_exhaustion_finishes_take ones nearly_full_take Hs
                nearly_full_in_arena) as H.
  assert (m_nrOfDubs nearly_full_take < NR_OF_DUBS) as H1
    by (vm_compute; reflexivity).
  assert (0 <= m_nrOfUsedSamples nearly_full_take) as H2
    by (vm_compute; discriminate).
  assert (m_storageSize nearly_full_take < 2 ^ SIZE_BITS) as H3
    by (vm_compute; reflexivity).
  assert (0 <= m_storageOffset (next_slot nearly_full_take)) as H4
    by (vm_compute; discriminate).
  assert (0 <= m_length (next_slot nearly_full_take)) as H5
    by (vm_compute; discriminate).
  assert (m_storageOffset (next_slot nearly_full_take)
          + m_length (next_slot nearly_full_take) + 1
          <= m_storageSize nearly_full_take) as H6
    by (vm_compute; discriminate).
  specialize (H H1 H2 Hfull H3 H4 H5 H6).
  destruct H as (l' & out & Hrun & Hp & Hn & _ & _ & Hi & Hstart).
  exists l', out. split; [exact Hrun|]. split; [exact Hp|].
  split; [rewrite Hn; vm_compute; reflexivity|].
  split; [exact Hi | exact Hstart].
Defined.

(** Activate pressed after one idle second and held for a second call: the
    take starts once. *)
Lemma held_button_witness :
  m_state (p_looper (plugin_after [idle_second; activate_high]))
  = LOOPER_STATE_RECORDING
  ∧ ∃ out p'',
      Plugin_run powf_unused activate_high (plugin_after [idle_second])
      = Ok (plugin_after [idle_second; activate_high], out)
      ∧ Plugin_updateParameters powf_unused activate_high
          (plugin_after [idle_second; activate_high]) = Ok p''
      ∧ p_looper p''
        = with_dryAmount (port_dryAmount activate_high)
            (with_threshold
               (dbToFloat powf_unused (port_threshold activate_high))
               (p_looper (plugin_after [idle_second; activate_high]))).
Proof.
  split; [vm_compute; reflexivity|].
  assert (∃ out,
            Plugin_run powf_unused activate_high (plugin_after [idle_second])
            = Ok (plugin_after [idle_second; activate_high], out))
    as [out Hrun] by (vm_compute; eexists; reflexivity).
  pose proof (held_buttons_fire_once powf_unused activate_high
                (plugin_after [idle_second])
                (plugin_after [idle_second; activate_high]) out
                activate_high Hrun eq_refl eq_refl eq_refl eq_refl eq_refl)
    as H.
  destruct H as (p'' & Hup & Hl).
  exists out, p''. split; [exact Hrun|]. split; [exact Hup | exact Hl].
Defined.

(** Activate pressed in the very first call of a fresh plugin. *)
Lemma early_activate_witness :
  engine_view (Plugin_run powf_unused activate_high (Plugin_new rate48k))
  = Ok (reset (with_dryAmount (port_dryAmount activate_high)
                 (with_threshold
                    (dbToFloat powf_unused (port_threshold activate_high))
                    (p_looper (Plugin_new rate48k)))),
        map (dry_signal (port_dryAmount activate_high))
          (port_input activate_high)).
Proof.
  apply (early_activate_is_a_double_click powf_unused activate_high
           (Plugin_new rate48k)); vm_compute; reflexivity.
Defined.
